(** * HyprWM tiling core: a shallow embedding of the layout engine

    The development follows the TypeScript sources of the extension:

    - [types/grid.ts]            rectangles and insets,
    - [util/tile.ts]             the [Tile] and [Container] payloads,
    - [core/UserPreferences.ts]  inset and spacing,
    - [core/DesktopManager.ts]   [workArea], [removeId], [pushTree], the fit
                                 walk and the area-split helper,
    - [core/App.ts]              the forest and its initial construction.

    JavaScript numbers are modelled as canonical rationals ([Qc]): the values
    the engine handles are pixel coordinates, their sums, differences and
    halves, all of which a double represents exactly, and [===] on numbers is
    then Leibniz equality.  Beyond 2^53 a sum of doubles rounds; for such
    coordinates [Double] repeats the point test, the area split and the
    insertion with the operations of binary64.  Window identifiers are
    integers. *)

From Stdlib Require Import ZArith QArith Qcanon Qround String List Lia Bool.
From Stdlib Require Import SpecFloat.
From stdpp Require Import base option list.

Set Warnings "-register-all".
Local Open Scope Qc_scope.

(** ** Numbers *)

Definition number := Qc.

Definition ofZ (z : Z) : number := Q2Qc (inject_Z z).

(** [a === b] on numbers. *)
Definition num_eqb (a b : number) : bool := Qeq_bool a b.

(** [a <= b], [a > b] and [a >= b] on numbers. *)
Definition num_leb (a b : number) : bool := Qle_bool a b.
Definition num_gtb (a b : number) : bool := negb (Qle_bool a b).
Definition num_geb (a b : number) : bool := Qle_bool b a.

(** [Math.floor], [Math.max], [Math.min]. *)
Definition Math_floor (a : number) : number := ofZ (Qfloor a).
Definition Math_max (a b : number) : number := if num_leb a b then b else a.
Definition Math_min (a b : number) : number := if num_leb a b then a else b.

(** [Math.clamp] is not part of ECMAScript; the shell's environment installs it
    as [Math.min(Math.max(x, lower), upper)]. *)
Definition Math_clamp (x lower upper : number) : number :=
  Math_min (Math_max x lower) upper.

(** ** types/grid.ts *)

Module Inset.
Record t := mk { top : number; right : number; bottom : number; left : number }.
End Inset.
Abbreviation Inset := Inset.t.

Module Rectangle.
Record t := mk { x : number; y : number; width : number; height : number }.

(** The four keys of a rectangle, for the computed member accesses
    [area[dimension]] and [area[position]]. *)
Inductive key := X | Y | Width | Height.

Definition get (r : t) (k : key) : number :=
  match k with X => x r | Y => y r | Width => width r | Height => height r end.

Definition set (r : t) (k : key) (v : number) : t :=
  match k with
  | X => mk v (y r) (width r) (height r)
  | Y => mk (x r) v (width r) (height r)
  | Width => mk (x r) (y r) v (height r)
  | Height => mk (x r) (y r) (width r) v
  end.

Definition eqb (a b : t) : bool :=
  num_eqb (x a) (x b) && num_eqb (y a) (y b) &&
  num_eqb (width a) (width b) && num_eqb (height a) (height b).

Definition ofZ (x0 y0 w h : Z) : t := mk (ofZ x0) (ofZ y0) (ofZ w) (ofZ h).
End Rectangle.
Abbreviation Rectangle := Rectangle.t.

Module Point.
Record t := mk { x : number; y : number }.
End Point.
Abbreviation Point := Point.t.

(** ** util/tile.ts *)

Module Tile.
(** [isNew] is [undefined] ([None]) when the constructor is called with the
    identifier alone, as every caller in [App.ts] does. *)
Record t := mk { id : Z; isNew : option bool }.
Definition new (id0 : Z) : t := mk id0 None.
End Tile.
Abbreviation Tile := Tile.t.

Inductive Split := Horizontal | Vertical.

Module Container.
Record t := mk { split : Split; constraint : option number }.
Definition new (s : Split) : t := mk s None.
End Container.
Abbreviation Container := Container.t.

(** The payload of a node: [Tile | Container], told apart by [instanceof]. *)
Inductive Payload :=
| PTile (t : Tile)
| PContainer (c : Container).

(** ** types/tree.ts: [Node<Tile | Container>] with optional children *)

Module Node.
Inductive t := mk { data : Payload; left : option t; right : option t }.

(** The object literal [{ data: d }]. *)
Definition leaf (d : Payload) : t := mk d None None.
End Node.
Abbreviation Node := Node.t.

(** Identifiers of the nodes that carry a [Tile], node first, then the left
    and the right subtree. *)
Fixpoint tileIds (n : Node) : list Z :=
  match n with
  | Node.mk d l r =>
      (match d with PTile t => [Tile.id t] | PContainer _ => [] end)
      ++ (match l with Some l0 => tileIds l0 | None => [] end)
      ++ (match r with Some r0 => tileIds r0 | None => [] end)
  end.

Definition tileCount (n : Node) : nat := length (tileIds n).

(** ** core/UserPreferences.ts *)

Record UserPreferencesProvider := {
  getInset : Inset;
  getSpacing : number;
}.

(** The settings keys the store reads, as [get_int] returns them. *)
Record ExtensionSettings := {
  general_gaps_in : number;
  general_gaps_out : number;
}.

Definition UserPreferences (settings : ExtensionSettings) : UserPreferencesProvider :=
  let gapsOut := general_gaps_out settings in
  {| getInset := Inset.mk gapsOut gapsOut gapsOut gapsOut;
     getSpacing := general_gaps_in settings |}.

(** ** core/DesktopManager.ts: geometry *)

(** [#pointInRectangle]: all four comparisons are inclusive. *)
Definition pointInRectangle (point : Point) (rectangle : Rectangle) : bool :=
  num_geb (Point.x point) (Rectangle.x rectangle) &&
  num_leb (Point.x point) (Rectangle.x rectangle + Rectangle.width rectangle) &&
  num_geb (Point.y point) (Rectangle.y rectangle) &&
  num_leb (Point.y point) (Rectangle.y rectangle + Rectangle.height rectangle).

Definition dimensionOf (s : Split) : Rectangle.key :=
  match s with Horizontal => Rectangle.Height | Vertical => Rectangle.Width end.

Definition positionOf (s : Split) : Rectangle.key :=
  match s with Horizontal => Rectangle.Y | Vertical => Rectangle.X end.

(** Truthiness of [container.constraint]: [undefined] and [0] are falsy. *)
Definition truthy (c : option number) : bool :=
  match c with
  | Some v => negb (num_eqb v 0)
  | None => false
  end.

(** The two child rectangles of a split, as both [#splitArea] and [#fitTree]
    compute them: both start as copies of the parent. *)
Definition childAreas (area : Rectangle) (container : Container)
  : Rectangle * Rectangle :=
  let leftArea := area in
  let rightArea := area in
  let dimension := dimensionOf (Container.split container) in
  let position := positionOf (Container.split container) in
  if truthy (Container.constraint container) then
    let left := default 0 (Container.constraint container) in
    let leftArea := Rectangle.set leftArea dimension left in
    let rightArea := Rectangle.set rightArea dimension (Rectangle.get area dimension - left) in
    let rightArea := Rectangle.set rightArea position (Rectangle.get rightArea position + left) in
    (leftArea, rightArea)
  else
    let half := Rectangle.get area dimension / ofZ 2 in
    let leftArea := Rectangle.set leftArea dimension half in
    let rightArea := Rectangle.set rightArea dimension half in
    let rightArea := Rectangle.set rightArea position (Rectangle.get rightArea position + half) in
    (leftArea, rightArea).

Module SplitResult.
Record t := mk { left : Rectangle; right : Rectangle; container : Container }.
End SplitResult.

(** [#splitArea(area, container?)]. *)
Definition splitArea (area : Rectangle) (container : option Container)
  : SplitResult.t :=
  let container :=
    match container with
    | Some c => c
    | None =>
        Container.new
          (if num_gtb (Rectangle.height area) (Rectangle.width area)
           then Horizontal else Vertical)
    end in
  let '(leftArea, rightArea) := childAreas area container in
  SplitResult.mk leftArea rightArea container.

(** [workArea(monitorIdx)], from the raw work area the workspace manager
    reports for the monitor. *)
Definition workAreaOf (prefs : UserPreferencesProvider) (workArea : Rectangle)
  : Rectangle :=
  let inset := getInset prefs in
  let top := Math_clamp (Inset.top inset) 0 (Math_floor (Rectangle.height workArea / ofZ 2)) in
  let bottom := Math_clamp (Inset.bottom inset) 0 (Math_floor (Rectangle.height workArea / ofZ 2)) in
  let left := Math_clamp (Inset.left inset) 0 (Math_floor (Rectangle.width workArea / ofZ 2)) in
  let right := Math_clamp (Inset.right inset) 0 (Math_floor (Rectangle.width workArea / ofZ 2)) in
  let spacing := getSpacing prefs in
  Rectangle.mk
    (Rectangle.x workArea + (left - spacing))
    (Rectangle.y workArea + (top - spacing))
    (Rectangle.width workArea - (left + right - spacing * ofZ 2))
    (Rectangle.height workArea - (top + bottom - spacing * ofZ 2)).

(** ** Exceptions *)

Inductive Error :=
| NotHandled   (* [throw new Error("Not handled")] *)
| TypeError    (* a member access on [undefined] *)
| RangeError.  (* the call stack exhausted by a recursion that does not end *)

Inductive result (A : Type) :=
| Ok (a : A)
| Throw (e : Error).
Arguments Ok {A} a.
Arguments Throw {A} e.

Definition bind {A B : Type} (c : result A) (k : A -> result B) : result B :=
  match c with
  | Ok a => k a
  | Throw e => Throw e
  end.

Notation "x <- c ;; k" := (bind c (fun x => k))
  (at level 100, c at next level, right associativity).

Definition orThrow {A : Type} (e : Error) (o : option A) : result A :=
  match o with
  | Some a => Ok a
  | None => Throw e
  end.

(** ** The host: windows, display and workspace manager *)

Inductive FrameType :=
| NORMAL | DIALOG | MODAL_DIALOG | UTILITY | MENU | BORDER | ATTACHED.

Definition FrameType_eqb (a b : FrameType) : bool :=
  match a, b with
  | NORMAL, NORMAL | DIALOG, DIALOG | MODAL_DIALOG, MODAL_DIALOG
  | UTILITY, UTILITY | MENU, MENU | BORDER, BORDER | ATTACHED, ATTACHED => true
  | _, _ => false
  end.

(** The attributes of a window the engine reads.  The frame rectangle, which
    the engine also writes, lives in the [Screen] below, keyed by the window's
    identifier (the host gives every window an identifier of its own). *)
Record Window := {
  get_id : Z;
  minimized : bool;
  get_monitor : nat;
  get_frame_type : FrameType;
  title : option string;
}.

Record Host := {
  (* display.get_n_monitors() *)
  get_n_monitors : nat;
  (* display.get_current_monitor() *)
  get_current_monitor : nat;
  (* workspace_manager.get_workspace_by_index(i).list_windows() *)
  workspaces : list (list Window);
  (* workspace_manager.get_active_workspace().index() *)
  active_workspace : nat;
  (* workspace_manager.get_active_workspace().get_work_area_for_monitor(i) *)
  get_work_area_for_monitor : nat -> Rectangle;
}.

Record DesktopManager := {
  host : Host;
  userPreferences : UserPreferencesProvider;
}.

Definition workArea (dm : DesktopManager) (monitorIdx : nat) : Rectangle :=
  workAreaOf (userPreferences dm) (get_work_area_for_monitor (host dm) monitorIdx).

(** The calls the engine makes on a window and on its actor. *)
Inductive HostCall :=
| Unmaximize (id : Z)
| MoveFrame (id : Z) (x y : number)
| MoveResizeFrame (id : Z) (x y w h : number)
| Ease (id : Z).

(** What the engine changes outside the tree: the frame rectangle of every
    window ([get_frame_rect]) and the calls made so far, oldest first.  The
    host is taken to honour [move_frame] and [move_resize_frame] exactly.
    That is an ideal host: a real one reports frames in whole pixels and
    keeps to its own limits on sizes.  What the engine asks of the host is
    in [calls] and does not depend on it. *)
Record Screen := {
  frame_rect : Z -> Rectangle;
  calls : list HostCall;
}.

Definition setFrame (st : Screen) (id : Z) (r : Rectangle) (c : HostCall) : Screen :=
  {| frame_rect := fun i => if Z.eqb i id then r else frame_rect st i;
     calls := calls st ++ [c] |}.

Definition logCall (st : Screen) (c : HostCall) : Screen :=
  {| frame_rect := frame_rect st; calls := calls st ++ [c] |}.

(** ** core/DesktopManager.ts: the title blacklist and the eligibility filter *)

(** [/;BDHF$/.test(s)]: [s] ends with [";BDHF"]. *)
Fixpoint endsWith (suffix s : string) : bool :=
  String.eqb s suffix ||
  match s with
  | EmptyString => false
  | String _ s0 => endsWith suffix s0
  end.

Definition TitleBlacklist : list (string -> bool) := [endsWith ";BDHF"].

(** The filter of [#initTree] and of [autotile]. *)
Definition eligible (monitorIdx : nat) (win : Window) : bool :=
  negb (minimized win
        || negb (Nat.eqb (get_monitor win) monitorIdx)
        || negb (FrameType_eqb (get_frame_type win) NORMAL)
        || existsb (fun p => p (default EmptyString (title win))) TitleBlacklist).

(** ** core/DesktopManager.ts: removal *)

Definition isContainer (n : Node) : bool :=
  match Node.data n with PContainer _ => true | PTile _ => false end.

(** [n.data instanceof Tile && n.data.id === id] *)
Definition isTileWithId (n : Node) (id : Z) : bool :=
  match Node.data n with PTile t => Z.eqb (Tile.id t) id | PContainer _ => false end.

Fixpoint removeId (tree : Node) (id : Z) : Node :=
  match tree with
  | Node.mk (PContainer c) (Some l) (Some r) =>
      let l1 := if isContainer l then removeId l id else l in
      let r1 := if isContainer r then removeId r id else r in
      if isTileWithId l1 id then r1
      else if isTileWithId r1 id then l1
      else Node.mk (PContainer c) (Some l1) (Some r1)
  | Node.mk _ l r =>
      if isTileWithId tree id
      then Node.mk (PContainer (Container.new Horizontal)) l r
      else tree
  end.

(** ** core/DesktopManager.ts: insertion *)

Fixpoint pushTree (dm : DesktopManager) (tree : Node) (point : Point)
  (newTile : Tile) (workArea0 : option Rectangle) {struct tree} : result Node :=
  let workArea :=
    match workArea0 with
    | Some w => w
    | None => workArea dm (get_current_monitor (host dm))
    end in
  if negb (pointInRectangle point workArea) then Ok tree else
  match tree with
  | Node.mk (PContainer _) None None =>
      (* Node has no window. Only possible on empty desktop. *)
      Ok (Node.mk (PTile newTile) None None)
  | Node.mk (PTile temp) _ _ =>
      if negb (pointInRectangle point workArea) then Ok tree else
      let s := splitArea workArea None in
      if pointInRectangle point (SplitResult.left s) then
        Ok (Node.mk (PContainer (SplitResult.container s))
              (Some (Node.leaf (PTile newTile))) (Some (Node.leaf (PTile temp))))
      else
        Ok (Node.mk (PContainer (SplitResult.container s))
              (Some (Node.leaf (PTile temp))) (Some (Node.leaf (PTile newTile))))
  | Node.mk (PContainer c) (Some l) (Some r) =>
      let s := splitArea workArea (Some c) in
      l1 <- pushTree dm l point newTile (Some (SplitResult.left s)) ;;
      r1 <- pushTree dm r point newTile (Some (SplitResult.right s)) ;;
      Ok (Node.mk (PContainer c) (Some l1) (Some r1))
  | _ => Throw NotHandled
  end.

(** ** core/DesktopManager.ts: fitting *)

(** [#moveResize(target, x, y, size)] *)
Definition moveResize (dm : DesktopManager) (target : Window) (x y : number)
  (size : option (number * number)) (st : Screen) : Screen :=
  let id := get_id target in
  let st := logCall st (Unmaximize id) in
  let spacing := getSpacing (userPreferences dm) in
  let x := x + spacing in
  let y := y + spacing in
  let old := frame_rect st id in
  let st := setFrame st id
              (Rectangle.mk x y (Rectangle.width old) (Rectangle.height old))
              (MoveFrame id x y) in
  match size with
  | Some (w, h) =>
      let w' := w - spacing * ofZ 2 in
      let h' := h - spacing * ofZ 2 in
      setFrame st id (Rectangle.mk x y w' h') (MoveResizeFrame id x y w' h')
  | None => st
  end.

(** [#fit(target, rect)]; [target] is [None] when the lookup that produced it
    came back [undefined].  The actor's scale and translation, set for the
    transition only, are not kept: the transition ends at the frame. *)
Definition fit (dm : DesktopManager) (target : option Window) (r : Rectangle)
  (st : Screen) : result Screen :=
  match target with
  | None => Throw TypeError
  | Some target =>
      let window := frame_rect st (get_id target) in
      if Rectangle.eqb window r then Ok st
      else
        let st := moveResize dm target (Rectangle.x r) (Rectangle.y r)
                    (Some (Rectangle.width r, Rectangle.height r)) st in
        Ok (logCall st (Ease (get_id target)))
  end.

(** [windows.find(window => window.get_id() === id)] *)
Definition findWindow (windows : list Window) (id : Z) : option Window :=
  List.find (fun window => Z.eqb (get_id window) id) windows.

Fixpoint fitTree (dm : DesktopManager) (tree : Node) (workArea : Rectangle)
  (windows : list Window) (st : Screen) {struct tree} : result Screen :=
  match tree with
  | Node.mk (PContainer _) None None =>
      (* Node has no window. Only possible on empty desktop. *)
      Ok st
  | Node.mk (PTile t) _ _ =>
      fit dm (findWindow windows (Tile.id t)) workArea st
  | Node.mk (PContainer c) (Some l) (Some r) =>
      let '(leftArea, rightArea) := childAreas workArea c in
      st1 <- match Node.data l with
             | PTile t => fit dm (findWindow windows (Tile.id t)) leftArea st
             | PContainer _ => fitTree dm l leftArea windows st
             end ;;
      match Node.data r with
      | PTile t => fit dm (findWindow windows (Tile.id t)) rightArea st1
      | PContainer _ => fitTree dm r rightArea windows st1
      end
  | _ => Throw NotHandled
  end.

Definition autotile (dm : DesktopManager) (tree : Node) (st : Screen)
  : result Screen :=
  let monitorIdx := get_current_monitor (host dm) in
  let workArea := workArea dm monitorIdx in
  let windows :=
    List.filter (eligible monitorIdx)
      (default [] (workspaces (host dm) !! active_workspace (host dm))) in
  fitTree dm tree workArea windows st.

(** ** core/App.ts: the forest and its construction

    The nodes of the forest are objects that [#initTree] creates and then
    changes in place, and a slot of [this.#tree] holds a reference to one.
    The heap below is the store of these objects; a reference is an index
    into it. *)

Module HNode.
Record t := mk { data : Payload; left : option nat; right : option nat }.

(** The object literal [{ data: d }]. *)
Definition leafOf (d : Payload) : t := mk d None None.
End HNode.
Abbreviation Heap := (list HNode.t).

(** An object literal: the new object goes to the end of the heap. *)
Definition alloc (h : Heap) (n : HNode.t) : Heap * nat :=
  (h ++ [n], length h).

(** The tree a reference stands for.  A walk that has not ended after as
    many steps as [fuel] is on a cycle; none of the code here creates one. *)
Fixpoint readTree (fuel : nat) (h : Heap) (ref : nat) : option Node :=
  match fuel with
  | O => None
  | S fuel0 =>
      match h !! ref with
      | None => None
      | Some n =>
          let child (c : option nat) : option (option Node) :=
            match c with
            | None => Some None
            | Some r => option_map Some (readTree fuel0 h r)
            end in
          match child (HNode.left n), child (HNode.right n) with
          | Some l, Some r => Some (Node.mk (HNode.data n) l r)
          | _, _ => None
          end
      end
  end.

Definition snapshot (h : Heap) (ref : nat) : option Node :=
  readTree (S (length h)) h ref.

(** [[...Array(workspaceCount)].map(_ => Array(monitorCount).fill({ data: new
    Container("Horizontal") }))]: the object literal is evaluated once for
    every workspace, and [fill] stores that one reference in every slot of
    the row. *)
Fixpoint newForest (workspaceCount monitorCount : nat) (h : Heap)
  : Heap * list (list nat) :=
  match workspaceCount with
  | O => (h, [])
  | S n =>
      let '(h1, root) :=
        alloc h (HNode.mk (PContainer (Container.new Horizontal)) None None) in
      let '(h2, rows) := newForest n monitorCount h1 in
      (h2, replicate monitorCount root :: rows)
  end.

(** The orientation of the container a window is split into:
    [index % 2 === 0 && workArea.width > workArea.height ? "Horizontal" : "Vertical"]. *)
Definition initSplit (index : nat) (workArea : Rectangle) : Split :=
  if Nat.even index && num_gtb (Rectangle.width workArea) (Rectangle.height workArea)
  then Horizontal else Vertical.

(** One turn of the loop over the windows of a slot; [root] is the loop's
    cursor. *)
Definition insertWindow (workArea : Rectangle) (index : nat) (window : Window)
  (s : Heap * nat) : result (Heap * nat) :=
  let '(h, root) := s in
  node <- orThrow TypeError (h !! root) ;;
  match HNode.data node with
  | PContainer _ =>
      match HNode.right node with
      | None =>
          Ok (<[root := HNode.mk (PTile (Tile.new (get_id window)))
                          (HNode.left node) (HNode.right node)]> h, root)
      | Some r => Ok (h, r)
      end
  | PTile t =>
      let '(h1, l) := alloc h (HNode.leafOf (PTile (Tile.new (Tile.id t)))) in
      let '(h2, r) := alloc h1 (HNode.leafOf (PTile (Tile.new (get_id window)))) in
      Ok (<[root := HNode.mk (PContainer (Container.new (initSplit index workArea)))
                      (Some l) (Some r)]> h2, r)
  end.

Fixpoint insertWindows (workArea : Rectangle) (index : nat)
  (windows : list Window) (s : Heap * nat) : result (Heap * nat) :=
  match windows with
  | [] => Ok s
  | window :: rest =>
      s1 <- insertWindow workArea index window s ;;
      insertWindows workArea (S index) rest s1
  end.

(** [for (let i = 0; i < n; i++) body(i)] over a state. *)
Fixpoint forUpTo {S : Type} (n : nat) (body : nat -> S -> result S) (s : S)
  : result S :=
  match n with
  | O => Ok s
  | S m => s1 <- forUpTo m body s ;; body m s1
  end.

(** The body of the inner loop of [#initTree]: build the tree of one slot,
    then fit it. *)
Definition initSlot (dm : DesktopManager) (tree : list (list nat))
  (monitorIdx : nat) (workArea : Rectangle) (workspaceIdx : nat)
  (s : Heap * Screen) : result (Heap * Screen) :=
  let '(h, sc) := s in
  workspace <- orThrow TypeError (workspaces (host dm) !! workspaceIdx) ;;
  let windows := List.filter (eligible monitorIdx) workspace in
  row <- orThrow TypeError (tree !! workspaceIdx) ;;
  root <- orThrow TypeError (row !! monitorIdx) ;;
  s1 <- insertWindows workArea 0 windows (h, root) ;;
  slot <- orThrow RangeError (snapshot (fst s1) root) ;;
  sc1 <- autotile dm slot sc ;;
  Ok (fst s1, sc1).

Module Forest.
Record t := mk { tree : list (list nat); heap : Heap; screen : Screen }.

(** [this.#tree[workspace][monitor]], read as a tree. *)
Definition slot (f : t) (workspaceIdx monitorIdx : nat) : option Node :=
  match tree f !! workspaceIdx with
  | Some row =>
      match row !! monitorIdx with
      | Some root => snapshot (heap f) root
      | None => None
      end
  | None => None
  end.
End Forest.

Definition initTree (dm : DesktopManager) (sc : Screen) : result Forest.t :=
  let workspaceCount := length (workspaces (host dm)) in
  let monitorCount := get_n_monitors (host dm) in
  let '(h, tree) := newForest workspaceCount monitorCount [] in
  s <- forUpTo monitorCount
         (fun monitorIdx s =>
            let workArea := workArea dm monitorIdx in
            forUpTo workspaceCount (initSlot dm tree monitorIdx workArea) s)
         (h, sc) ;;
  Ok (Forest.mk tree (fst s) (snd s)).

(** ** The invariants of the data model *)

(** A subtree of a slot that holds windows: a [Tile] has no children and a
    [Container] has both. *)
Fixpoint populated (n : Node) : bool :=
  match n with
  | Node.mk (PTile _) None None => true
  | Node.mk (PContainer _) (Some l) (Some r) => populated l && populated r
  | _ => false
  end.

(** The root of a slot without windows: a [Container] with no children. *)
Definition isEmpty (n : Node) : bool :=
  match n with
  | Node.mk (PContainer _) None None => true
  | _ => false
  end.

(** A valid tree: well-shaped, the empty container at most at the root, and
    no identifier twice. *)
Definition valid (n : Node) : Prop :=
  populated n || isEmpty n = true /\ NoDup (tileIds n).

(** [c] is [v] clamped to the interval from [0] to [hi]. *)
Definition clampedTo (v hi c : number) : Prop :=
  (0 <= c /\ c <= hi) /\
  (v < 0 -> c = 0) /\
  (hi < v -> c = hi) /\
  (0 <= v /\ v <= hi -> c = v).

(** Every identifier in [tree] is the identifier of a window of [windows]. *)
Definition tilesLive (tree : Node) (windows : list Window) : Prop :=
  forall id, id ∈ tileIds tree -> exists w, w ∈ windows /\ get_id w = id.

(** The orientation rule for the initial tree as the specification words
    it: on an even index [Horizontal] if the work area is wider than tall
    and [Vertical] otherwise, on an odd index the opposite. *)
Definition specSplit (index : nat) (workArea : Rectangle) : Split :=
  let wider := num_gtb (Rectangle.width workArea) (Rectangle.height workArea) in
  if Nat.even index
  then (if wider then Horizontal else Vertical)
  else (if wider then Vertical else Horizontal).

(** The work area a call of [pushTree] works on: the one it is given, or
    the current monitor's. *)
Definition resolved (dm : DesktopManager) (workArea0 : option Rectangle)
  : Rectangle :=
  default (workArea dm (get_current_monitor (host dm))) workArea0.


(** ** The fit walk as a list of assignments *)

(** The rectangles the fit walk assigns, in the order of the walk. *)
Fixpoint assigned (tree : Node) (workArea : Rectangle) : list (Z * Rectangle) :=
  match tree with
  | Node.mk (PTile t) _ _ => [(Tile.id t, workArea)]
  | Node.mk (PContainer c) (Some l) (Some r) =>
      assigned l (fst (childAreas workArea c))
      ++ assigned r (snd (childAreas workArea c))
  | _ => []
  end.

(** [#fit] on each of them in turn. *)
Fixpoint fitAll (dm : DesktopManager) (windows : list Window)
  (targets : list (Z * Rectangle)) (st : Screen) : result Screen :=
  match targets with
  | [] => Ok st
  | (id, r) :: rest =>
      st1 <- fit dm (findWindow windows id) r st ;;
      fitAll dm windows rest st1
  end.

(** Where [#fit] leaves a frame that was at [frame] and is assigned [r]. *)
Definition settle (spacing : number) (frame r : Rectangle) : Rectangle :=
  if Rectangle.eqb frame r then frame
  else Rectangle.mk (Rectangle.x r + spacing) (Rectangle.y r + spacing)
         (Rectangle.width r - spacing * ofZ 2)
         (Rectangle.height r - spacing * ofZ 2).

(** The first rectangle assigned to [id], if any. *)
Definition targetOf (targets : list (Z * Rectangle)) (id : Z) : option Rectangle :=
  snd <$> List.find (fun p => Z.eqb (fst p) id) targets.

(** ** The builder on a root of its own *)

(** The right-leaning chain the builder makes of a tile [first] and the
    windows that follow it, the next of them at insertion index [index]. *)
Fixpoint chainTree (workArea : Rectangle) (index : nat) (first : Z)
  (rest : list Window) : Node :=
  match rest with
  | [] => Node.leaf (PTile (Tile.new first))
  | window :: rest0 =>
      Node.mk (PContainer (Container.new (initSplit index workArea)))
        (Some (Node.leaf (PTile (Tile.new first))))
        (Some (chainTree workArea (S index) (get_id window) rest0))
  end.

(** The tree of a slot built from [windows] on a root no other slot holds. *)
Definition builtTree (workArea : Rectangle) (windows : list Window) : Node :=
  match windows with
  | [] => Node.leaf (PContainer (Container.new Horizontal))
  | window :: rest => chainTree workArea 1 (get_id window) rest
  end.

(** ** Scenarios: the concrete inputs the properties below are run on *)

Definition plainWindow (id : Z) (monitorIdx : nat) : Window :=
  {| get_id := id; minimized := false; get_monitor := monitorIdx;
     get_frame_type := NORMAL; title := Some "Terminal"%string |}.

Definition settingsOf (gapsIn gapsOut : Z) : ExtensionSettings :=
  {| general_gaps_in := ofZ gapsIn; general_gaps_out := ofZ gapsOut |}.

(** A desktop of [monitors] monitors, all with the raw work area [raw], the
    first one current, and the first workspace active. *)
Definition desktop (monitors : nat) (raw : Rectangle)
  (windows : list (list Window)) (settings : ExtensionSettings) : DesktopManager :=
  {| host := {| get_n_monitors := monitors;
                get_current_monitor := 0;
                workspaces := windows;
                active_workspace := 0;
                get_work_area_for_monitor := fun _ => raw |};
     userPreferences := UserPreferences settings |}.

Definition area1000x600 : Rectangle := Rectangle.ofZ 0 0 1000 600.
Definition area600x1000 : Rectangle := Rectangle.ofZ 0 0 600 1000.
Definition area1920x1080 : Rectangle := Rectangle.ofZ 0 0 1920 1080.

(** Every frame at [r], no call made yet. *)
Definition screenAt (r : Rectangle) : Screen :=
  {| frame_rect := fun _ => r; calls := [] |}.

Definition tileLeaf (id : Z) : Node := Node.leaf (PTile (Tile.new id)).

(** Two windows side by side. *)
Definition sideBySide : Node :=
  Node.mk (PContainer (Container.new Vertical))
    (Some (tileLeaf 1)) (Some (tileLeaf 2)).


(** ** Notions for the further properties *)

(** The root of a slot without windows, as the code makes it: the tree and
    the object on the heap. *)
Definition emptySlot : Node := Node.leaf (PContainer (Container.new Horizontal)).

Definition emptyRoot : HNode.t :=
  HNode.mk (PContainer (Container.new Horizontal)) None None.

(** No container of the tree has a constraint. *)
Fixpoint unconstrained (n : Node) : bool :=
  match n with
  | Node.mk d l r =>
      match d with
      | PContainer c =>
          match Container.constraint c with None => true | Some _ => false end
      | PTile _ => true
      end
      && match l with Some l0 => unconstrained l0 | None => true end
      && match r with Some r0 => unconstrained r0 | None => true end
  end.


(** The area of a rectangle, and of the rectangles of a list of
    assignments together. *)
Definition area (r : Rectangle) : number :=
  Rectangle.width r * Rectangle.height r.




(** The windows [autotile] looks its tiles up in. *)
Definition autotileWindows (dm : DesktopManager) : list Window :=
  List.filter (eligible (get_current_monitor (host dm)))
    (default [] (workspaces (host dm) !! active_workspace (host dm))).

(** The window a host call is made on. *)
Definition callTarget (c : HostCall) : Z :=
  match c with
  | Unmaximize id | MoveFrame id _ _ | MoveResizeFrame id _ _ _ _ | Ease id => id
  end.

(** A desktop of one monitor, with the first workspace active. *)
Definition oneMonitor (dm : DesktopManager) : Prop :=
  get_n_monitors (host dm) = 1%nat /\
  get_current_monitor (host dm) = 0%nat /\
  active_workspace (host dm) = 0%nat.

(** What [#fit] asks of the host for the window [id], whose frame is
    [frame], and the rectangle [r]: nothing when the frame is at the
    rectangle, and else [unmaximize], [move_frame], [move_resize_frame] and
    the transition, at the rectangle less the spacing. *)
Definition requests (dm : DesktopManager) (frame : Rectangle) (id : Z)
  (r : Rectangle) : list HostCall :=
  if Rectangle.eqb frame r then []
  else
    let spacing := getSpacing (userPreferences dm) in
    let x := Rectangle.x r + spacing in
    let y := Rectangle.y r + spacing in
    [Unmaximize id; MoveFrame id x y;
     MoveResizeFrame id x y (Rectangle.width r - spacing * ofZ 2)
       (Rectangle.height r - spacing * ofZ 2);
     Ease id].

(** The calls of the walk over a list of assignments, read off the frames
    before the walk. *)
Definition requestsAll (dm : DesktopManager) (st : Screen)
  (targets : list (Z * Rectangle)) : list HostCall :=
  concat (map (fun p => requests dm (frame_rect st (fst p)) (fst p) (snd p)) targets).

(** Every frame at the rectangle [targets] assigns to its window, and at
    [other] for the windows it assigns none. *)
Definition screenOf (targets : list (Z * Rectangle)) (other : Rectangle) : Screen :=
  {| frame_rect := fun id => default other (targetOf targets id); calls := [] |}.

(** ** Notions for the placement of the tiles *)



(** ** core/DesktopManager.ts: removal and insertion on the objects

    [removeId] and [pushTree] change the objects of a tree in place.  The
    functions above give the tree that results; the ones below work on the
    heap of the objects, as the code does. *)

(** [heap[ref]], a [TypeError] when there is no such object. *)
Definition deref (h : Heap) (ref : option nat) : result HNode.t :=
  match ref with
  | Some r => orThrow TypeError (h !! r)
  | None => Throw TypeError
  end.

(** The two child slots of an object. *)
Inductive Side := Left | Right.

Definition child (s : Side) (n : HNode.t) : option nat :=
  match s with Left => HNode.left n | Right => HNode.right n end.

Definition withChild (s : Side) (n : HNode.t) (v : option nat) : HNode.t :=
  match s with
  | Left => HNode.mk (HNode.data n) v (HNode.right n)
  | Right => HNode.mk (HNode.data n) (HNode.left n) v
  end.

(** [o.left = v] or [o.right = v], and [o.data = d], on the object at
    [ref]. *)
Definition setChild (s : Side) (h : Heap) (ref : nat) (v : option nat) : Heap :=
  match h !! ref with
  | Some n => <[ref := withChild s n v]> h
  | None => h
  end.

Definition setData (h : Heap) (ref : nat) (d : Payload) : Heap :=
  match h !! ref with
  | Some n => <[ref := HNode.mk d (HNode.left n) (HNode.right n)]> h
  | None => h
  end.

Definition isContainerH (n : HNode.t) : bool :=
  match HNode.data n with PContainer _ => true | PTile _ => false end.

Definition isTileWithIdH (n : HNode.t) (id : Z) : bool :=
  match HNode.data n with PTile t => Z.eqb (Tile.id t) id | PContainer _ => false end.

(** [if (tree.left.data instanceof Container) tree.left = removeId(tree.left,
    id)], and the same on the right; [rec] is the recursive call. *)
Definition removeBelow (rec : Heap -> nat -> result (Heap * nat)) (s : Side)
  (h : Heap) (tree : nat) : result Heap :=
  node <- deref h (Some tree) ;;
  below <- deref h (child s node) ;;
  if isContainerH below
  then
    match child s node with
    | Some c => r <- rec h c ;; Ok (setChild s (fst r) tree (Some (snd r)))
    | None => Throw TypeError
    end
  else Ok h.

(** [removeId] on the objects themselves: it changes them in place and
    returns the reference it returns, with the heap.  The block of a
    container with both children either returns one of the children
    ([Some]) or falls through to the end of the function ([None]).  [fuel]
    bounds the depth of the recursion, which is the height of the tree when
    no object is its own descendant. *)
Fixpoint removeIdH (fuel : nat) (h : Heap) (tree : nat) (id : Z)
  : result (Heap * nat) :=
  match fuel with
  | O => Throw RangeError
  | S fuel0 =>
      node <- deref h (Some tree) ;;
      s <-
        match HNode.data node, HNode.left node, HNode.right node with
        | PContainer _, Some _, Some _ =>
            h1 <- removeBelow (fun h0 r => removeIdH fuel0 h0 r id) Left h tree ;;
            h2 <- removeBelow (fun h0 r => removeIdH fuel0 h0 r id) Right h1 tree ;;
            node2 <- deref h2 (Some tree) ;;
            lnode <- deref h2 (HNode.left node2) ;;
            if isTileWithIdH lnode id
            then Ok (h2, Some (HNode.right node2))
            else
              rnode <- deref h2 (HNode.right node2) ;;
              if isTileWithIdH rnode id
              then Ok (h2, Some (HNode.left node2))
              else Ok (h2, None)
        | _, _, _ => Ok (h, None)
        end ;;
      match snd s with
      | Some returned =>
          (* [return tree.right] or [return tree.left] *)
          r <- orThrow TypeError returned ;; Ok (fst s, r)
      | None =>
          node3 <- deref (fst s) (Some tree) ;;
          if isTileWithIdH node3 id
          then Ok (setData (fst s) tree (PContainer (Container.new Horizontal)), tree)
          else Ok (fst s, tree)
      end
  end.

(** The height of a tree: the depth the recursion over it reaches. *)
Fixpoint height (t : Node) : nat :=
  match t with
  | Node.mk _ l r =>
      S (Nat.max (match l with Some l0 => height l0 | None => 0 end)
                 (match r with Some r0 => height r0 | None => 0 end))
  end.

(** The object at [ref] and the objects below it are the tree [t], and [fp]
    lists their references, the root first. *)
Fixpoint Rep (h : Heap) (t : Node) (ref : nat) (fp : list nat) {struct t} : Prop :=
  match t with
  | Node.mk d tl tr =>
      exists ol or fl fr,
        h !! ref = Some (HNode.mk d ol or) /\
        fp = ref :: fl ++ fr /\
        match tl, ol with
        | Some t0, Some a => Rep h t0 a fl
        | None, None => fl = []
        | _, _ => False
        end /\
        match tr, or with
        | Some t0, Some a => Rep h t0 a fr
        | None, None => fr = []
        | _, _ => False
        end
  end.

(** The tree at [ref] shares no object: [fp] names every object once. *)
Definition Owned (h : Heap) (t : Node) (ref : nat) (fp : list nat) : Prop :=
  Rep h t ref fp /\ NoDup fp.

(** [tree.data = container; tree.left = { data: a }; tree.right = { data: b }]
    on the object at [tree]. *)
Definition splitTile (h : Heap) (tree : nat) (container : Container)
  (a b : Payload) : Heap :=
  let h1 := setData h tree (PContainer container) in
  let '(h2, l) := alloc h1 (HNode.leafOf a) in
  let h3 := setChild Left h2 tree (Some l) in
  let '(h4, r) := alloc h3 (HNode.leafOf b) in
  setChild Right h4 tree (Some r).

(** [pushTree] on the objects themselves.  The right child is read after the
    call on the left child has returned. *)
Fixpoint pushTreeH (fuel : nat) (dm : DesktopManager) (h : Heap) (tree : nat)
  (point : Point) (newTile : Tile) (workArea0 : option Rectangle)
  : result Heap :=
  match fuel with
  | O => Throw RangeError
  | S fuel0 =>
      let workArea :=
        match workArea0 with
        | Some w => w
        | None => workArea dm (get_current_monitor (host dm))
        end in
      if negb (pointInRectangle point workArea) then Ok h else
      node <- deref h (Some tree) ;;
      match HNode.data node, HNode.left node, HNode.right node with
      | PContainer _, None, None => Ok (setData h tree (PTile newTile))
      | PTile temp, _, _ =>
          if negb (pointInRectangle point workArea) then Ok h else
          let s := splitArea workArea None in
          if pointInRectangle point (SplitResult.left s)
          then Ok (splitTile h tree (SplitResult.container s) (PTile newTile) (PTile temp))
          else Ok (splitTile h tree (SplitResult.container s) (PTile temp) (PTile newTile))
      | PContainer c, Some l, Some _ =>
          let s := splitArea workArea (Some c) in
          h1 <- pushTreeH fuel0 dm h l point newTile (Some (SplitResult.left s)) ;;
          node1 <- deref h1 (Some tree) ;;
          match HNode.right node1 with
          | Some r => pushTreeH fuel0 dm h1 r point newTile (Some (SplitResult.right s))
          | None =>
              if negb (pointInRectangle point (SplitResult.right s))
              then Ok h1 else Throw TypeError
          end
      | _, _, _ => Throw NotHandled
      end
  end.

(** ** core/App.ts: the handlers of the window events *)

(** [Meta.WindowType] *)
Module WindowType.
Inductive t :=
| NORMAL | DESKTOP | DOCK | DIALOG | MODAL_DIALOG | TOOLBAR | MENU | UTILITY
| SPLASHSCREEN | DROPDOWN_MENU | POPUP_MENU | TOOLTIP | NOTIFICATION | COMBO
| DND | OVERRIDE_OTHER.
End WindowType.

Module App.

(** [this.#tree[currentWorkspace.index()][display.get_current_monitor()]];
    every use of a slot that is not there ends in a [TypeError]. *)
Definition currentSlot (dm : DesktopManager) (f : Forest.t) : result nat :=
  row <- orThrow TypeError (Forest.tree f !! active_workspace (host dm)) ;;
  orThrow TypeError (row !! get_current_monitor (host dm)).

(** [#pushTree(display, window, tile)]; [windowType] is [window.windowType]
    and [pointer] is what [Shell.Global.get().get_pointer()] gives.  The
    walks get fuel for as many steps as the heap has objects, which is more
    than a tree without a cycle is high. *)
Definition pushTree (dm : DesktopManager) (f : Forest.t)
  (windowType : WindowType.t) (pointer : Point) (tile : Tile)
  : result Forest.t :=
  match windowType with
  | WindowType.NORMAL =>
      root <- currentSlot dm f ;;
      h1 <- pushTreeH (length (Forest.heap f)) dm (Forest.heap f) root
              pointer tile None ;;
      slot <- orThrow RangeError (snapshot h1 root) ;;
      sc1 <- autotile dm slot (Forest.screen f) ;;
      Ok (Forest.mk (Forest.tree f) h1 sc1)
  | _ => Ok f
  end.

(** [#popTree(display, window)]; [id] is [window.get_id()].  The slot is
    assigned what [removeId] returns, and [autotile] reads the slot again. *)
Definition popTree (dm : DesktopManager) (f : Forest.t)
  (windowType : WindowType.t) (id : Z) : result Forest.t :=
  match windowType with
  | WindowType.NORMAL =>
      row <- orThrow TypeError (Forest.tree f !! active_workspace (host dm)) ;;
      root <- orThrow TypeError (row !! get_current_monitor (host dm)) ;;
      r <- removeIdH (length (Forest.heap f)) (Forest.heap f) root id ;;
      let tree1 :=
        <[active_workspace (host dm) :=
            <[get_current_monitor (host dm) := snd r]> row]> (Forest.tree f) in
      slot <- orThrow RangeError (snapshot (fst r) (snd r)) ;;
      sc1 <- autotile dm slot (Forest.screen f) ;;
      Ok (Forest.mk tree1 (fst r) sc1)
  | _ => Ok f
  end.

End App.

(** The slot of the active workspace and the current monitor holds the
    reference [root]. *)
Definition currentRoot (dm : DesktopManager) (f : Forest.t) (root : nat) : Prop :=
  exists row,
    Forest.tree f !! active_workspace (host dm) = Some row /\
    row !! get_current_monitor (host dm) = Some root.

(** The objects of [sideBySide], the root first, and a forest of one slot
    that holds them. *)
Definition sideBySideHeap : Heap :=
  [HNode.mk (PContainer (Container.new Vertical)) (Some 1%nat) (Some 2%nat);
   HNode.leafOf (PTile (Tile.new 1)); HNode.leafOf (PTile (Tile.new 2))].

Definition sideBySideForest : Forest.t :=
  Forest.mk [[0%nat]] sideBySideHeap (screenAt area1000x600).

(** One monitor and one workspace with the windows 1, 2 and 3. *)
Definition threeWindows : DesktopManager :=
  desktop 1 area1000x600
    [[plainWindow 1 0; plainWindow 2 0; plainWindow 3 0]] (settingsOf 0 0).

(** What the correctness of [removeIdH] says of one tree. *)
Definition removeIdH_spec (id : Z) (t : Node) : Prop :=
  forall fuel h ref fp,
    (height t <= fuel)%nat -> Rep h t ref fp -> NoDup fp ->
    exists h1 ref1 fp1,
      removeIdH fuel h ref id = Ok (h1, ref1) /\
      Rep h1 (removeId t id) ref1 fp1 /\
      sublist fp1 fp /\
      (forall i, i ∉ fp -> h1 !! i = h !! i) /\
      length h1 = length h.

(** What the correctness of [pushTreeH] says of one tree. *)
Definition pushTreeH_spec (dm : DesktopManager) (point : Point) (newTile : Tile)
  (t : Node) : Prop :=
  forall fuel h ref fp workArea0,
    (height t <= fuel)%nat -> Rep h t ref fp -> NoDup fp ->
    match pushTree dm t point newTile workArea0 with
    | Ok t1 =>
        exists h1 fp1,
          pushTreeH fuel dm h ref point newTile workArea0 = Ok h1 /\
          Rep h1 t1 ref fp1 /\ NoDup fp1 /\
          (forall i, i ∈ fp1 -> i ∈ fp \/ (length h <= i)%nat) /\
          (forall i, (i < length h)%nat -> i ∉ fp -> h1 !! i = h !! i) /\
          (length h <= length h1)%nat
    | Throw e => pushTreeH fuel dm h ref point newTile workArea0 = Throw e
    end.

(** ** Notions for the forest of one monitor *)

(** The tree of the slot of a workspace on monitor [monitorIdx]. *)
Definition slotTree (dm : DesktopManager) (monitorIdx : nat)
  (workspace : list Window) : Node :=
  builtTree (workArea dm monitorIdx) (List.filter (eligible monitorIdx) workspace).

(** [autotile] on the trees of the workspaces, one after the other. *)
Fixpoint fitSlots (dm : DesktopManager) (monitorIdx : nat)
  (workspaces : list (list Window)) (sc : Screen) : result Screen :=
  match workspaces with
  | [] => Ok sc
  | workspace :: rest =>
      sc1 <- autotile dm (slotTree dm monitorIdx workspace) sc ;;
      fitSlots dm monitorIdx rest sc1
  end.

(** The slots of the first [k] workspaces of a forest of one monitor are
    built, each of objects of its own, and the others are empty. *)
Definition builtUpTo (dm : DesktopManager) (k : nat) (h : Heap)
  (fps : nat -> list nat) : Prop :=
  let n := length (workspaces (host dm)) in
  (forall w, (k <= w < n)%nat -> h !! w = Some emptyRoot) /\
  (forall w workspace,
     (w < k)%nat -> workspaces (host dm) !! w = Some workspace ->
     Owned h (slotTree dm 0 workspace) w (fps w) /\
     forall i, i ∈ fps w -> i = w \/ (n <= i)%nat) /\
  (forall w w', (w < k)%nat -> (w' < k)%nat -> w <> w' ->
                forall i, i ∈ fps w -> i ∉ fps w').

(** One monitor and two workspaces, the second of them active.  The windows
    1 and 2 are on both workspaces, the window 3 on the second alone. *)
Definition twoWorkspaces : DesktopManager :=
  {| host := {| get_n_monitors := 1;
                get_current_monitor := 0;
                workspaces := [[plainWindow 1 0; plainWindow 2 0];
                               [plainWindow 1 0; plainWindow 2 0; plainWindow 3 0]];
                active_workspace := 1;
                get_work_area_for_monitor := fun _ => area1000x600 |};
     userPreferences := UserPreferences (settingsOf 0 0) |}.

(** The same, with the window 4 in place of 2 on the first workspace. *)
Definition strayWindow : DesktopManager :=
  {| host := {| get_n_monitors := 1;
                get_current_monitor := 0;
                workspaces := [[plainWindow 1 0; plainWindow 4 0];
                               [plainWindow 1 0; plainWindow 2 0; plainWindow 3 0]];
                active_workspace := 1;
                get_work_area_for_monitor := fun _ => area1000x600 |};
     userPreferences := UserPreferences (settingsOf 0 0) |}.

(** ** core/DesktopManager.ts in double precision

    A JavaScript number is an IEEE 754 binary64 value, and [+], [-] and [/]
    round to the nearest double.  The rationals above are what the doubles
    give as long as no operation rounds.  For the inputs where one does, the
    definitions below repeat the point test, the area-split helper and the
    insertion with the operations of binary64 ([SpecFloat]). *)

Module Double.

Definition number := spec_float.

Definition prec : Z := 53.
Definition emax : Z := 1024.

(** [a + b], [a - b] and [a / b], rounded to the nearest double, ties to
    even. *)
Definition add : number -> number -> number := SFadd prec emax.
Definition sub : number -> number -> number := SFsub prec emax.
Definition div : number -> number -> number := SFdiv prec emax.

(** The double nearest to a whole number. *)
Definition ofZ (z : Z) : number := binary_normalize prec emax z 0 false.

(** [a <= b], [a >= b], [a < b] and [a > b]: all false when a side is
    [NaN]. *)
Definition leb (a b : number) : bool := SFleb a b.
Definition geb (a b : number) : bool := SFleb b a.
Definition ltb (a b : number) : bool := SFltb a b.
Definition gtb (a b : number) : bool := SFltb b a.

(** The whole number a double stands for, when it stands for one. *)
Definition toZ (a : number) : option Z :=
  match a with
  | S754_zero _ => Some 0%Z
  | S754_finite s m e =>
      let v := if s then Z.neg m else Z.pos m in
      if (0 <=? e)%Z then Some (v * 2 ^ e)%Z
      else if (v mod 2 ^ (- e) =? 0)%Z then Some (v / 2 ^ (- e))%Z
      else None
  | _ => None
  end.

Module Rectangle.
Record t := mk { x : number; y : number; width : number; height : number }.

Definition get (r : t) (k : Rectangle.key) : number :=
  match k with
  | Rectangle.X => x r
  | Rectangle.Y => y r
  | Rectangle.Width => width r
  | Rectangle.Height => height r
  end.

Definition set (r : t) (k : Rectangle.key) (v : number) : t :=
  match k with
  | Rectangle.X => mk v (y r) (width r) (height r)
  | Rectangle.Y => mk (x r) v (width r) (height r)
  | Rectangle.Width => mk (x r) (y r) v (height r)
  | Rectangle.Height => mk (x r) (y r) (width r) v
  end.

Definition ofZ (x0 y0 w h : Z) : t := mk (ofZ x0) (ofZ y0) (ofZ w) (ofZ h).
End Rectangle.

Module Point.
Record t := mk { x : number; y : number }.
End Point.

Module Container.
Record t := mk { split : Split; constraint : option number }.
Definition new (s : Split) : t := mk s None.
End Container.

Inductive Payload :=
| PTile (t : Tile)
| PContainer (c : Container.t).

Module Node.
Inductive t := mk { data : Payload; left : option t; right : option t }.
Definition leaf (d : Payload) : t := mk d None None.
End Node.

(** [#pointInRectangle] *)
Definition pointInRectangle (point : Point.t) (rectangle : Rectangle.t) : bool :=
  geb (Point.x point) (Rectangle.x rectangle) &&
  leb (Point.x point) (add (Rectangle.x rectangle) (Rectangle.width rectangle)) &&
  geb (Point.y point) (Rectangle.y rectangle) &&
  leb (Point.y point) (add (Rectangle.y rectangle) (Rectangle.height rectangle)).

(** Truthiness of [container.constraint]: [undefined], [0], [-0] and [NaN]
    are falsy. *)
Definition truthy (c : option number) : bool :=
  match c with
  | Some (S754_zero _) | Some S754_nan | None => false
  | Some _ => true
  end.

Module SplitResult.
Record t := mk { left : Rectangle.t; right : Rectangle.t; container : Container.t }.
End SplitResult.

(** [#splitArea(area, container?)] *)
Definition splitArea (area : Rectangle.t) (container : option Container.t)
  : SplitResult.t :=
  let leftArea := area in
  let rightArea := area in
  let container :=
    match container with
    | Some c => c
    | None =>
        Container.new
          (if gtb (Rectangle.height area) (Rectangle.width area)
           then Horizontal else Vertical)
    end in
  let dimension := dimensionOf (Container.split container) in
  let position := positionOf (Container.split container) in
  if truthy (Container.constraint container) then
    let constraint :=
      match Container.constraint container with Some v => v | None => ofZ 0 end in
    let leftArea := Rectangle.set leftArea dimension constraint in
    let rightArea :=
      Rectangle.set rightArea dimension
        (sub (Rectangle.get area dimension) constraint) in
    let rightArea :=
      Rectangle.set rightArea position
        (add (Rectangle.get rightArea position) constraint) in
    SplitResult.mk leftArea rightArea container
  else
    let half := div (Rectangle.get area dimension) (ofZ 2) in
    let leftArea := Rectangle.set leftArea dimension half in
    let rightArea := Rectangle.set rightArea dimension half in
    let rightArea :=
      Rectangle.set rightArea position (add (Rectangle.get rightArea position) half) in
    SplitResult.mk leftArea rightArea container.

(** [pushTree(tree, point, newTile, workArea?)]; [current] is what
    [this.workArea(this.#display.get_current_monitor())] returns. *)
Fixpoint pushTree (current : Rectangle.t) (tree : Node.t) (point : Point.t)
  (newTile : Tile) (workArea0 : option Rectangle.t) {struct tree}
  : result Node.t :=
  let workArea := match workArea0 with Some w => w | None => current end in
  if negb (pointInRectangle point workArea) then Ok tree else
  match tree with
  | Node.mk (PContainer _) None None =>
      Ok (Node.mk (PTile newTile) None None)
  | Node.mk (PTile temp) _ _ =>
      if negb (pointInRectangle point workArea) then Ok tree else
      let s := splitArea workArea None in
      if pointInRectangle point (SplitResult.left s) then
        Ok (Node.mk (PContainer (SplitResult.container s))
              (Some (Node.leaf (PTile newTile))) (Some (Node.leaf (PTile temp))))
      else
        Ok (Node.mk (PContainer (SplitResult.container s))
              (Some (Node.leaf (PTile temp))) (Some (Node.leaf (PTile newTile))))
  | Node.mk (PContainer c) (Some l) (Some r) =>
      let s := splitArea workArea (Some c) in
      l1 <- pushTree current l point newTile (Some (SplitResult.left s)) ;;
      r1 <- pushTree current r point newTile (Some (SplitResult.right s)) ;;
      Ok (Node.mk (PContainer c) (Some l1) (Some r1))
  | _ => Throw NotHandled
  end.

(** A point strictly outside a rectangle whose right and lower edges are
    the sums [x + width] and [y + height] as the doubles give them. *)
Definition outside (point : Point.t) (rectangle : Rectangle.t) : Prop :=
  ltb (Point.x point) (Rectangle.x rectangle) = true \/
  ltb (add (Rectangle.x rectangle) (Rectangle.width rectangle)) (Point.x point) = true \/
  ltb (Point.y point) (Rectangle.y rectangle) = true \/
  ltb (add (Rectangle.y rectangle) (Rectangle.height rectangle)) (Point.y point) = true.

End Double.

(** * Properties *)

(** ** Numbers and rectangles *)

Lemma num_eqb_eq (a b : number) : num_eqb a b = true <-> a = b.
Proof.
  unfold num_eqb. rewrite Qeq_bool_iff. split.
  - apply Qc_is_canon.
  - intros ->. reflexivity.
Qed.

Lemma num_leb_le (a b : number) : num_leb a b = true <-> a <= b.
Proof. unfold num_leb, Qcle. apply Qle_bool_iff. Qed.

Lemma num_leb_gt (a b : number) : num_leb a b = false <-> b < a.
Proof.
  unfold num_leb, Qclt. rewrite <- not_true_iff_false, Qle_bool_iff.
  split; [apply Qnot_le_lt | apply Qlt_not_le].
Qed.

Lemma two_is_one_plus_one : ofZ 2 = 1 + 1.
Proof. apply Qc_is_canon. reflexivity. Qed.


Lemma Rectangle_eqb_eq (a b : Rectangle) : Rectangle.eqb a b = true <-> a = b.
Proof.
  unfold Rectangle.eqb. rewrite !andb_true_iff, !num_eqb_eq.
  destruct a, b; simpl. split.
  - intros [[[-> ->] ->] ->]. reflexivity.
  - intros [= -> -> -> ->]. repeat split.
Qed.

(** Closes a goal that equates two rectangles given by their numbers. *)
Ltac rectangle_eq := apply Rectangle_eqb_eq; vm_compute; reflexivity.


Lemma Math_clamp_clampedTo (v hi : number) :
  0 <= hi -> clampedTo v hi (Math_clamp v 0 hi).
Proof.
  intros Hhi. unfold clampedTo, Math_clamp, Math_max, Math_min.
  assert (Habs : forall a b : number, a < b -> b <= a -> False)
    by (intros a b Hlt Hle; exact (Qclt_not_le _ _ Hlt Hle)).
  destruct (num_leb v 0) eqn:Hv0.
  - apply num_leb_le in Hhi as Hhi'. rewrite Hhi'.
    apply num_leb_le in Hv0.
    split; [split; [apply Qcle_refl | exact Hhi] |].
    split; [reflexivity |].
    split.
    + intros Hlt. exfalso. apply (Habs _ _ Hlt).
      apply Qcle_trans with 0; assumption.
    + intros [H0 _]. apply Qcle_antisym; assumption.
  - apply num_leb_gt in Hv0.
    destruct (num_leb v hi) eqn:Hvh.
    + apply num_leb_le in Hvh.
      split; [split; [apply Qclt_le_weak; exact Hv0 | exact Hvh] |].
      split; [intros Hlt; exfalso; apply (Habs _ _ Hlt), Qclt_le_weak, Hv0 |].
      split; [intros Hlt; exfalso; exact (Habs _ _ Hlt Hvh) | reflexivity].
    + apply num_leb_gt in Hvh.
      split; [split; [exact Hhi | apply Qcle_refl] |].
      split; [intros Hlt; exfalso; apply (Habs _ _ Hlt), Qclt_le_weak, Hv0 |].
      split; [reflexivity |].
      intros [_ Hle]. exfalso. exact (Habs _ _ Hvh Hle).
Qed.

(** ** The area-split helper *)

(** C6: the area-split scenario.  The parent [{x:0, y:0, width:1000,
    height:600}] split [Vertical] without a constraint gives the halves
    [{0,0,500,600}] and [{500,0,500,600}]; with the constraint [300] it gives
    [{0,0,300,600}] and [{300,0,700,600}]. *)
Theorem splitArea_scenario :
  let bisect := splitArea area1000x600 (Some (Container.new Vertical)) in
  let fixed := splitArea area1000x600
                 (Some (Container.mk Vertical (Some (ofZ 300)))) in
  SplitResult.left bisect = Rectangle.ofZ 0 0 500 600 /\
  SplitResult.right bisect = Rectangle.ofZ 500 0 500 600 /\
  SplitResult.left fixed = Rectangle.ofZ 0 0 300 600 /\
  SplitResult.right fixed = Rectangle.ofZ 300 0 700 600.
Proof. cbv zeta. repeat split; rectangle_eq. Qed.



(** ** The work-area calculator *)

(** C7: every side of the inset is clamped to the interval from [0] to the
    floor of half the dimension, and every edge of the raw work area moves
    inward by the clamped inset less the spacing.  For the raw work area
    [{0,0,1920,1080}], an inset of [20] on every side and a spacing of [10]
    the result is [{10,10,1900,1060}]. *)
Theorem workArea_insets (prefs : UserPreferencesProvider) (raw : Rectangle) :
  let inset := getInset prefs in
  let spacing := getSpacing prefs in
  let halfW := Math_floor (Rectangle.width raw / ofZ 2) in
  let halfH := Math_floor (Rectangle.height raw / ofZ 2) in
  let top := Math_clamp (Inset.top inset) 0 halfH in
  let bottom := Math_clamp (Inset.bottom inset) 0 halfH in
  let left := Math_clamp (Inset.left inset) 0 halfW in
  let right := Math_clamp (Inset.right inset) 0 halfW in
  let r := workAreaOf prefs raw in
  (0 <= halfH ->
     clampedTo (Inset.top inset) halfH top /\
     clampedTo (Inset.bottom inset) halfH bottom) /\
  (0 <= halfW ->
     clampedTo (Inset.left inset) halfW left /\
     clampedTo (Inset.right inset) halfW right) /\
  Rectangle.x r = Rectangle.x raw + (left - spacing) /\
  Rectangle.y r = Rectangle.y raw + (top - spacing) /\
  Rectangle.x r + Rectangle.width r
    = Rectangle.x raw + Rectangle.width raw - (right - spacing) /\
  Rectangle.y r + Rectangle.height r
    = Rectangle.y raw + Rectangle.height raw - (bottom - spacing) /\
  workArea (desktop 1 area1920x1080 [] (settingsOf 10 20)) 0
    = Rectangle.ofZ 10 10 1900 1060.
Proof.
  cbv zeta.
  split; [intros H; split; apply Math_clamp_clampedTo; exact H |].
  split; [intros H; split; apply Math_clamp_clampedTo; exact H |].
  unfold workAreaOf. simpl.
  split; [reflexivity |]. split; [reflexivity |].
  split; [rewrite two_is_one_plus_one; ring |].
  split; [rewrite two_is_one_plus_one; ring |].
  rectangle_eq.
Qed.

(** ** Trees

    [Node] is nested through [option], so the induction principle is stated
    by hand: a property holds of a node when it holds of its children. *)

Lemma Node_induction (P : Node -> Prop) :
  (forall d l r,
      (forall l0, l = Some l0 -> P l0) ->
      (forall r0, r = Some r0 -> P r0) ->
      P (Node.mk d l r)) ->
  forall n, P n.
Proof.
  intros H. fix IH 1. intros [d [l|] [r|]]; apply H;
    try (intros ? [= <-]; apply IH); intros ? [=].
Qed.

(** The shapes of a node, with the ones [H] rules out dropped. *)
Ltac node_shapes d l r H :=
  destruct d as [?t|?c], l as [l|], r as [r|]; simpl in H; try discriminate.

Lemma populated_leaf (n : Node) :
  populated n = true -> isContainer n = false ->
  exists t, n = Node.leaf (PTile t).
Proof.
  destruct n as [d l r]. intros Hpop Hc. node_shapes d l r Hpop.
  eexists. reflexivity.
Qed.

Lemma populated_container (n : Node) :
  populated n = true -> isContainer n = true ->
  exists c l r, n = Node.mk (PContainer c) (Some l) (Some r) /\
                populated l = true /\ populated r = true.
Proof.
  destruct n as [d l r]. intros Hpop Hc. node_shapes d l r Hpop.
  apply andb_true_iff in Hpop as [Hl Hr]. eauto 6.
Qed.

Lemma populated_has_tile (n : Node) :
  populated n = true -> tileIds n <> [].
Proof.
  induction n as [d l r IHl IHr] using Node_induction.
  intros Hpop. node_shapes d l r Hpop. simpl.
  apply andb_true_iff in Hpop as [Hl Hr]. intros Hnil.
  apply app_eq_nil in Hnil as [Hnil _]. exact (IHl l eq_refl Hl Hnil).
Qed.

Lemma isTileWithId_elem (n : Node) (id : Z) :
  isTileWithId n id = true -> id ∈ tileIds n.
Proof.
  destruct n as [[t|c] l r]; unfold isTileWithId; simpl; try discriminate.
  intros ->%Z.eqb_eq. left.
Qed.

Lemma isTileWithId_absent (n : Node) (id : Z) :
  id ∉ tileIds n -> isTileWithId n id = false.
Proof.
  intros Hnotin. apply not_true_is_false. intros H.
  apply Hnotin, isTileWithId_elem, H.
Qed.

Lemma data_tile_elem (n : Node) (t : Tile) :
  Node.data n = PTile t -> Tile.id t ∈ tileIds n.
Proof. destruct n as [d l r]. simpl. intros ->. left. Qed.


Lemma valid_sideBySide : valid sideBySide.
Proof.
  split; [reflexivity |]. simpl. apply NoDup_cons. split.
  - intros H%list_elem_of_singleton. discriminate.
  - apply NoDup_singleton.
Qed.

(** ** Removal *)

Lemma filter_ne_absent (id : Z) (l : list Z) :
  id ∉ l -> filter (λ i, i ≠ id) l = l.
Proof.
  induction l as [|a l IH]; [reflexivity |].
  intros [Hne Hnotin]%not_elem_of_cons.
  rewrite filter_cons_True by congruence. f_equal. auto.
Qed.

Lemma filter_ne_length (id : Z) (l : list Z) :
  NoDup l -> id ∈ l -> S (length (filter (λ i, i ≠ id) l)) = length l.
Proof.
  induction 1 as [|a l Hnotin Hnd IH]; [intros []%elem_of_nil |].
  intros [-> | Hin]%elem_of_cons.
  - rewrite filter_cons_False by (intros H; apply H; reflexivity).
    rewrite filter_ne_absent by assumption. reflexivity.
  - rewrite filter_cons_True by (intros ->; contradiction).
    simpl. f_equal. auto.
Qed.

(** A child [c0] of a populated container after the recursive call that
    [removeId] makes on it when it is a container: either it is the tile to
    remove, and then it was a leaf all along, or its tiles are those of
    [c0] without [id]. *)
Lemma removeId_child (c0 : Node) (id : Z) :
  populated c0 = true ->
  (isContainer c0 = true ->
     populated (removeId c0 id) = true /\
     tileIds (removeId c0 id) = filter (λ i, i ≠ id) (tileIds c0)) ->
  let c1 := if isContainer c0 then removeId c0 id else c0 in
  populated c1 = true /\
  ((isTileWithId c1 id = true /\ tileIds c0 = [id]) \/
   (isTileWithId c1 id = false /\
    tileIds c1 = filter (λ i, i ≠ id) (tileIds c0))).
Proof.
  intros Hpop IH. cbv zeta. destruct (isContainer c0) eqn:Hc.
  - destruct (IH eq_refl) as [Hpop1 Hids]. split; [exact Hpop1 |].
    right. split; [| exact Hids].
    apply isTileWithId_absent. rewrite Hids.
    intros [Hne _]%list_elem_of_filter. contradiction.
  - split; [exact Hpop |].
    destruct (populated_leaf c0 Hpop Hc) as [t ->].
    unfold isTileWithId. simpl.
    destruct (Z.eqb_spec (Tile.id t) id) as [-> | Hne].
    + left. split; reflexivity.
    + right. split; [reflexivity |].
      rewrite filter_cons_True by assumption. reflexivity.
Qed.

(** On a populated container without a repeated identifier, [removeId]
    returns a populated tree whose tiles are the old ones without [id]. *)
Lemma removeId_populated (n : Node) (id : Z) :
  populated n = true -> NoDup (tileIds n) -> isContainer n = true ->
  populated (removeId n id) = true /\
  tileIds (removeId n id) = filter (λ i, i ≠ id) (tileIds n).
Proof.
  induction n as [d l r IHl IHr] using Node_induction.
  intros Hpop Hnd Hc.
  destruct (populated_container _ Hpop Hc)
    as (c & l0 & r0 & [= -> -> ->] & Hl & Hr).
  simpl in Hnd. apply NoDup_app in Hnd as (Hndl & Hdisj & Hndr).
  pose proof (removeId_child l0 id Hl (IHl l0 eq_refl Hl Hndl)) as [Hpl Hcl].
  pose proof (removeId_child r0 id Hr (IHr r0 eq_refl Hr Hndr)) as [Hpr Hcr].
  cbn [removeId].
  set (l1 := if isContainer l0 then removeId l0 id else l0) in *.
  set (r1 := if isContainer r0 then removeId r0 id else r0) in *.
  cbn [tileIds]. rewrite app_nil_l, filter_app.
  destruct Hcl as [[Htl Hidl] | [Htl Hidl]]; rewrite Htl.
  - (* the left child is the tile: the right child takes the place *)
    split; [exact Hpr |].
    assert (Hnotin : id ∉ tileIds r0) by (apply Hdisj; rewrite Hidl; left).
    destruct Hcr as [[_ Hidr] | [_ Hidr]].
    + exfalso. apply Hnotin. rewrite Hidr. left.
    + rewrite Hidr, Hidl.
      rewrite filter_cons_False by (intros H; apply H; reflexivity).
      reflexivity.
  - destruct Hcr as [[Htr Hidr] | [Htr Hidr]]; rewrite Htr.
    + (* the right child is the tile: the left child takes the place *)
      split; [exact Hpl |]. rewrite Hidl, Hidr.
      rewrite (filter_cons_False _ id []) by (intros H; apply H; reflexivity).
      rewrite filter_nil, app_nil_r. reflexivity.
    + (* neither is: the container stays, over the new children *)
      split; [simpl; rewrite Hpl, Hpr; reflexivity |].
      cbn [tileIds]. rewrite app_nil_l, Hidl, Hidr. reflexivity.
Qed.

Lemma removeId_absent (id : Z) (t : Node) :
  id ∉ tileIds t -> removeId t id = t.
Proof.
  induction t as [d l r IHl IHr] using Node_induction. intros Hnotin.
  pose proof (isTileWithId_absent _ _ Hnotin) as Hself.
  destruct d as [t|c]; [simpl; rewrite Hself; destruct l, r; reflexivity |].
  destruct l as [l|], r as [r|]; try (simpl; reflexivity).
  simpl in Hnotin. apply not_elem_of_app in Hnotin as [Hl Hr].
  cbn [removeId].
  rewrite (IHl l eq_refl Hl), (IHr r eq_refl Hr).
  destruct (isContainer l), (isContainer r);
    rewrite (isTileWithId_absent _ _ Hl), (isTileWithId_absent _ _ Hr);
    reflexivity.
Qed.

(** C3: removal.  On a valid tree that holds a tile [id], [removeId] returns
    a tree without [id] and with exactly one tile less; when [id] was the
    only tile the result is the empty container; and on every tree that does
    not hold [id] the result is the tree itself. *)
Theorem removeId_invariant (root : Node) (id : Z) :
  valid root ->
  (id ∈ tileIds root ->
     (id ∉ tileIds (removeId root id)) /\
     S (tileCount (removeId root id)) = tileCount root /\
     (tileIds root = [id] ->
        removeId root id = Node.leaf (PContainer (Container.new Horizontal)))) /\
  (forall t : Node, id ∉ tileIds t -> removeId t id = t).
Proof.
  intros [Hshape Hnd]. split; [| intros t; apply removeId_absent].
  intros Hin. apply orb_true_iff in Hshape as [Hpop | Hempty].
  - destruct (isContainer root) eqn:Hc.
    + destruct (removeId_populated root id Hpop Hnd Hc) as [Hpop1 Hids].
      unfold tileCount. rewrite Hids.
      split; [intros [Hne _]%list_elem_of_filter; apply Hne; reflexivity |].
      split; [apply filter_ne_length; assumption |].
      intros Hsole.
      destruct (populated_container _ Hpop Hc) as (c & l & r & -> & Hl & Hr).
      simpl in Hsole. apply populated_has_tile in Hl, Hr.
      destruct (tileIds l) as [|a [|b ql]], (tileIds r); simpl in Hsole;
        congruence.
    + destruct (populated_leaf root Hpop Hc) as [t ->].
      simpl in Hin. apply list_elem_of_singleton in Hin as ->.
      assert (Hself : isTileWithId (Node.leaf (PTile t)) (Tile.id t) = true)
        by apply Z.eqb_refl.
      unfold tileCount. simpl. unfold Node.leaf in Hself. rewrite Hself. simpl.
      split; [apply not_elem_of_nil |]. split; reflexivity.
  - destruct root as [[t|c] [l|] [r|]]; try discriminate.
    simpl in Hin. apply elem_of_nil in Hin as [].
Qed.

Lemma removeId_invariant_witness :
  (1%Z ∉ tileIds (removeId sideBySide 1)) /\
  S (tileCount (removeId sideBySide 1)) = tileCount sideBySide.
Proof.
  destruct (removeId_invariant sideBySide 1 valid_sideBySide) as [H _].
  destruct H as (Hgone & Hcount & _); [simpl; left |].
  split; assumption.
Defined.

(** X4: removal keeps a valid tree valid: the result is well shaped, the
    empty container at most at its root, and holds no identifier twice. *)
Theorem removeId_valid (root : Node) (id : Z) :
  valid root -> valid (removeId root id).
Proof.
  intros [Hshape Hnd]. apply orb_true_iff in Hshape as [Hpop | Hempty].
  - destruct (isContainer root) eqn:Hc.
    + destruct (removeId_populated root id Hpop Hnd Hc) as [Hpop1 Hids].
      split; [rewrite Hpop1; reflexivity |].
      rewrite Hids. apply NoDup_filter, Hnd.
    + destruct (populated_leaf root Hpop Hc) as [t ->].
      unfold Node.leaf. simpl. unfold isTileWithId. simpl.
      destruct (Z.eqb (Tile.id t) id).
      * split; [reflexivity | apply NoDup_nil_2].
      * split; [reflexivity | exact Hnd].
  - destruct root as [[t|c] [l|] [r|]]; try discriminate.
    split; [reflexivity | exact Hnd].
Qed.

Lemma removeId_valid_witness : valid (removeId sideBySide 1).
Proof. exact (removeId_valid sideBySide 1 valid_sideBySide). Defined.

(** ** Insertion *)

Lemma pushTree_not_inside (dm : DesktopManager) (tree : Node) (point : Point)
  (newTile : Tile) (workArea0 : option Rectangle) :
  pointInRectangle point (resolved dm workArea0) = false ->
  pushTree dm tree point newTile workArea0 = Ok tree.
Proof.
  intros Hout. destruct tree as [d l r], workArea0 as [w|];
    unfold resolved in Hout; simpl in *; rewrite Hout; reflexivity.
Qed.

(** A comparison of doubles that holds rules out the opposite one. *)
Lemma Double_ltb_not_leb (a b : Double.number) :
  Double.ltb a b = true -> Double.leb b a = false.
Proof.
  unfold Double.ltb, Double.leb, SFltb, SFleb.
  destruct a as [sa | sa | | sa ma ea], b as [sb | sb | | sb mb eb]; simpl;
    try discriminate; try (destruct sa; discriminate);
    try (destruct sb; discriminate);
    try (destruct sa, sb; (discriminate || reflexivity)).
  assert (Hanti : PosDef.Pos.compare_cont Eq mb ma
                  = CompOpp (PosDef.Pos.compare_cont Eq ma mb))
    by (symmetry; exact (Pos.compare_cont_antisym ma mb Eq)).
  destruct sa, sb; try discriminate; try reflexivity;
    rewrite (Z.compare_antisym ea eb);
    destruct (ea ?= eb)%Z; simpl; try discriminate; try reflexivity;
    rewrite Hanti;
    destruct (PosDef.Pos.compare_cont Eq ma mb); simpl;
    (discriminate || reflexivity).
Qed.

Lemma Double_pointInRectangle_outside (point : Double.Point.t)
  (rectangle : Double.Rectangle.t) :
  Double.outside point rectangle ->
  Double.pointInRectangle point rectangle = false.
Proof.
  unfold Double.outside, Double.pointInRectangle, Double.geb.
  intros [H | [H | [H | H]]]; apply Double_ltb_not_leb in H;
    unfold Double.leb in *; rewrite H; rewrite ?andb_false_r; reflexivity.
Qed.

(** C8: a push at a point strictly outside the work area is a no-op, the
    right and the lower edge of the area being where the code puts them: at
    the sums [x + width] and [y + height] as the doubles give them.  For
    every tree, well shaped or not, the call returns normally and the tree
    is the one it was given. *)
Theorem Double_pushTree_outside_noop (current : Double.Rectangle.t)
  (tree : Double.Node.t) (point : Double.Point.t) (newTile : Tile)
  (workArea0 : option Double.Rectangle.t) :
  Double.outside point (default current workArea0) ->
  Double.pushTree current tree point newTile workArea0 = Ok tree.
Proof.
  intros Hout. apply Double_pointInRectangle_outside in Hout.
  destruct tree as [d l r], workArea0 as [w|]; simpl in *; rewrite Hout;
    reflexivity.
Qed.

Lemma Double_pushTree_outside_noop_witness :
  Double.pushTree (Double.Rectangle.ofZ 0 0 1000 600)
    (Double.Node.leaf (Double.PTile (Tile.new 1)))
    (Double.Point.mk (Double.ofZ 1200) (Double.ofZ 300)) (Tile.new 3) None
  = Ok (Double.Node.leaf (Double.PTile (Tile.new 1))).
Proof.
  apply Double_pushTree_outside_noop.
  right. left. vm_compute. reflexivity.
Defined.

(** C8, where the claim as worded fails.  The work area is 4 wide from
    x = 2^53 - 1 and the point is at x = 2^53 + 4, one past the right edge
    2^53 + 3.  That edge is no double: the sum [x + width] rounds to
    2^53 + 4, the point passes the inclusive test, and the tile is split,
    although the point lies strictly outside the rectangle. *)
Lemma pushTree_outside_rounded_in :
  let area := Double.Rectangle.ofZ 9007199254740991 0 4 10 in
  let point := Double.Point.mk (Double.ofZ 9007199254740996) (Double.ofZ 5) in
  let tree := Double.Node.leaf (Double.PTile (Tile.new 1)) in
  (Double.toZ (Double.Rectangle.x area) = Some 9007199254740991%Z /\
   Double.toZ (Double.Rectangle.y area) = Some 0%Z /\
   Double.toZ (Double.Rectangle.width area) = Some 4%Z /\
   Double.toZ (Double.Rectangle.height area) = Some 10%Z /\
   Double.toZ (Double.Point.x point) = Some 9007199254740996%Z /\
   Double.toZ (Double.Point.y point) = Some 5%Z) /\
  (9007199254740991 + 4 < 9007199254740996)%Z /\
  Double.pushTree area tree point (Tile.new 2) (Some area)
  = Ok (Double.Node.mk (Double.PContainer (Double.Container.new Horizontal))
          (Some (Double.Node.leaf (Double.PTile (Tile.new 2))))
          (Some (Double.Node.leaf (Double.PTile (Tile.new 1))))) /\
  Double.pushTree area tree point (Tile.new 2) (Some area) <> Ok tree.
Proof.
  cbv zeta. split; [repeat split; vm_compute; reflexivity |].
  split; [reflexivity |]. split; [vm_compute; reflexivity |].
  intros H. vm_compute in H. discriminate H.
Qed.





(** C2: a push at a point on the line between the two children of a split.
    [#pointInRectangle] is inclusive on every side, so the point lies in the
    rectangle of both children and both recursive calls insert: the tree of
    two tiles has four afterwards, the new identifier twice.  The two tiles
    that were there are still there. *)
Theorem pushTree_on_boundary_inserts_twice :
  let dm := desktop 1 area1000x600 [] (settingsOf 0 0) in
  let point := Point.mk (ofZ 500) (ofZ 300) in
  let pushed :=
    Node.mk (PContainer (Container.new Vertical))
      (Some (Node.mk (PContainer (Container.new Horizontal))
               (Some (tileLeaf 3)) (Some (tileLeaf 1))))
      (Some (Node.mk (PContainer (Container.new Horizontal))
               (Some (tileLeaf 3)) (Some (tileLeaf 2)))) in
  valid sideBySide /\
  pointInRectangle point (workArea dm 0) = true /\
  pushTree dm sideBySide point (Tile.new 3) None = Ok pushed /\
  tileCount sideBySide = 2%nat /\
  tileCount pushed = 4%nat /\
  tileIds pushed = [3; 1; 3; 2]%Z.
Proof.
  cbv zeta. split; [exact valid_sideBySide |].
  repeat split; vm_compute; reflexivity.
Qed.

(** ** The fit walk *)

Section FitWalk.

Context (dm : DesktopManager) (windows : list Window).

Lemma findWindow_live (id : Z) :
  (exists w, w ∈ windows /\ get_id w = id) ->
  exists w, findWindow windows id = Some w.
Proof.
  intros (w & Hin & Hid). unfold findWindow.
  destruct (find _ windows) as [w'|] eqn:Hfind; [eauto |].
  apply list_elem_of_In in Hin.
  pose proof (find_none _ _ Hfind w Hin) as Hno. simpl in Hno.
  apply Z.eqb_neq in Hno. contradiction.
Qed.

Lemma findWindow_id (id : Z) (w : Window) :
  findWindow windows id = Some w -> get_id w = id.
Proof.
  unfold findWindow. intros H. apply find_some in H as [_ H].
  apply Z.eqb_eq. exact H.
Qed.

Lemma fit_found (w : Window) (r : Rectangle) (st : Screen) :
  exists st', fit dm (Some w) r st = Ok st'.
Proof. unfold fit. destruct (Rectangle.eqb _ r); eauto. Qed.

(** The walk treats a child that is a tile where it stands; that is what the
    recursive call on the child does. *)
Lemma fitTree_child (n : Node) (area : Rectangle) (st : Screen) :
  match Node.data n with
  | PTile t => fit dm (findWindow windows (Tile.id t)) area st
  | PContainer _ => fitTree dm n area windows st
  end = fitTree dm n area windows st.
Proof. destruct n as [[t|c] l r]; reflexivity. Qed.

Lemma fitTree_split (c : Container) (l r : Node) (area : Rectangle)
  (st : Screen) :
  fitTree dm (Node.mk (PContainer c) (Some l) (Some r)) area windows st
  = (st1 <- fitTree dm l (fst (childAreas area c)) windows st ;;
     fitTree dm r (snd (childAreas area c)) windows st1).
Proof.
  cbn [fitTree]. destruct (childAreas area c) as [la ra].
  rewrite fitTree_child. cbn [fst snd].
  destruct (fitTree dm l la windows st); simpl; [apply fitTree_child |].
  reflexivity.
Qed.

Lemma tilesLive_children (d : Payload) (l r : Node) :
  tilesLive (Node.mk d (Some l) (Some r)) windows ->
  tilesLive l windows /\ tilesLive r windows.
Proof.
  intros H. split; intros id Hin; apply H; simpl;
    rewrite !elem_of_app; auto.
Qed.

(** With every tile live, a lookup of the walk is never what raises. *)
Lemma fitTree_no_TypeError (tree : Node) :
  forall workArea st,
    tilesLive tree windows ->
    fitTree dm tree workArea windows st <> Throw TypeError.
Proof.
  induction tree as [d l r IHl IHr] using Node_induction.
  intros workArea st Hlive.
  destruct d as [t|c].
  - destruct (findWindow_live (Tile.id t)) as [w Hw]; [apply Hlive; left |].
    destruct (fit_found w workArea st) as [st' Hfit].
    simpl. rewrite Hw, Hfit. discriminate.
  - destruct l as [l|], r as [r|]; try (simpl; discriminate).
    apply tilesLive_children in Hlive as [Hl Hr].
    rewrite fitTree_split.
    pose proof (IHl l eq_refl (fst (childAreas workArea c)) st Hl) as Hleft.
    destruct (fitTree dm l _ windows st) as [st1|e]; simpl.
    + apply (IHr r eq_refl). exact Hr.
    + exact Hleft.
Qed.

(** With every tile live, the walk over a well-shaped tree returns. *)
Lemma fitTree_returns (tree : Node) :
  forall workArea st,
    tilesLive tree windows ->
    populated tree || isEmpty tree = true ->
    exists st', fitTree dm tree workArea windows st = Ok st'.
Proof.
  induction tree as [d l r IHl IHr] using Node_induction.
  intros workArea st Hlive Hshape.
  node_shapes d l r Hshape.
  - destruct (findWindow_live (Tile.id t)) as [w Hw]; [apply Hlive; left |].
    simpl. rewrite Hw. apply fit_found.
  - rewrite orb_false_r in Hshape. apply andb_true_iff in Hshape as [Hpl Hpr].
    apply tilesLive_children in Hlive as [Hl Hr].
    rewrite fitTree_split.
    destruct (IHl l eq_refl (fst (childAreas workArea c)) st Hl) as [st1 ->];
      [rewrite Hpl; reflexivity |].
    simpl. apply (IHr r eq_refl); [exact Hr | rewrite Hpr; reflexivity].
  - simpl. eauto.
Qed.

(** *** The walk as the list of its assignments *)

Lemma fitAll_app (l1 l2 : list (Z * Rectangle)) (st : Screen) :
  fitAll dm windows (l1 ++ l2) st
  = (st1 <- fitAll dm windows l1 st ;; fitAll dm windows l2 st1).
Proof.
  revert st. induction l1 as [|[id r] l1 IH]; intros st; [reflexivity |].
  simpl. destruct (fit dm _ r st); simpl; auto.
Qed.

Lemma fitTree_fitAll (tree : Node) :
  populated tree || isEmpty tree = true ->
  forall workArea st,
    fitTree dm tree workArea windows st
    = fitAll dm windows (assigned tree workArea) st.
Proof.
  induction tree as [d l r IHl IHr] using Node_induction.
  intros Hshape workArea st.
  node_shapes d l r Hshape.
  - simpl. destruct (fit dm _ workArea st); reflexivity.
  - rewrite orb_false_r in Hshape. apply andb_true_iff in Hshape as [Hl Hr].
    rewrite fitTree_split. cbn [assigned]. rewrite fitAll_app.
    rewrite (IHl l eq_refl) by (rewrite Hl; reflexivity).
    destruct (fitAll dm windows (assigned l _) st) as [st1|e]; simpl;
      [| reflexivity].
    apply (IHr r eq_refl). rewrite Hr. reflexivity.
  - reflexivity.
Qed.

Lemma assigned_ids (tree : Node) :
  populated tree || isEmpty tree = true ->
  forall workArea, (assigned tree workArea).*1 = tileIds tree.
Proof.
  induction tree as [d l r IHl IHr] using Node_induction.
  intros Hshape workArea.
  node_shapes d l r Hshape; try reflexivity.
  rewrite orb_false_r in Hshape. apply andb_true_iff in Hshape as [Hl Hr].
  simpl. rewrite fmap_app.
  rewrite (IHl l eq_refl), (IHr r eq_refl) by (rewrite ?Hl, ?Hr; reflexivity).
  reflexivity.
Qed.

(** The frames after one [#fit]: only the frame of the window changes. *)
Lemma fit_frames (id : Z) (r : Rectangle) (st st1 : Screen) :
  fit dm (findWindow windows id) r st = Ok st1 ->
  forall i,
    frame_rect st1 i
    = if Z.eqb i id
      then settle (getSpacing (userPreferences dm)) (frame_rect st id) r
      else frame_rect st i.
Proof.
  destruct (findWindow windows id) as [w|] eqn:Hfind; [| discriminate].
  apply findWindow_id in Hfind. unfold fit, settle. rewrite Hfind.
  destruct (Rectangle.eqb (frame_rect st id) r) eqn:Heq.
  - intros [= <-] i. destruct (Z.eqb_spec i id) as [-> |]; reflexivity.
  - intros [= <-] i. unfold moveResize. rewrite Hfind. simpl.
    destruct (Z.eqb i id); reflexivity.
Qed.

(** Whether [#fit] returns depends on the lookup alone. *)
Lemma fit_ok_any (id : Z) (r : Rectangle) (st st1 : Screen) :
  fit dm (findWindow windows id) r st = Ok st1 ->
  forall st2, exists st3, fit dm (findWindow windows id) r st2 = Ok st3.
Proof.
  destruct (findWindow windows id) as [w|]; [| discriminate].
  intros _ st2. apply fit_found.
Qed.

Lemma targetOf_absent (targets : list (Z * Rectangle)) (id : Z) :
  id ∉ targets.*1 -> targetOf targets id = None.
Proof.
  unfold targetOf. induction targets as [|[i r] l IH]; [reflexivity |].
  simpl. intros [Hne Hl]%not_elem_of_cons.
  destruct (Z.eqb_spec i id) as [-> |]; [contradiction | auto].
Qed.

Lemma fitAll_frames (targets : list (Z * Rectangle)) :
  NoDup targets.*1 ->
  forall st st1,
    fitAll dm windows targets st = Ok st1 ->
    forall i,
      frame_rect st1 i
      = match targetOf targets i with
        | Some r => settle (getSpacing (userPreferences dm)) (frame_rect st i) r
        | None => frame_rect st i
        end.
Proof.
  induction targets as [|[id r] l IH]; intros Hnd st st1 Hrun i.
  - injection Hrun as <-. reflexivity.
  - simpl in Hnd. apply NoDup_cons in Hnd as [Hfresh Hnd].
    simpl in Hrun.
    destruct (fit dm (findWindow windows id) r st) as [st0|e] eqn:Hfit;
      [| discriminate].
    simpl in Hrun. rewrite (IH Hnd _ _ Hrun i), !(fit_frames _ _ _ _ Hfit).
    unfold targetOf at 2. cbn [List.find fst]. rewrite (Z.eqb_sym id i).
    destruct (Z.eqb_spec i id) as [-> | Hne].
    + rewrite (targetOf_absent l id Hfresh). reflexivity.
    + reflexivity.
Qed.

Lemma fitAll_ok_any (targets : list (Z * Rectangle)) :
  forall st st1,
    fitAll dm windows targets st = Ok st1 ->
    forall st2, exists st3, fitAll dm windows targets st2 = Ok st3.
Proof.
  induction targets as [|[id r] l IH]; intros st st1 Hrun st2; [simpl; eauto |].
  simpl in *.
  destruct (fit dm (findWindow windows id) r st) as [st0|e] eqn:Hfit;
    [| discriminate].
  destruct (fit_ok_any _ _ _ _ Hfit st2) as [st3 ->]. simpl in *. eauto.
Qed.

Lemma settle_settle (spacing : number) (frame r : Rectangle) :
  settle spacing (settle spacing frame r) r = settle spacing frame r.
Proof.
  unfold settle. destruct (Rectangle.eqb frame r) eqn:H1.
  - rewrite H1. reflexivity.
  - match goal with |- (if ?b then _ else _) = _ => destruct b end;
      reflexivity.
Qed.

(** X2: fitting a valid tree a second time returns when the first pass
    did, and leaves the frame of every window where the first pass left
    it. *)
Theorem fitTree_twice_same_frames (tree : Node) (workArea : Rectangle)
  (st st1 : Screen) :
  valid tree ->
  fitTree dm tree workArea windows st = Ok st1 ->
  exists st2,
    fitTree dm tree workArea windows st1 = Ok st2 /\
    forall id, frame_rect st2 id = frame_rect st1 id.
Proof.
  intros [Hshape Hnd] Hrun.
  rewrite fitTree_fitAll in * by exact Hshape.
  rewrite <- (assigned_ids tree Hshape workArea) in Hnd.
  destruct (fitAll_ok_any _ _ _ Hrun st1) as [st2 Hrun2].
  exists st2. split; [exact Hrun2 |]. intros id.
  rewrite (fitAll_frames _ Hnd _ _ Hrun2 id).
  rewrite (fitAll_frames _ Hnd _ _ Hrun id).
  destruct (targetOf _ id); [apply settle_settle | reflexivity].
Qed.

End FitWalk.

Lemma fitTree_twice_same_frames_witness :
  let dm := desktop 1 area1000x600 [[plainWindow 1 0; plainWindow 2 0]]
              (settingsOf 10 20) in
  let windows := [plainWindow 1 0; plainWindow 2 0] in
  exists st1 st2,
    fitTree dm sideBySide area1000x600 windows (screenAt area1000x600) = Ok st1 /\
    fitTree dm sideBySide area1000x600 windows st1 = Ok st2 /\
    forall id, frame_rect st2 id = frame_rect st1 id.
Proof.
  cbv zeta.
  destruct (fitTree (desktop 1 area1000x600 [[plainWindow 1 0; plainWindow 2 0]]
                       (settingsOf 10 20))
              sideBySide area1000x600 [plainWindow 1 0; plainWindow 2 0]
              (screenAt area1000x600)) as [st1|e] eqn:Hrun;
    [| vm_compute in Hrun; discriminate Hrun].
  destruct (fitTree_twice_same_frames _ _ _ _ _ _ valid_sideBySide Hrun)
    as (st2 & Hrun2 & Hsame).
  exists st1, st2. split; [reflexivity |]. split; assumption.
Defined.

(** C9: when every identifier in the tree is the identifier of a window in
    the list, no lookup of the fit walk fails: the walk never raises the
    [TypeError] of a failed lookup, and on a well-shaped tree it returns.
    Without that, a tree of one tile and an empty window list make the
    lookup fail and the walk raise. *)
Theorem fitTree_lookups (dm : DesktopManager) :
  (forall tree workArea windows st,
     tilesLive tree windows ->
     fitTree dm tree workArea windows st <> Throw TypeError /\
     (populated tree || isEmpty tree = true ->
        exists st', fitTree dm tree workArea windows st = Ok st')) /\
  (exists tree workArea windows st,
     ~ tilesLive tree windows /\
     fitTree dm tree workArea windows st = Throw TypeError).
Proof.
  split.
  - intros tree workArea windows st Hlive. split.
    + apply fitTree_no_TypeError. exact Hlive.
    + apply fitTree_returns. exact Hlive.
  - exists (tileLeaf 1), area1000x600, [], (screenAt area1000x600).
    split; [| reflexivity].
    intros H. destruct (H 1%Z) as (w & Hin & _); [left |].
    apply elem_of_nil in Hin as [].
Qed.

Lemma fitTree_lookups_witness :
  let dm := desktop 1 area1000x600 [[plainWindow 1 0; plainWindow 2 0]]
              (settingsOf 10 20) in
  exists st',
    fitTree dm sideBySide area1000x600 [plainWindow 1 0; plainWindow 2 0]
      (screenAt area1000x600) = Ok st'.
Proof.
  cbv zeta.
  apply (proj1 (fitTree_lookups _)); [| reflexivity].
  intros id Hin. simpl in Hin.
  apply elem_of_cons in Hin as [-> | Hin].
  - exists (plainWindow 1 0). split; [left | reflexivity].
  - apply list_elem_of_singleton in Hin as ->.
    exists (plainWindow 2 0). split; [right; left | reflexivity].
Defined.

(** *** What the walk asks of the host *)

Section Requests.
Context (dm : DesktopManager) (windows : list Window).

Lemma fit_requests (id : Z) (r : Rectangle) (st st1 : Screen) :
  fit dm (findWindow windows id) r st = Ok st1 ->
  calls st1 = calls st ++ requests dm (frame_rect st id) id r.
Proof.
  destruct (findWindow windows id) as [w|] eqn:Hfind; [| discriminate].
  apply findWindow_id in Hfind. unfold fit, requests. rewrite Hfind.
  destruct (Rectangle.eqb (frame_rect st id) r).
  - intros [= <-]. rewrite app_nil_r. reflexivity.
  - intros [= <-]. unfold moveResize, logCall, setFrame. simpl.
    rewrite Hfind. rewrite <- !app_assoc. reflexivity.
Qed.

Lemma fitAll_requests (targets : list (Z * Rectangle)) :
  NoDup targets.*1 ->
  forall st st1,
    fitAll dm windows targets st = Ok st1 ->
    calls st1 = calls st ++ requestsAll dm st targets.
Proof.
  unfold requestsAll.
  induction targets as [|[id r] rest IH]; intros Hnd st st1 Hrun.
  - injection Hrun as <-. rewrite app_nil_r. reflexivity.
  - simpl in Hnd. apply NoDup_cons in Hnd as [Hfresh Hnd].
    cbn [fitAll] in Hrun.
    destruct (fit dm (findWindow windows id) r st) as [st'|e] eqn:Hfit;
      [| discriminate].
    cbn [bind] in Hrun.
    rewrite (IH Hnd st' st1 Hrun), (fit_requests _ _ _ _ Hfit).
    cbn [map concat fst snd]. rewrite <- app_assoc. do 2 f_equal.
    f_equal. apply map_ext_in. intros [i q] Hin. cbn [fst snd].
    rewrite (fit_frames dm windows _ _ _ _ Hfit i).
    destruct (Z.eqb_spec i id) as [-> |]; [| reflexivity].
    exfalso. apply Hfresh. apply list_elem_of_fmap. exists (id, q).
    split; [reflexivity | apply list_elem_of_In, Hin].
Qed.

End Requests.

(** C10: a constraint of [0] is falsy, so it is the same as no constraint.
    For every parent rectangle and orientation the area-split helper gives
    the two halves along the split dimension, the same rectangles as
    without a constraint.  The fit walk over a container with constraint
    [0] does as it does without one: it fits the tiles below the left child
    into the left half and the tiles below the right child into the right
    half, and of the windows of two tiles it asks these two halves, less
    the spacing. *)
Theorem constraint_zero_bisects (area : Rectangle) (s : Split) :
  let zero := Container.mk s (Some (ofZ 0)) in
  let absent := Container.new s in
  let half := Rectangle.get area (dimensionOf s) / ofZ 2 in
  let leftHalf := Rectangle.set area (dimensionOf s) half in
  let rightHalf :=
    Rectangle.set (Rectangle.set area (dimensionOf s) half) (positionOf s)
      (Rectangle.get area (positionOf s) + half) in
  SplitResult.left (splitArea area (Some zero)) = leftHalf /\
  SplitResult.right (splitArea area (Some zero)) = rightHalf /\
  SplitResult.left (splitArea area (Some zero))
    = SplitResult.left (splitArea area (Some absent)) /\
  SplitResult.right (splitArea area (Some zero))
    = SplitResult.right (splitArea area (Some absent)) /\
  (forall dm l r windows st,
     fitTree dm (Node.mk (PContainer zero) (Some l) (Some r)) area windows st
     = (st1 <- fitTree dm l leftHalf windows st ;;
        fitTree dm r rightHalf windows st1) /\
     fitTree dm (Node.mk (PContainer zero) (Some l) (Some r)) area windows st
     = fitTree dm (Node.mk (PContainer absent) (Some l) (Some r)) area windows st) /\
  (forall dm l r windows st,
     populated l = true -> populated r = true ->
     fitTree dm (Node.mk (PContainer zero) (Some l) (Some r)) area windows st
     = fitAll dm windows (assigned l leftHalf ++ assigned r rightHalf) st) /\
  (forall dm a b wa wb windows st,
     findWindow windows (Tile.id a) = Some wa ->
     findWindow windows (Tile.id b) = Some wb ->
     Tile.id a <> Tile.id b ->
     exists st1,
       fitTree dm (Node.mk (PContainer zero) (Some (Node.leaf (PTile a)))
                     (Some (Node.leaf (PTile b)))) area windows st = Ok st1 /\
       calls st1
       = calls st
         ++ requests dm (frame_rect st (Tile.id a)) (Tile.id a) leftHalf
         ++ requests dm (frame_rect st (Tile.id b)) (Tile.id b) rightHalf).
Proof.
  cbv zeta.
  assert (Hareas : childAreas area (Container.mk s (Some (ofZ 0)))
                   = childAreas area (Container.new s)) by reflexivity.
  assert (Hhalves : childAreas area (Container.new s)
            = (Rectangle.set area (dimensionOf s)
                 (Rectangle.get area (dimensionOf s) / ofZ 2),
               Rectangle.set
                 (Rectangle.set area (dimensionOf s)
                    (Rectangle.get area (dimensionOf s) / ofZ 2))
                 (positionOf s)
                 (Rectangle.get area (positionOf s)
                  + Rectangle.get area (dimensionOf s) / ofZ 2)))
    by (destruct s; reflexivity).
  unfold splitArea. rewrite Hareas, Hhalves.
  split; [reflexivity |]. split; [reflexivity |].
  split; [reflexivity |]. split; [reflexivity |].
  assert (Hall : forall dm l r windows st,
            populated l = true -> populated r = true ->
            fitTree dm (Node.mk (PContainer (Container.mk s (Some (ofZ 0))))
                          (Some l) (Some r)) area windows st
            = fitAll dm windows
                (assigned l (Rectangle.set area (dimensionOf s)
                               (Rectangle.get area (dimensionOf s) / ofZ 2))
                 ++ assigned r
                      (Rectangle.set
                         (Rectangle.set area (dimensionOf s)
                            (Rectangle.get area (dimensionOf s) / ofZ 2))
                         (positionOf s)
                         (Rectangle.get area (positionOf s)
                          + Rectangle.get area (dimensionOf s) / ofZ 2))) st).
  { intros dm l r windows st Hl Hr.
    rewrite (fitTree_fitAll dm windows) by (simpl; rewrite Hl, Hr; reflexivity).
    cbn [assigned]. rewrite Hareas, Hhalves. reflexivity. }
  split; [| split].
  - intros dm l r windows st.
    rewrite !fitTree_split, Hareas, Hhalves. split; reflexivity.
  - exact Hall.
  - intros dm a b wa wb windows st Ha Hb Hne.
    rewrite Hall by reflexivity. cbn [assigned Node.leaf app].
    cbn [fitAll]. rewrite Ha.
    destruct (fit_found dm wa (Rectangle.set area (dimensionOf s)
                                 (Rectangle.get area (dimensionOf s) / ofZ 2)) st)
      as [st' Hfa].
    rewrite Hfa. cbn [bind]. rewrite Hb.
    destruct (fit_found dm wb
                (Rectangle.set
                   (Rectangle.set area (dimensionOf s)
                      (Rectangle.get area (dimensionOf s) / ofZ 2))
                   (positionOf s)
                   (Rectangle.get area (positionOf s)
                    + Rectangle.get area (dimensionOf s) / ofZ 2)) st')
      as [st1 Hfb].
    rewrite Hfb. cbn [bind]. exists st1. split; [reflexivity |].
    rewrite <- Ha in Hfa. rewrite <- Hb in Hfb.
    rewrite (fit_requests dm windows _ _ _ _ Hfb),
            (fit_requests dm windows _ _ _ _ Hfa), <- app_assoc.
    rewrite (fit_frames dm windows _ _ _ _ Hfa (Tile.id b)).
    destruct (Z.eqb_spec (Tile.id b) (Tile.id a)) as [Heq |]; [| reflexivity].
    congruence.
Qed.

Lemma constraint_zero_bisects_witness :
  exists st1,
    fitTree (desktop 1 area1000x600 [] (settingsOf 0 0))
      (Node.mk (PContainer (Container.mk Vertical (Some (ofZ 0))))
         (Some (tileLeaf 1)) (Some (tileLeaf 2)))
      area1000x600 [plainWindow 1 0; plainWindow 2 0] (screenAt area600x1000)
    = Ok st1 /\
    calls st1
    = [Unmaximize 1; MoveFrame 1 (ofZ 0) (ofZ 0);
       MoveResizeFrame 1 (ofZ 0) (ofZ 0) (ofZ 500) (ofZ 600); Ease 1;
       Unmaximize 2; MoveFrame 2 (ofZ 500) (ofZ 0);
       MoveResizeFrame 2 (ofZ 500) (ofZ 0) (ofZ 500) (ofZ 600); Ease 2].
Proof.
  destruct (proj2 (proj2 (proj2 (proj2 (proj2 (proj2
              (constraint_zero_bisects area1000x600 Vertical))))))
              (desktop 1 area1000x600 [] (settingsOf 0 0))
              (Tile.new 1) (Tile.new 2) (plainWindow 1 0) (plainWindow 2 0)
              [plainWindow 1 0; plainWindow 2 0] (screenAt area600x1000)
              eq_refl eq_refl ltac:(discriminate))
    as (st1 & Hrun & Hcalls).
  exists st1. split; [exact Hrun |]. rewrite Hcalls.
  vm_compute.
  repeat match goal with
         | |- _ = _ => reflexivity
         | |- _ = _ => apply Qc_is_canon; reflexivity
         | |- _ = _ => f_equal
         end.
Defined.

(** C4: fitting twice.  With a spacing of [10] the first pass leaves the
    window at its assigned rectangle less the spacing, so on the second pass
    the frame still differs from the assigned rectangle: the short-circuit
    of [#fit] does not trigger, and the window is unmaximized, moved, resized
    and eased once more, to the rectangle it already has. *)
Theorem autotile_twice_moves_again :
  let dm := desktop 1 area1000x600 [[plainWindow 1 0]] (settingsOf 10 0) in
  match autotile dm (tileLeaf 1) (screenAt (Rectangle.ofZ 0 0 400 300)) with
  | Ok st1 =>
      match autotile dm (tileLeaf 1) st1 with
      | Ok st2 =>
          workArea dm 0 = Rectangle.ofZ (-10) (-10) 1020 620 /\
          frame_rect st1 1 = Rectangle.ofZ 0 0 1000 600 /\
          frame_rect st2 1 = frame_rect st1 1 /\
          Rectangle.eqb (frame_rect st1 1) (workArea dm 0) = false /\
          length (calls st1) = 4%nat /\
          drop 4 (calls st2) =
            [Unmaximize 1; MoveFrame 1 (ofZ 0) (ofZ 0);
             MoveResizeFrame 1 (ofZ 0) (ofZ 0) (ofZ 1000) (ofZ 600); Ease 1]
      | Throw _ => False
      end
  | Throw _ => False
  end.
Proof.
  vm_compute.
  repeat match goal with
         | |- _ /\ _ => split
         | |- _ = _ => reflexivity
         | |- _ = _ => apply Qc_is_canon; reflexivity
         | |- _ = _ => f_equal
         end.
Qed.

(** ** Initial construction *)

Lemma readTree_leaf (fuel : nat) (h : Heap) (ref : nat) (d : Payload) :
  h !! ref = Some (HNode.leafOf d) ->
  readTree (S fuel) h ref = Some (Node.leaf d).
Proof. intros H. simpl. rewrite H. reflexivity. Qed.

(** The loop of the builder from a cursor that is a tile: every window
    splits the cursor and moves it to the new right child.  The objects that
    were there stay as they were, except the first cursor, which becomes the
    root of the chain. *)
Lemma insertWindows_chain (workArea : Rectangle) (rest : list Window) :
  forall index (h : Heap) cursor first,
    h !! cursor = Some (HNode.leafOf (PTile (Tile.new first))) ->
    exists h1 cursor1,
      insertWindows workArea index rest (h, cursor) = Ok (h1, cursor1) /\
      length h1 = (length h + 2 * length rest)%nat /\
      (forall i, (i < length h)%nat -> i <> cursor -> h1 !! i = h !! i) /\
      forall fuel, (length rest < fuel)%nat ->
        readTree fuel h1 cursor = Some (chainTree workArea index first rest).
Proof.
  induction rest as [|window rest IH]; intros index h cursor first Hcur.
  - exists h, cursor. split; [reflexivity |]. split; [simpl; lia |].
    split; [auto |].
    intros [|fuel] Hfuel; [simpl in Hfuel; lia |].
    apply readTree_leaf. exact Hcur.
  - pose proof (lookup_lt_Some _ _ _ Hcur) as Hlt.
    set (old := HNode.leafOf (PTile (Tile.new first))) in *.
    set (new := HNode.leafOf (PTile (Tile.new (get_id window)))).
    set (l := length h).
    set (r := length (h ++ [old])).
    set (split := HNode.mk (PContainer (Container.new (initSplit index workArea)))
                    (Some l) (Some r)).
    set (h0 := <[cursor := split]> ((h ++ [old]) ++ [new])).
    assert (Hr : r = S l) by (unfold r, l; rewrite length_app; simpl; lia).
    assert (Hlen0 : length h0 = S (S l)).
    { unfold h0. rewrite length_insert, !length_app. simpl. unfold l. lia. }
    assert (Hrun : insertWindow workArea index window (h, cursor) = Ok (h0, r)).
    { unfold insertWindow, alloc. rewrite Hcur. reflexivity. }
    assert (Hh0 : forall i, i <> cursor ->
                    h0 !! i = ((h ++ [old]) ++ [new]) !! i).
    { intros i Hi. unfold h0. apply list_lookup_insert_ne. congruence. }
    assert (Hh0r : h0 !! r = Some new).
    { rewrite Hh0 by (rewrite Hr; unfold l; lia).
      unfold r. apply list_lookup_middle. reflexivity. }
    assert (Hh0l : h0 !! l = Some old).
    { rewrite Hh0 by (unfold l; lia).
      rewrite lookup_app_l by (rewrite length_app; simpl; unfold l; lia).
      apply list_lookup_middle. reflexivity. }
    assert (Hh0c : h0 !! cursor = Some split).
    { unfold h0. apply list_lookup_insert_eq. rewrite !length_app. simpl. lia. }
    destruct (IH (S index) h0 r (get_id window) Hh0r)
      as (h1 & cursor1 & Hrest & Hlen & Hsame & Hread).
    exists h1, cursor1. cbn [insertWindows]. rewrite Hrun. cbn [bind].
    split; [exact Hrest |]. split; [unfold l in *; simpl; lia |]. split.
    + intros i Hi Hne. rewrite Hsame by (rewrite ?Hlen0, ?Hr; unfold l; lia).
      rewrite Hh0 by exact Hne.
      rewrite !lookup_app_l by (rewrite ?length_app; simpl; lia). reflexivity.
    + intros [|fuel] Hfuel; [lia |]. simpl in Hfuel.
      cbn [readTree chainTree].
      rewrite Hsame by (rewrite ?Hlen0, ?Hr; unfold l; lia).
      rewrite Hh0c. unfold split. cbn [HNode.left HNode.right HNode.data].
      rewrite (Hread fuel) by lia.
      destruct fuel as [|fuel]; [lia |].
      rewrite readTree_leaf with (d := PTile (Tile.new first)); [reflexivity |].
      rewrite Hsame by (rewrite ?Hlen0, ?Hr; unfold l; lia). exact Hh0l.
Qed.

Lemma chainTree_tiles (workArea : Rectangle) (rest : list Window) :
  forall index first,
    tileIds (chainTree workArea index first rest) = first :: map get_id rest /\
    populated (chainTree workArea index first rest) = true.
Proof.
  induction rest as [|w rest IH]; intros index first; [split; reflexivity |].
  destruct (IH (S index) (get_id w)) as [Hids Hpop].
  simpl. rewrite Hids, Hpop. split; reflexivity.
Qed.

(** X3: on a root that no other slot holds, the loop of the builder returns
    and makes a well-shaped tree whose tiles are the windows it was given,
    one each, in their order. *)
Theorem insertWindows_fresh_root (workArea : Rectangle) (windows : list Window)
  (h : Heap) :
  let root := length h in
  let fresh := HNode.leafOf (PContainer (Container.new Horizontal)) in
  exists h1 cursor,
    insertWindows workArea 0 windows (h ++ [fresh], root) = Ok (h1, cursor) /\
    snapshot h1 root = Some (builtTree workArea windows) /\
    tileIds (builtTree workArea windows) = map get_id windows /\
    populated (builtTree workArea windows)
      || isEmpty (builtTree workArea windows) = true.
Proof.
  cbv zeta. destruct windows as [|window rest].
  - exists (h ++ [HNode.leafOf (PContainer (Container.new Horizontal))]), (length h).
    split; [reflexivity |]. split; [| split; reflexivity].
    unfold snapshot. apply readTree_leaf, list_lookup_middle. reflexivity.
  - set (fresh := HNode.leafOf (PContainer (Container.new Horizontal))).
    set (h0 := <[length h := HNode.leafOf (PTile (Tile.new (get_id window)))]>
                 (h ++ [fresh])).
    assert (Hrun : insertWindow workArea 0 window (h ++ [fresh], length h)
                   = Ok (h0, length h)).
    { unfold insertWindow. rewrite list_lookup_middle by reflexivity.
      reflexivity. }
    assert (Hcur : h0 !! length h
                   = Some (HNode.leafOf (PTile (Tile.new (get_id window))))).
    { unfold h0. apply list_lookup_insert_eq. rewrite length_app. simpl. lia. }
    destruct (insertWindows_chain workArea rest 1 h0 (length h) (get_id window) Hcur)
      as (h1 & cursor1 & Hrest & Hlen & _ & Hread).
    exists h1, cursor1. cbn [insertWindows]. rewrite Hrun. cbn [bind].
    split; [exact Hrest |].
    destruct (chainTree_tiles workArea rest 1 (get_id window)) as [Hids Hpop].
    split; [| split; [exact Hids | simpl; rewrite Hpop; reflexivity]].
    unfold snapshot. apply Hread.
    assert (length h0 = S (length h))
      by (unfold h0; rewrite length_insert, length_app; simpl; lia).
    lia.
Qed.

(** Three windows on a monitor wider than tall: a [Vertical] root with the
    first window on the left and a [Horizontal] stack of the other two on
    the right. *)
Example builtTree_three_windows :
  builtTree area1920x1080 [plainWindow 1 0; plainWindow 2 0; plainWindow 3 0]
  = Node.mk (PContainer (Container.new Vertical))
      (Some (tileLeaf 1))
      (Some (Node.mk (PContainer (Container.new Horizontal))
               (Some (tileLeaf 2)) (Some (tileLeaf 3)))).
Proof. reflexivity. Qed.

(** Every row of the new forest is one reference, repeated for every
    monitor: the slots of a workspace share their root. *)
Lemma newForest_rows (workspaceCount monitorCount : nat) :
  forall (h : Heap) (row : list nat),
    row ∈ snd (newForest workspaceCount monitorCount h) ->
    exists root, row = replicate monitorCount root.
Proof.
  induction workspaceCount as [|n IH]; intros h row; simpl.
  - intros []%elem_of_nil.
  - destruct (newForest n monitorCount _) as [h2 rows] eqn:Hrest. simpl.
    intros [-> | Hin]%elem_of_cons; [eauto |].
    eapply IH. rewrite Hrest. exact Hin.
Qed.

(** C1: the forest after [#initTree] on a desktop of one workspace and two
    monitors, with one eligible window on the first monitor and none on the
    second.  Both slots of the row hold the same reference, so the slot of
    the second monitor reads as the tile of window [1] although no window of
    that monitor is eligible: building the first monitor's tree changed the
    second monitor's. *)
Theorem initTree_row_shares_one_root :
  let dm := desktop 2 area1920x1080 [[plainWindow 1 0]] (settingsOf 0 0) in
  match initTree dm (screenAt area1920x1080) with
  | Ok forest =>
      Forest.tree forest = [[0%nat; 0%nat]] /\
      Forest.slot forest 0 0 = Some (tileLeaf 1) /\
      Forest.slot forest 0 1 = Some (tileLeaf 1) /\
      List.filter (eligible 0) [plainWindow 1 0] = [plainWindow 1 0] /\
      List.filter (eligible 1) [plainWindow 1 0] = []
  | Throw _ => False
  end.
Proof. vm_compute. repeat split. Qed.

(** C5, as stated, fails: at the odd index [1] on a work area taller than
    wide the split made by the builder is [Vertical], where the rule with
    "the opposite" on odd indices asks for [Horizontal]. *)
Lemma initSplit_odd_index_tall_area :
  let h := [HNode.leafOf (PTile (Tile.new 1))] in
  match insertWindow area600x1000 1 (plainWindow 2 0) (h, 0%nat) with
  | Ok (h1, _) =>
      HNode.data <$> h1 !! 0%nat = Some (PContainer (Container.new Vertical)) /\
      specSplit 1 area600x1000 = Horizontal
  | Throw _ => False
  end.
Proof. vm_compute. split; reflexivity. Qed.

(** C5, amended: when the builder splits a tile at insertion index [index],
    the new container is [Horizontal] if the index is even and the work area
    is wider than tall, and [Vertical] in every other case: on an even index
    over a work area not wider than tall, and on every odd index. *)
Theorem insertWindow_split_orientation (workArea : Rectangle) (index : nat)
  (window : Window) (h : Heap) (root : nat) (node : HNode.t) (t : Tile) :
  h !! root = Some node ->
  HNode.data node = PTile t ->
  let wider := num_gtb (Rectangle.width workArea) (Rectangle.height workArea) in
  exists h1 l r,
    insertWindow workArea index window (h, root) = Ok (h1, r) /\
    h1 !! root
      = Some (HNode.mk (PContainer (Container.new (initSplit index workArea)))
                (Some l) (Some r)) /\
    (Nat.even index = true ->
       initSplit index workArea = if wider then Horizontal else Vertical) /\
    (Nat.odd index = true -> initSplit index workArea = Vertical).
Proof.
  intros Hroot Hdata. cbv zeta.
  unfold insertWindow, alloc. rewrite Hroot. simpl. rewrite Hdata.
  eexists _, _, _. split; [reflexivity |].
  split.
  - apply list_lookup_insert_eq. rewrite !length_app. simpl.
    apply lookup_lt_Some in Hroot. lia.
  - unfold initSplit. split.
    + intros ->. reflexivity.
    + unfold Nat.odd. intros ->%negb_true_iff. reflexivity.
Qed.

Lemma insertWindow_split_orientation_witness :
  exists h1 l r,
    insertWindow area1920x1080 2 (plainWindow 3 0)
      ([HNode.leafOf (PTile (Tile.new 2))], 0%nat) = Ok (h1, r) /\
    h1 !! 0%nat
      = Some (HNode.mk (PContainer (Container.new Horizontal)) (Some l) (Some r)).
Proof.
  destruct (insertWindow_split_orientation area1920x1080 2 (plainWindow 3 0)
              [HNode.leafOf (PTile (Tile.new 2))] 0
              (HNode.leafOf (PTile (Tile.new 2))) (Tile.new 2)
              eq_refl eq_refl) as (h1 & l & r & Hrun & Hnode & _).
  exists h1, l, r. split; [exact Hrun | exact Hnode].
Defined.

(** * Further properties *)

(** ** Numbers and rectangles, continued *)




Lemma not_in_one_two (id : Z) : id <> 1%Z -> id <> 2%Z -> id ∉ tileIds sideBySide.
Proof.
  intros H1 H2 Hin. simpl in Hin.
  apply elem_of_cons in Hin as [-> | Hin]; [contradiction |].
  apply list_elem_of_singleton in Hin as ->. contradiction.
Qed.

(** ** Removal, continued *)

Lemma removeId_tiles (root : Node) (id : Z) :
  valid root ->
  tileIds (removeId root id) = filter (λ i, i ≠ id) (tileIds root).
Proof.
  intros [Hshape Hnd]. apply orb_true_iff in Hshape as [Hpop | Hempty].
  - destruct (isContainer root) eqn:Hc.
    + apply removeId_populated; assumption.
    + destruct (populated_leaf root Hpop Hc) as [t ->].
      unfold Node.leaf. simpl. unfold isTileWithId. simpl.
      destruct (Z.eqb_spec (Tile.id t) id) as [-> | Hne]; simpl.
      * rewrite filter_cons_False by (intros H; apply H; reflexivity).
        reflexivity.
      * rewrite filter_cons_True by assumption. reflexivity.
  - destruct root as [[t|c] [l|] [r|]]; try discriminate. reflexivity.
Qed.

(** X5: on a valid tree [removeId] leaves the other tiles as they were and
    in their order, and removing the same identifier once more changes
    nothing. *)
Theorem removeId_keeps_order (root : Node) (id : Z) :
  valid root ->
  tileIds (removeId root id) = filter (λ i, i ≠ id) (tileIds root) /\
  removeId (removeId root id) id = removeId root id.
Proof.
  intros Hvalid. pose proof (removeId_tiles root id Hvalid) as Hids.
  split; [exact Hids |].
  apply removeId_absent. rewrite Hids.
  intros [Hne _]%list_elem_of_filter. contradiction.
Qed.

Lemma removeId_keeps_order_witness :
  tileIds (removeId sideBySide 1) = [2%Z] /\
  removeId (removeId sideBySide 1) 1 = removeId sideBySide 1.
Proof. exact (removeId_keeps_order sideBySide 1 valid_sideBySide). Defined.

(** ** Insertion, continued *)

Lemma pushTree_root_tile (dm : DesktopManager) (tree pushed : Node)
  (point : Point) (newTile : Tile) (workArea0 : option Rectangle) :
  populated tree = true ->
  pushTree dm tree point newTile workArea0 = Ok pushed ->
  isContainer pushed = false -> pushed = tree.
Proof.
  intros Hpop Hrun Hc.
  destruct (pointInRectangle point (resolved dm workArea0)) eqn:Hin.
  2:{ rewrite (pushTree_not_inside _ _ _ _ _ Hin) in Hrun. congruence. }
  assert (Hin' : pointInRectangle point
                   match workArea0 with
                   | Some w => w
                   | None => workArea dm (get_current_monitor (host dm))
                   end = true) by (destruct workArea0; exact Hin).
  destruct tree as [d l r]. node_shapes d l r Hpop.
  - cbn [pushTree] in Hrun. rewrite Hin' in Hrun. cbn [negb] in Hrun.
    destruct (pointInRectangle point (SplitResult.left _));
      injection Hrun as <-; discriminate.
  - cbn [pushTree] in Hrun. rewrite Hin' in Hrun. cbn [negb] in Hrun.
    destruct (pushTree dm l _ _ _); [| discriminate].
    simpl in Hrun. destruct (pushTree dm r _ _ _); [| discriminate].
    injection Hrun as <-. discriminate.
Qed.

Lemma pushTree_removeId_populated (dm : DesktopManager) (tree : Node) :
  populated tree = true ->
  forall point newTile workArea0,
    Tile.id newTile ∉ tileIds tree ->
    exists pushed,
      pushTree dm tree point newTile workArea0 = Ok pushed /\
      removeId pushed (Tile.id newTile) = tree.
Proof.
  induction tree as [d l r IHl IHr] using Node_induction.
  intros Hpop point newTile workArea0 Hfresh.
  destruct (pointInRectangle point (resolved dm workArea0)) eqn:Hin.
  2:{ exists (Node.mk d l r). split; [apply pushTree_not_inside, Hin |].
      apply removeId_absent, Hfresh. }
  assert (Hin' : pointInRectangle point
                   match workArea0 with
                   | Some w => w
                   | None => workArea dm (get_current_monitor (host dm))
                   end = true) by (destruct workArea0; exact Hin).
  node_shapes d l r Hpop.
  - (* a tile is split; removing the new tile brings the old leaf back *)
    assert (Hne : (Tile.id t =? Tile.id newTile)%Z = false).
    { apply Z.eqb_neq. intros Heq. apply Hfresh. simpl. rewrite Heq. left. }
    cbn [pushTree]. rewrite Hin'. cbn [negb].
    destruct (pointInRectangle point (SplitResult.left _));
      eexists; (split; [reflexivity |]);
      unfold removeId, isContainer, isTileWithId, Node.leaf; simpl;
      rewrite ?Z.eqb_refl, ?Hne; reflexivity.
  - apply andb_true_iff in Hpop as [Hpl Hpr].
    simpl in Hfresh. apply not_elem_of_app in Hfresh as [Hfl Hfr].
    cbn [pushTree]. rewrite Hin'. cbn [negb].
    set (s := splitArea _ (Some c)).
    destruct (IHl l eq_refl Hpl point newTile (Some (SplitResult.left s)) Hfl)
      as (l1 & Hrunl & Hbackl).
    destruct (IHr r eq_refl Hpr point newTile (Some (SplitResult.right s)) Hfr)
      as (r1 & Hrunr & Hbackr).
    rewrite Hrunl, Hrunr. simpl. eexists. split; [reflexivity |].
    assert (Hl1 : (if isContainer l1 then removeId l1 (Tile.id newTile) else l1) = l).
    { destruct (isContainer l1) eqn:Hc; [exact Hbackl |].
      exact (pushTree_root_tile _ _ _ _ _ _ Hpl Hrunl Hc). }
    assert (Hr1 : (if isContainer r1 then removeId r1 (Tile.id newTile) else r1) = r).
    { destruct (isContainer r1) eqn:Hc; [exact Hbackr |].
      exact (pushTree_root_tile _ _ _ _ _ _ Hpr Hrunr Hc). }
    cbn [removeId]. rewrite Hl1, Hr1.
    rewrite (isTileWithId_absent _ _ Hfl), (isTileWithId_absent _ _ Hfr).
    reflexivity.
Qed.

(** X6: push, then remove.  When the identifier of the new tile is not in
    the tree, removing it from the pushed tree gives the tree back, wherever
    the point was. *)
Theorem pushTree_then_removeId (dm : DesktopManager) (tree : Node) (point : Point)
  (newTile : Tile) (workArea0 : option Rectangle) :
  populated tree = true \/ tree = emptySlot ->
  Tile.id newTile ∉ tileIds tree ->
  exists pushed,
    pushTree dm tree point newTile workArea0 = Ok pushed /\
    removeId pushed (Tile.id newTile) = tree.
Proof.
  intros [Hpop | ->] Hfresh.
  - apply pushTree_removeId_populated; assumption.
  - destruct (pointInRectangle point (resolved dm workArea0)) eqn:Hin.
    + exists (Node.leaf (PTile newTile)). split.
      * destruct workArea0; unfold resolved in Hin; simpl in *; rewrite Hin;
          reflexivity.
      * unfold Node.leaf, removeId, isTileWithId. simpl.
        rewrite Z.eqb_refl. reflexivity.
    + exists emptySlot. split; [apply pushTree_not_inside, Hin | reflexivity].
Qed.

Lemma pushTree_then_removeId_witness :
  exists pushed,
    pushTree (desktop 1 area1000x600 [] (settingsOf 0 0)) sideBySide
      (Point.mk (ofZ 500) (ofZ 300)) (Tile.new 3) None = Ok pushed /\
    removeId pushed 3 = sideBySide.
Proof.
  apply (pushTree_then_removeId (desktop 1 area1000x600 [] (settingsOf 0 0))
           sideBySide (Point.mk (ofZ 500) (ofZ 300)) (Tile.new 3) None).
  - left. reflexivity.
  - apply not_in_one_two; discriminate.
Defined.




(** ** The fit walk, continued *)

Section FitWalkMore.

Context (dm : DesktopManager) (windows : list Window).

Lemma findWindow_missing (id : Z) :
  (forall w, w ∈ windows -> get_id w <> id) -> findWindow windows id = None.
Proof.
  intros Hno. unfold findWindow.
  destruct (find _ windows) as [w|] eqn:Hfind; [| reflexivity].
  apply find_some in Hfind as [Hin Heq]. apply Z.eqb_eq in Heq.
  apply list_elem_of_In in Hin. destruct (Hno w Hin Heq).
Qed.

Lemma fitAll_throws (targets : list (Z * Rectangle)) :
  forall st id r,
    (id, r) ∈ targets -> findWindow windows id = None ->
    fitAll dm windows targets st = Throw TypeError.
Proof.
  induction targets as [|[i r0] l IH]; intros st id r Hin Hnone.
  - apply elem_of_nil in Hin as [].
  - simpl. destruct (findWindow windows i) as [w|] eqn:Hfind; [| reflexivity].
    destruct (fit_found dm w r0 st) as [st1 ->]. simpl.
    apply elem_of_cons in Hin as [[= -> ->] | Hin]; [congruence |].
    eapply IH; eassumption.
Qed.

Lemma fitAll_ok_lookups (targets : list (Z * Rectangle)) :
  forall st st1 id r,
    fitAll dm windows targets st = Ok st1 -> (id, r) ∈ targets ->
    exists w, findWindow windows id = Some w.
Proof.
  intros st st1 id r Hrun Hin.
  destruct (findWindow windows id) as [w|] eqn:Hfind; [eauto |].
  rewrite (fitAll_throws _ st id r Hin Hfind) in Hrun. discriminate.
Qed.

(** The walk changes no frame but those of its tiles; this holds of every
    tree. *)
Lemma fitTree_untouched (tree : Node) :
  forall workArea st st1,
    fitTree dm tree workArea windows st = Ok st1 ->
    forall id, id ∉ tileIds tree -> frame_rect st1 id = frame_rect st id.
Proof.
  induction tree as [d l r IHl IHr] using Node_induction.
  intros workArea st st1 Hrun id Hid.
  destruct d as [t|c].
  - assert (Hfit : fit dm (findWindow windows (Tile.id t)) workArea st = Ok st1)
      by (destruct l, r; exact Hrun).
    rewrite (fit_frames _ _ _ _ _ _ Hfit).
    destruct (Z.eqb_spec id (Tile.id t)) as [-> | Hne]; [| reflexivity].
    exfalso. apply Hid. left.
  - destruct l as [l|], r as [r|]; try discriminate.
    + rewrite fitTree_split in Hrun.
      destruct (fitTree dm l _ windows st) as [st0|e] eqn:Hl; [| discriminate].
      simpl in Hrun, Hid. apply not_elem_of_app in Hid as [Hidl Hidr].
      rewrite (IHr r eq_refl _ _ _ Hrun id Hidr).
      exact (IHl l eq_refl _ _ _ Hl id Hidl).
    + injection Hrun as <-. reflexivity.
Qed.

Lemma targetOf_elem (targets : list (Z * Rectangle)) (id : Z) (r : Rectangle) :
  NoDup targets.*1 -> (id, r) ∈ targets -> targetOf targets id = Some r.
Proof.
  unfold targetOf. induction targets as [|[i r0] l IH]; intros Hnd Hin.
  - apply elem_of_nil in Hin as [].
  - simpl in Hnd. apply NoDup_cons in Hnd as [Hfresh Hnd]. simpl.
    apply elem_of_cons in Hin as [[= -> ->] | Hin].
    + rewrite Z.eqb_refl. reflexivity.
    + destruct (Z.eqb_spec i id) as [-> | Hne]; [| auto].
      exfalso. apply Hfresh. apply list_elem_of_fmap. exists (id, r). auto.
Qed.

Lemma fitAll_fixed (targets : list (Z * Rectangle)) (st : Screen) :
  (forall id r, (id, r) ∈ targets ->
     frame_rect st id = r /\ exists w, findWindow windows id = Some w) ->
  fitAll dm windows targets st = Ok st.
Proof.
  induction targets as [|[i r0] l IH]; intros Hall; [reflexivity |].
  destruct (Hall i r0) as [Hframe [w Hfind]]; [left |].
  simpl. rewrite Hfind. unfold fit.
  rewrite (findWindow_id _ _ _ Hfind), Hframe.
  rewrite (proj2 (Rectangle_eqb_eq r0 r0) eq_refl). simpl.
  apply IH. intros id r Hin. apply Hall. right. exact Hin.
Qed.

End FitWalkMore.

Lemma fit_calls dm windows (id : Z) (r : Rectangle) (st st1 : Screen) :
  fit dm (findWindow windows id) r st = Ok st1 ->
  exists more,
    calls st1 = calls st ++ more /\ Forall (fun c => callTarget c = id) more.
Proof.
  destruct (findWindow windows id) as [w|] eqn:Hfind; [| discriminate].
  apply findWindow_id in Hfind. unfold fit.
  destruct (Rectangle.eqb _ r).
  - intros [= <-]. exists []. rewrite app_nil_r. split; [reflexivity | constructor].
  - intros [= <-]. unfold moveResize, logCall, setFrame. simpl.
    rewrite Hfind. rewrite <- !app_assoc. eexists. split; [reflexivity |].
    repeat constructor.
Qed.

Lemma fitTree_calls dm windows (tree : Node) :
  forall workArea st st1,
    fitTree dm tree workArea windows st = Ok st1 ->
    exists more,
      calls st1 = calls st ++ more /\
      Forall (fun c => callTarget c ∈ tileIds tree) more.
Proof.
  induction tree as [d l r IHl IHr] using Node_induction.
  intros workArea st st1 Hrun.
  destruct d as [t|c].
  - assert (Hfit : fit dm (findWindow windows (Tile.id t)) workArea st = Ok st1)
      by (destruct l, r; exact Hrun).
    destruct (fit_calls _ _ _ _ _ _ Hfit) as (more & Hcalls & Hall).
    exists more. split; [exact Hcalls |].
    eapply Forall_impl; [exact Hall |]. intros hc ->. left.
  - destruct l as [l|], r as [r|]; try discriminate.
    + rewrite fitTree_split in Hrun.
      destruct (fitTree dm l _ windows st) as [st0|e] eqn:Hl; [| discriminate].
      simpl in Hrun.
      destruct (IHl l eq_refl _ _ _ Hl) as (m1 & Hc1 & Ha1).
      destruct (IHr r eq_refl _ _ _ Hrun) as (m2 & Hc2 & Ha2).
      exists (m1 ++ m2). rewrite Hc2, Hc1, app_assoc. split; [reflexivity |].
      apply Forall_app. split; (eapply Forall_impl; [eassumption |]);
        intros hc Hc; simpl; rewrite elem_of_app; auto.
    + injection Hrun as <-. exists []. rewrite app_nil_r.
      split; [reflexivity | constructor].
Qed.

Lemma fitTree_dangling dm windows (tree : Node) (workArea : Rectangle) (st : Screen) :
  populated tree || isEmpty tree = true ->
  (exists id, id ∈ tileIds tree /\ forall w, w ∈ windows -> get_id w <> id) ->
  fitTree dm tree workArea windows st = Throw TypeError.
Proof.
  intros Hshape (id & Hin & Hno).
  rewrite fitTree_fitAll by exact Hshape.
  rewrite <- (assigned_ids tree Hshape workArea) in Hin.
  apply list_elem_of_fmap in Hin as ([i r] & -> & Hin).
  eapply fitAll_throws; [exact Hin |].
  apply findWindow_missing. exact Hno.
Qed.

(** X9: the walk touches nothing but the windows of its tiles: every other
    frame stays, and every call made is on a window of a tile.  This holds
    of every tree. *)
Theorem fitTree_only_its_tiles (dm : DesktopManager) (tree : Node)
  (workArea : Rectangle) (windows : list Window) (st st1 : Screen) :
  fitTree dm tree workArea windows st = Ok st1 ->
  (forall id, id ∉ tileIds tree -> frame_rect st1 id = frame_rect st id) /\
  exists more,
    calls st1 = calls st ++ more /\
    Forall (fun c => callTarget c ∈ tileIds tree) more.
Proof.
  intros Hrun. split.
  - apply (fitTree_untouched _ _ _ _ _ _ Hrun).
  - apply (fitTree_calls _ _ _ _ _ _ Hrun).
Qed.

(** X8: on a well-shaped tree the walk returns when every tile is live and
    raises the [TypeError] of the failed lookup when one is not. *)
Theorem fitTree_returns_iff_live (dm : DesktopManager) (tree : Node)
  (workArea : Rectangle) (windows : list Window) (st : Screen) :
  populated tree || isEmpty tree = true ->
  (tilesLive tree windows ->
     exists st1, fitTree dm tree workArea windows st = Ok st1) /\
  ((exists id, id ∈ tileIds tree /\ forall w, w ∈ windows -> get_id w <> id) ->
     fitTree dm tree workArea windows st = Throw TypeError).
Proof.
  intros Hshape. split.
  - intros Hlive. apply fitTree_returns; assumption.
  - apply fitTree_dangling. exact Hshape.
Qed.

Lemma requestsAll_nil (dm : DesktopManager) (st : Screen)
  (targets : list (Z * Rectangle)) :
  requestsAll dm st targets = [] ->
  forall id r, (id, r) ∈ targets -> frame_rect st id = r.
Proof.
  unfold requestsAll.
  induction targets as [|[i q] rest IH]; intros Hnil id r Hin.
  - apply elem_of_nil in Hin as [].
  - cbn [map concat fst snd] in Hnil. apply app_eq_nil in Hnil as [Hhead Hrest].
    apply elem_of_cons in Hin as [[= -> ->] | Hin]; [| exact (IH Hrest id r Hin)].
    unfold requests in Hhead.
    destruct (Rectangle.eqb (frame_rect st i) q) eqn:Heq; [| discriminate].
    apply Rectangle_eqb_eq, Heq.
Qed.

(** X10: the walk leaves the host alone exactly when the windows are where
    they belong.  On a valid tree whose tiles all have a window the walk
    returns; when the frame of every tile's window is the rectangle of its
    tile it returns the screen it was given, no call made and no frame
    changed, whatever the spacing; and a walk that has made no call found
    every frame at its rectangle. *)
Theorem fitTree_in_place (dm : DesktopManager) (tree : Node)
  (workArea : Rectangle) (windows : list Window) (st : Screen) :
  valid tree ->
  tilesLive tree windows ->
  (exists st1, fitTree dm tree workArea windows st = Ok st1) /\
  ((forall id r, (id, r) ∈ assigned tree workArea -> frame_rect st id = r) ->
   fitTree dm tree workArea windows st = Ok st) /\
  (forall st1,
     fitTree dm tree workArea windows st = Ok st1 ->
     calls st1 = calls st ->
     forall id r, (id, r) ∈ assigned tree workArea -> frame_rect st id = r).
Proof.
  intros [Hshape Hnd] Hlive.
  split; [apply fitTree_returns; assumption |].
  rewrite (fitTree_fitAll dm windows tree Hshape).
  split.
  - intros Hframes.
    apply fitAll_fixed. intros id r Hin. split; [apply Hframes, Hin |].
    apply findWindow_live, Hlive.
    rewrite <- (assigned_ids tree Hshape workArea).
    apply list_elem_of_fmap. exists (id, r). split; [reflexivity | exact Hin].
  - intros st1 Hrun Hcalls.
    apply requestsAll_nil with (dm := dm).
    rewrite <- (assigned_ids tree Hshape workArea) in Hnd.
    rewrite (fitAll_requests dm windows _ Hnd _ _ Hrun) in Hcalls.
    rewrite <- (app_nil_r (calls st)) in Hcalls at 2.
    exact (app_inv_head _ _ _ Hcalls).
Qed.


Lemma fitTree_returns_iff_live_witness :
  exists st1,
    fitTree (desktop 1 area1000x600 [] (settingsOf 10 20)) sideBySide
      area1000x600 [plainWindow 1 0; plainWindow 2 0] (screenAt area1000x600)
    = Ok st1.
Proof.
  apply (proj1 (fitTree_returns_iff_live _ sideBySide _ _ _ eq_refl)).
  intros id Hin. simpl in Hin.
  apply elem_of_cons in Hin as [-> | Hin].
  - exists (plainWindow 1 0). split; [left | reflexivity].
  - apply list_elem_of_singleton in Hin as ->.
    exists (plainWindow 2 0). split; [right; left | reflexivity].
Defined.

Lemma fitTree_only_its_tiles_witness :
  let dm := desktop 1 area1000x600 [] (settingsOf 10 20) in
  exists st1,
    fitTree dm sideBySide area1000x600 [plainWindow 1 0; plainWindow 2 0]
      (screenAt area600x1000) = Ok st1 /\
    frame_rect st1 3 = area600x1000.
Proof.
  cbv zeta.
  destruct (fitTree (desktop 1 area1000x600 [] (settingsOf 10 20)) sideBySide
              area1000x600 [plainWindow 1 0; plainWindow 2 0]
              (screenAt area600x1000)) as [st1|e] eqn:Hrun;
    [| vm_compute in Hrun; discriminate Hrun].
  exists st1. split; [reflexivity |].
  apply (proj1 (fitTree_only_its_tiles _ _ _ _ _ _ Hrun)).
  apply not_in_one_two; discriminate.
Defined.

Lemma fitTree_in_place_witness :
  fitTree (desktop 1 area1000x600 [] (settingsOf 10 0)) sideBySide area1000x600
    [plainWindow 1 0; plainWindow 2 0]
    (screenOf (assigned sideBySide area1000x600) area600x1000)
  = Ok (screenOf (assigned sideBySide area1000x600) area600x1000).
Proof.
  apply (fitTree_in_place (desktop 1 area1000x600 [] (settingsOf 10 0))
           sideBySide area1000x600 [plainWindow 1 0; plainWindow 2 0]
           (screenOf (assigned sideBySide area1000x600) area600x1000)
           valid_sideBySide).
  - intros id Hin. simpl in Hin.
    apply elem_of_cons in Hin as [-> | Hin].
    + exists (plainWindow 1 0). split; [left | reflexivity].
    + apply list_elem_of_singleton in Hin as ->.
      exists (plainWindow 2 0). split; [right; left | reflexivity].
  - intros id r Hin. unfold screenOf. cbn [frame_rect].
    assert (Hnd : NoDup (assigned sideBySide area1000x600).*1)
      by (apply (bool_decide_unpack _); vm_compute; exact I).
    rewrite (targetOf_elem _ _ _ Hnd Hin). reflexivity.
Defined.


(** ** The rectangles of the fit walk *)









Lemma unconstrained_container (c : Container) (l r : Node) :
  unconstrained (Node.mk (PContainer c) (Some l) (Some r)) = true ->
  c = Container.new (Container.split c) /\
  unconstrained l = true /\ unconstrained r = true.
Proof.
  simpl. destruct c as [s [k|]]; simpl; [discriminate |].
  intros [Hl Hr]%andb_true_iff. auto.
Qed.






(** ** The engine sets no constraint *)

Lemma removeId_unconstrained (tree : Node) (id : Z) :
  unconstrained tree = true -> unconstrained (removeId tree id) = true.
Proof.
  induction tree as [d l r IHl IHr] using Node_induction. intros Hfree.
  destruct d as [t|c].
  - destruct l, r; simpl in *; destruct (isTileWithId _ id); simpl; auto.
  - destruct l as [l|], r as [r|];
      try (simpl in *; unfold isTileWithId; simpl; exact Hfree).
    pose proof Hfree as Hfree0.
    apply unconstrained_container in Hfree as (Hc & Hfl & Hfr).
    cbn [removeId].
    assert (Hl1 : unconstrained (if isContainer l then removeId l id else l) = true)
      by (destruct (isContainer l); auto).
    assert (Hr1 : unconstrained (if isContainer r then removeId r id else r) = true)
      by (destruct (isContainer r); auto).
    destruct (isTileWithId _ id); [exact Hr1 |].
    destruct (isTileWithId _ id); [exact Hl1 |].
    simpl. rewrite Hl1, Hr1. rewrite Hc. reflexivity.
Qed.

Lemma pushTree_unconstrained (dm : DesktopManager) (tree : Node) :
  forall point newTile workArea0 pushed,
    unconstrained tree = true ->
    pushTree dm tree point newTile workArea0 = Ok pushed ->
    unconstrained pushed = true.
Proof.
  induction tree as [d l r IHl IHr] using Node_induction.
  intros point newTile workArea0 pushed Hfree Hrun.
  destruct (pointInRectangle point (resolved dm workArea0)) eqn:Hin.
  2:{ rewrite (pushTree_not_inside _ _ _ _ _ Hin) in Hrun. congruence. }
  assert (Hin' : pointInRectangle point
                   match workArea0 with
                   | Some w => w
                   | None => workArea dm (get_current_monitor (host dm))
                   end = true) by (destruct workArea0; exact Hin).
  destruct d as [t|c].
  - assert (Hrun' :
      (let s := splitArea
                  match workArea0 with
                  | Some w => w
                  | None => workArea dm (get_current_monitor (host dm))
                  end None in
       if pointInRectangle point (SplitResult.left s)
       then Ok (Node.mk (PContainer (SplitResult.container s))
                  (Some (Node.leaf (PTile newTile))) (Some (Node.leaf (PTile t))))
       else Ok (Node.mk (PContainer (SplitResult.container s))
                  (Some (Node.leaf (PTile t))) (Some (Node.leaf (PTile newTile)))))
      = Ok pushed).
    { destruct l, r; cbn [pushTree] in Hrun; rewrite Hin' in Hrun;
        exact Hrun. }
    cbv zeta in Hrun'. unfold splitArea in Hrun'.
    destruct (childAreas _ _) as [la ra]. simpl in Hrun'.
    destruct (pointInRectangle point la); injection Hrun' as <-; reflexivity.
  - destruct l as [l|], r as [r|]; cbn [pushTree] in Hrun;
      rewrite Hin' in Hrun; cbn [negb] in Hrun; try discriminate.
    + apply unconstrained_container in Hfree as (Hc & Hfl & Hfr).
      destruct (pushTree dm l _ _ _) as [l1|] eqn:Hl; [| discriminate].
      simpl in Hrun.
      destruct (pushTree dm r _ _ _) as [r1|] eqn:Hr; [| discriminate].
      injection Hrun as <-. simpl.
      rewrite (IHl l eq_refl _ _ _ _ Hfl Hl), (IHr r eq_refl _ _ _ _ Hfr Hr).
      rewrite Hc. reflexivity.
    + injection Hrun as <-. reflexivity.
Qed.

Lemma chainTree_unconstrained (workArea : Rectangle) (rest : list Window) :
  forall index first, unconstrained (chainTree workArea index first rest) = true.
Proof.
  induction rest as [|w rest IH]; intros index first; [reflexivity |].
  simpl. apply IH.
Qed.

(** X14: the engine sets no constraint.  The tree the builder makes has
    none, and neither [removeId] nor [pushTree] brings one into a tree that
    has none. *)
Theorem engine_sets_no_constraint :
  (forall workArea windows, unconstrained (builtTree workArea windows) = true) /\
  (forall tree,
     unconstrained tree = true ->
     (forall id, unconstrained (removeId tree id) = true) /\
     (forall dm point newTile workArea0 pushed,
        pushTree dm tree point newTile workArea0 = Ok pushed ->
        unconstrained pushed = true)).
Proof.
  split.
  - intros workArea [|w rest]; [reflexivity | apply chainTree_unconstrained].
  - intros tree Hfree. split.
    + intros id. apply removeId_unconstrained, Hfree.
    + intros dm point newTile workArea0 pushed Hrun.
      exact (pushTree_unconstrained _ _ _ _ _ _ Hfree Hrun).
Qed.

(** ** Initial construction, continued *)

Lemma builtTree_tiles (workArea : Rectangle) (windows : list Window) :
  tileIds (builtTree workArea windows) = map get_id windows /\
  populated (builtTree workArea windows)
    || isEmpty (builtTree workArea windows) = true.
Proof.
  destruct windows as [|w rest]; [split; reflexivity |].
  destruct (chainTree_tiles workArea rest 1 (get_id w)) as [Hids Hpop].
  split; [exact Hids | simpl; rewrite Hpop; reflexivity].
Qed.

Lemma insertWindows_empty_root (workArea : Rectangle) (windows : list Window)
  (h : Heap) (root : nat) :
  h !! root = Some emptyRoot ->
  exists h1 cursor,
    insertWindows workArea 0 windows (h, root) = Ok (h1, cursor) /\
    snapshot h1 root = Some (builtTree workArea windows) /\
    length h1 = (length h + 2 * (length windows - 1))%nat /\
    forall i, (i < length h)%nat -> i <> root -> h1 !! i = h !! i.
Proof.
  intros Hroot. pose proof (lookup_lt_Some _ _ _ Hroot) as Hlt.
  destruct windows as [|window rest].
  - exists h, root. split; [reflexivity |]. split; [| split; [simpl; lia | auto]].
    unfold snapshot. apply readTree_leaf. exact Hroot.
  - set (h0 := <[root := HNode.leafOf (PTile (Tile.new (get_id window)))]> h).
    assert (Hrun : insertWindow workArea 0 window (h, root) = Ok (h0, root)).
    { unfold insertWindow. rewrite Hroot. reflexivity. }
    assert (Hcur : h0 !! root
                   = Some (HNode.leafOf (PTile (Tile.new (get_id window))))).
    { unfold h0. apply list_lookup_insert_eq. exact Hlt. }
    assert (Hlen0 : length h0 = length h) by (unfold h0; apply length_insert).
    destruct (insertWindows_chain workArea rest 1 h0 root (get_id window) Hcur)
      as (h1 & cursor1 & Hrest & Hlen & Hsame & Hread).
    exists h1, cursor1. cbn [insertWindows]. rewrite Hrun. cbn [bind].
    split; [exact Hrest |]. split; [| split].
    + unfold snapshot. apply Hread. lia.
    + rewrite Hlen, Hlen0. simpl. lia.
    + intros i Hi Hne. rewrite Hsame by (rewrite ?Hlen0; auto).
      unfold h0. apply list_lookup_insert_ne. congruence.
Qed.

(** The inner loop body on a slot whose root is empty and whose windows are
    all among the windows [autotile] will look up. *)
Lemma initSlot_empty_root (dm : DesktopManager) (tree : list (list nat))
  (monitorIdx workspaceIdx root : nat) (workspace : list Window)
  (row : list nat) (h : Heap) (sc : Screen) :
  workspaces (host dm) !! workspaceIdx = Some workspace ->
  tree !! workspaceIdx = Some row ->
  row !! monitorIdx = Some root ->
  h !! root = Some emptyRoot ->
  let windows := List.filter (eligible monitorIdx) workspace in
  let built := builtTree (workArea dm monitorIdx) windows in
  exists h1,
    snapshot h1 root = Some built /\
    (forall i, (i < length h)%nat -> i <> root -> h1 !! i = h !! i) /\
    (length h <= length h1)%nat /\
    initSlot dm tree monitorIdx (workArea dm monitorIdx) workspaceIdx (h, sc)
    = (sc1 <- autotile dm built sc ;; Ok (h1, sc1)).
Proof.
  intros Hws Hrow Hroot Hempty. cbv zeta.
  destruct (insertWindows_empty_root (workArea dm monitorIdx)
              (List.filter (eligible monitorIdx) workspace) h root Hempty)
    as (h1 & cursor & Hrun & Hsnap & Hlen & Hsame).
  exists h1. split; [exact Hsnap |]. split; [exact Hsame |]. split; [lia |].
  unfold initSlot. rewrite Hws. cbn [orThrow bind].
  rewrite Hrow. cbn [orThrow bind]. rewrite Hroot. cbn [orThrow bind].
  rewrite Hrun. cbn [bind fst]. rewrite Hsnap. reflexivity.
Qed.

(** X15: on a desktop of one monitor and one workspace [#initTree] returns,
    and the one slot of the forest holds the tree the builder makes of the
    eligible windows: one tile for each, in their order. *)
Theorem initTree_one_slot (dm : DesktopManager) (workspace : list Window)
  (sc : Screen) :
  oneMonitor dm ->
  workspaces (host dm) = [workspace] ->
  let windows := List.filter (eligible 0) workspace in
  exists forest,
    initTree dm sc = Ok forest /\
    Forest.slot forest 0 0 = Some (builtTree (workArea dm 0) windows) /\
    tileIds (builtTree (workArea dm 0) windows) = map get_id windows.
Proof.
  intros (Hmon & Hcur & Hact) Hws. cbv zeta.
  unfold initTree. rewrite Hmon, Hws. simpl length.
  cbn [newForest alloc app length replicate forUpTo bind]. fold emptyRoot.
  destruct (initSlot_empty_root dm [[0%nat]] 0 0 0 workspace [0%nat]
              [emptyRoot] sc) as (h1 & Hsnap & _ & _ & ->);
    try reflexivity; [rewrite Hws; reflexivity |].
  destruct (builtTree_tiles (workArea dm 0) (List.filter (eligible 0) workspace))
    as [Hids Hshape].
  assert (Hfit : exists sc1,
             autotile dm (builtTree (workArea dm 0)
                            (List.filter (eligible 0) workspace)) sc = Ok sc1).
  { unfold autotile. rewrite Hcur, Hact, Hws. simpl.
    apply fitTree_returns; [| exact Hshape].
    intros id Hin. rewrite Hids in Hin.
    apply list_elem_of_In, in_map_iff in Hin as (w & Hid & Hin).
    exists w. split; [apply list_elem_of_In, Hin | exact Hid]. }
  destruct Hfit as [sc1 ->]. cbn [bind fst snd].
  eexists. split; [reflexivity |]. split; [| exact Hids].
  unfold Forest.slot. simpl. exact Hsnap.
Qed.

(** X16: [autotile] looks the tiles up among the windows of the active
    workspace, whatever slot it is given.  On a desktop of one monitor and
    two workspaces, an eligible window on the second workspace whose
    identifier no eligible window of the active workspace has makes
    [#initTree] raise the [TypeError] of the failed lookup. *)
Theorem initTree_inactive_workspace_throws (dm : DesktopManager)
  (active other : list Window) (sc : Screen) :
  oneMonitor dm ->
  workspaces (host dm) = [active; other] ->
  (exists w, w ∈ List.filter (eligible 0) other /\
             forall w', w' ∈ List.filter (eligible 0) active ->
                        get_id w' <> get_id w) ->
  initTree dm sc = Throw TypeError.
Proof.
  intros (Hmon & Hcur & Hact) Hws (w & Hw & Hno).
  unfold initTree. rewrite Hmon, Hws. simpl length.
  cbn [newForest alloc app length replicate forUpTo bind]. fold emptyRoot.
  destruct (initSlot_empty_root dm [[0%nat]; [1%nat]] 0 0 0 active [0%nat]
              [emptyRoot; emptyRoot] sc) as (h1 & _ & Hsame & Hlen & ->);
    try reflexivity; [rewrite Hws; reflexivity |].
  destruct (builtTree_tiles (workArea dm 0) (List.filter (eligible 0) active))
    as [Hids Hshape].
  assert (Hfit : exists sc1,
             autotile dm (builtTree (workArea dm 0)
                            (List.filter (eligible 0) active)) sc = Ok sc1).
  { unfold autotile. rewrite Hcur, Hact, Hws. simpl.
    apply fitTree_returns; [| exact Hshape].
    intros id Hin. rewrite Hids in Hin.
    apply list_elem_of_In, in_map_iff in Hin as (w0 & Hid & Hin).
    exists w0. split; [apply list_elem_of_In, Hin | exact Hid]. }
  destruct Hfit as [sc1 ->]. cbn [bind].
  destruct (initSlot_empty_root dm [[0%nat]; [1%nat]] 0 1 1 other [1%nat]
              h1 sc1) as (h2 & _ & _ & _ & ->);
    try reflexivity; [rewrite Hws; reflexivity | |].
  { rewrite Hsame by (simpl; lia). reflexivity. }
  destruct (builtTree_tiles (workArea dm 0) (List.filter (eligible 0) other))
    as [Hids' Hshape'].
  unfold autotile at 1. rewrite Hcur, Hact, Hws. simpl.
  rewrite (fitTree_dangling dm _ _ _ _ Hshape'); [reflexivity |].
  exists (get_id w). split; [| exact Hno].
  rewrite Hids'. apply list_elem_of_In, in_map, list_elem_of_In, Hw.
Qed.

Lemma initTree_one_slot_witness :
  exists forest,
    initTree (desktop 1 area1920x1080 [[plainWindow 1 0; plainWindow 2 0]]
                (settingsOf 10 20)) (screenAt area1000x600) = Ok forest /\
    Forest.slot forest 0 0 = Some sideBySide.
Proof.
  destruct (initTree_one_slot
              (desktop 1 area1920x1080 [[plainWindow 1 0; plainWindow 2 0]]
                 (settingsOf 10 20))
              [plainWindow 1 0; plainWindow 2 0] (screenAt area1000x600))
    as (forest & Hrun & Hslot & _);
    [repeat split | reflexivity |].
  exists forest. split; [exact Hrun | exact Hslot].
Defined.

Lemma initTree_inactive_workspace_throws_witness :
  initTree (desktop 1 area1920x1080 [[plainWindow 1 0]; [plainWindow 2 0]]
              (settingsOf 10 20)) (screenAt area1000x600) = Throw TypeError.
Proof.
  apply (initTree_inactive_workspace_throws _ [plainWindow 1 0] [plainWindow 2 0]);
    [repeat split | reflexivity |].
  exists (plainWindow 2 0). split; [left |].
  intros w Hin. simpl in Hin. apply list_elem_of_singleton in Hin as ->.
  discriminate.
Defined.

(** ** Where the tiles are placed *)






(** X17: the calls of the walk.  On a valid tree a walk that returns has
    asked the host, tile by tile in the order of the walk, nothing for a
    window whose frame was at the rectangle of its tile, and else to
    unmaximize it, move it and resize it to that rectangle less the spacing,
    and to ease the transition. *)
Theorem fitTree_requests (dm : DesktopManager) (tree : Node)
  (workArea : Rectangle) (windows : list Window) (st st1 : Screen) :
  valid tree ->
  fitTree dm tree workArea windows st = Ok st1 ->
  calls st1 = calls st ++ requestsAll dm st (assigned tree workArea).
Proof.
  intros [Hshape Hnd] Hrun.
  rewrite (fitTree_fitAll dm windows tree Hshape) in Hrun.
  apply (fitAll_requests dm windows); [| exact Hrun].
  rewrite (assigned_ids tree Hshape). exact Hnd.
Qed.

Lemma fitTree_requests_witness :
  exists st1,
    fitTree (desktop 1 area1000x600 [] (settingsOf 10 0)) sideBySide
      area1000x600 [plainWindow 1 0; plainWindow 2 0] (screenAt area600x1000)
    = Ok st1 /\
    calls st1
    = [Unmaximize 1; MoveFrame 1 (ofZ 10) (ofZ 10);
       MoveResizeFrame 1 (ofZ 10) (ofZ 10) (ofZ 480) (ofZ 580); Ease 1;
       Unmaximize 2; MoveFrame 2 (ofZ 510) (ofZ 10);
       MoveResizeFrame 2 (ofZ 510) (ofZ 10) (ofZ 480) (ofZ 580); Ease 2].
Proof.
  destruct (fitTree (desktop 1 area1000x600 [] (settingsOf 10 0)) sideBySide
              area1000x600 [plainWindow 1 0; plainWindow 2 0]
              (screenAt area600x1000))
    as [st1|e] eqn:Hrun; [| vm_compute in Hrun; discriminate Hrun].
  exists st1. split; [reflexivity |].
  rewrite (fitTree_requests _ _ _ _ _ _ valid_sideBySide Hrun).
  vm_compute.
  repeat match goal with
         | |- _ = _ => reflexivity
         | |- _ = _ => apply Qc_is_canon; reflexivity
         | |- _ = _ => f_equal
         end.
Defined.



(** ** The objects of a tree *)

Lemma Rep_frame (t : Node) :
  forall h h1 ref fp,
    (forall i, i ∈ fp -> h1 !! i = h !! i) ->
    Rep h t ref fp -> Rep h1 t ref fp.
Proof.
  induction t as [d tl tr IHl IHr] using Node_induction.
  intros h h1 ref fp Hsame (ol & or & fl & fr & Hroot & -> & Hl & Hr).
  exists ol, or, fl, fr. split; [rewrite Hsame; [exact Hroot | left] |].
  split; [reflexivity |]. split.
  - destruct tl as [t0|], ol as [a|]; try exact Hl.
    eapply (IHl t0 eq_refl); [| exact Hl].
    intros i Hi. apply Hsame. right. apply elem_of_app. auto.
  - destruct tr as [t0|], or as [a|]; try exact Hr.
    eapply (IHr t0 eq_refl); [| exact Hr].
    intros i Hi. apply Hsame. right. apply elem_of_app. auto.
Qed.

Lemma Rep_root (h : Heap) (t : Node) (ref : nat) (fp : list nat) :
  Rep h t ref fp ->
  exists n rest, h !! ref = Some n /\ HNode.data n = Node.data t /\ fp = ref :: rest.
Proof.
  destruct t as [d tl tr]. intros (ol & or & fl & fr & Hroot & -> & _).
  eauto 6.
Qed.

Lemma Rep_bound (t : Node) :
  forall h ref fp, Rep h t ref fp -> forall i, i ∈ fp -> (i < length h)%nat.
Proof.
  induction t as [d tl tr IHl IHr] using Node_induction.
  intros h ref fp (ol & or & fl & fr & Hroot & -> & Hl & Hr) i Hi.
  apply elem_of_cons in Hi as [-> | Hi]; [eapply lookup_lt_Some, Hroot |].
  apply elem_of_app in Hi as [Hi | Hi].
  - destruct tl as [t0|], ol as [a|];
      [eapply (IHl t0 eq_refl); eassumption | destruct Hl | destruct Hl |].
    subst fl. apply elem_of_nil in Hi as [].
  - destruct tr as [t0|], or as [a|];
      [eapply (IHr t0 eq_refl); eassumption | destruct Hr | destruct Hr |].
    subst fr. apply elem_of_nil in Hi as [].
Qed.

Lemma Rep_length (t : Node) :
  forall h ref fp, Rep h t ref fp -> (height t <= length fp)%nat.
Proof.
  induction t as [d tl tr IHl IHr] using Node_induction.
  intros h ref fp (ol & or & fl & fr & Hroot & -> & Hl & Hr).
  simpl. rewrite length_app.
  assert (Hhl : (match tl with Some l0 => height l0 | None => 0 end <= length fl)%nat).
  { destruct tl as [t0|], ol as [a|];
      [eapply (IHl t0 eq_refl); eassumption | destruct Hl | destruct Hl | lia]. }
  assert (Hhr : (match tr with Some l0 => height l0 | None => 0 end <= length fr)%nat).
  { destruct tr as [t0|], or as [a|];
      [eapply (IHr t0 eq_refl); eassumption | destruct Hr | destruct Hr | lia]. }
  lia.
Qed.

Lemma Rep_readTree (t : Node) :
  forall h ref fp fuel,
    Rep h t ref fp -> (height t <= fuel)%nat -> readTree fuel h ref = Some t.
Proof.
  induction t as [d tl tr IHl IHr] using Node_induction.
  intros h ref fp fuel (ol & or & fl & fr & Hroot & -> & Hl & Hr) Hfuel.
  destruct fuel as [|fuel]; [simpl in Hfuel; lia |].
  simpl in Hfuel. simpl. rewrite Hroot. simpl.
  assert (Hrl : match ol with
                | Some r => option_map Some (readTree fuel h r)
                | None => Some None
                end = Some tl).
  { destruct tl as [t0|], ol as [a|];
      [| destruct Hl | destruct Hl | reflexivity].
    rewrite (IHl t0 eq_refl h a fl fuel Hl) by lia. reflexivity. }
  assert (Hrr : match or with
                | Some r => option_map Some (readTree fuel h r)
                | None => Some None
                end = Some tr).
  { destruct tr as [t0|], or as [a|];
      [| destruct Hr | destruct Hr | reflexivity].
    rewrite (IHr t0 eq_refl h a fr fuel Hr) by lia. reflexivity. }
  rewrite Hrl, Hrr. reflexivity.
Qed.

Lemma NoDup_bounded_length (l : list nat) (n : nat) :
  NoDup l -> (forall i, i ∈ l -> (i < n)%nat) -> (length l <= n)%nat.
Proof.
  intros Hnd Hb.
  assert (Hsub : l ⊆+ seq 0%nat n).
  { apply NoDup_submseteq; [exact Hnd |].
    intros i Hi. apply elem_of_seq. specialize (Hb i Hi). lia. }
  apply submseteq_length in Hsub. rewrite length_seq in Hsub. exact Hsub.
Qed.

Lemma Owned_snapshot (h : Heap) (t : Node) (ref : nat) (fp : list nat) :
  Owned h t ref fp -> snapshot h ref = Some t.
Proof.
  intros [Hrep Hnd]. unfold snapshot. eapply Rep_readTree; [exact Hrep |].
  pose proof (Rep_length _ _ _ _ Hrep).
  pose proof (NoDup_bounded_length fp (length h) Hnd (Rep_bound _ _ _ _ Hrep)).
  lia.
Qed.

(** ** Removal in place *)

Lemma withChild_same (s : Side) (n : HNode.t) :
  withChild s n (child s n) = n.
Proof. destruct s, n; reflexivity. Qed.

Lemma Rep_isContainer (h : Heap) (t : Node) (ref : nat) (fp : list nat) (n : HNode.t) :
  Rep h t ref fp -> h !! ref = Some n ->
  isContainerH n = isContainer t /\
  forall id, isTileWithIdH n id = isTileWithId t id.
Proof.
  intros Hrep Hn. destruct (Rep_root _ _ _ _ Hrep) as (n' & rest & Hn' & Hd & _).
  rewrite Hn in Hn'. injection Hn' as <-.
  unfold isContainerH, isContainer, isTileWithIdH, isTileWithId. rewrite Hd.
  split; reflexivity.
Qed.

Lemma removeBelow_Rep (id : Z) (s : Side) (fuel0 : nat) (h : Heap) (ref : nat)
  (n : HNode.t) (tc : Node) (a : nat) (fc : list nat) :
  removeIdH_spec id tc ->
  (height tc <= fuel0)%nat ->
  h !! ref = Some n -> child s n = Some a ->
  Rep h tc a fc -> NoDup fc -> ref ∉ fc ->
  exists h1 a1 fc1,
    removeBelow (fun h0 r => removeIdH fuel0 h0 r id) s h ref = Ok h1 /\
    h1 !! ref = Some (withChild s n (Some a1)) /\
    Rep h1 (if isContainer tc then removeId tc id else tc) a1 fc1 /\
    sublist fc1 fc /\
    (forall i, i <> ref -> i ∉ fc -> h1 !! i = h !! i) /\
    length h1 = length h.
Proof.
  intros IH Hfuel Href Hchild Hrep Hnd Hfresh.
  destruct (Rep_root _ _ _ _ Hrep) as (na & rest & Hna & _ & _).
  destruct (Rep_isContainer _ _ _ _ _ Hrep Hna) as [Hc _].
  unfold removeBelow. cbn [deref]. rewrite Href. cbn [bind orThrow].
  rewrite Hchild. cbn [deref]. rewrite Hna. cbn [bind orThrow].
  rewrite Hc. destruct (isContainer tc).
  - destruct (IH fuel0 h a fc Hfuel Hrep Hnd)
      as (hc & a1 & fc1 & Hrun & Hrep1 & Hsub & Hsame & Hlen).
    cbv beta. rewrite Hrun. cbn [bind fst snd].
    assert (Hrefc : hc !! ref = Some n) by (rewrite Hsame; assumption).
    unfold setChild. rewrite Hrefc.
    exists (<[ref := withChild s n (Some a1)]> hc), a1, fc1.
    split; [reflexivity |]. split.
    { apply list_lookup_insert_eq. rewrite Hlen. eapply lookup_lt_Some, Href. }
    split.
    { eapply Rep_frame; [| exact Hrep1]. intros i Hi.
      apply list_lookup_insert_ne. intros ->. apply Hfresh.
      eapply elem_of_sublist; eassumption. }
    split; [exact Hsub |]. split.
    { intros i Hne Hi. rewrite list_lookup_insert_ne by congruence.
      apply Hsame, Hi. }
    rewrite length_insert. exact Hlen.
  - exists h, a, fc. split; [reflexivity |].
    split; [rewrite <- Hchild, withChild_same; exact Href |].
    split; [exact Hrep |]. split; [reflexivity |]. split; auto.
Qed.

Lemma removeIdH_all (id : Z) (t : Node) : removeIdH_spec id t.
Proof.
  induction t as [d tl tr IHl IHr] using Node_induction.
  intros fuel h ref fp Hfuel Hrep Hnd.
  destruct fuel as [|fuel0]; [simpl in Hfuel; lia |].
  pose proof Hrep as (ol & or & fl & fr & Hroot & -> & Hl & Hr).
  assert (Hother :
    (forall c l r, d = PContainer c -> tl = Some l -> tr = Some r -> False) ->
    exists h1 ref1 fp1,
      (node3 <- deref h (Some ref) ;;
       if isTileWithIdH node3 id
       then Ok (setData h ref (PContainer (Container.new Horizontal)), ref)
       else Ok (h, ref)) = Ok (h1, ref1) /\
      Rep h1 (if isTileWithId (Node.mk d tl tr) id
              then Node.mk (PContainer (Container.new Horizontal)) tl tr
              else Node.mk d tl tr) ref1 fp1 /\
      sublist fp1 (ref :: fl ++ fr) /\
      (forall i, i ∉ ref :: fl ++ fr -> h1 !! i = h !! i) /\
      length h1 = length h).
  { intros _. cbn [deref]. rewrite Hroot. cbn [bind orThrow].
    unfold isTileWithIdH, isTileWithId. cbn [HNode.data Node.data].
    destruct d as [t0|c0]; [destruct (Z.eqb (Tile.id t0) id) |].
    - unfold setData. rewrite Hroot. cbn [HNode.left HNode.right].
      eexists _, ref, (ref :: fl ++ fr). split; [reflexivity |].
      split.
      { exists ol, or, fl, fr.
        split; [apply list_lookup_insert_eq; eapply lookup_lt_Some, Hroot |].
        split; [reflexivity |].
        apply NoDup_cons in Hnd as [Hfresh Hnd].
        split.
        - destruct tl as [t1|], ol as [a|]; try exact Hl.
          eapply Rep_frame; [| exact Hl]. intros i Hi.
          apply list_lookup_insert_ne. intros ->. apply Hfresh.
          apply elem_of_app. auto.
        - destruct tr as [t1|], or as [a|]; try exact Hr.
          eapply Rep_frame; [| exact Hr]. intros i Hi.
          apply list_lookup_insert_ne. intros ->. apply Hfresh.
          apply elem_of_app. auto. }
      split; [reflexivity |]. split; [| apply length_insert].
      intros i Hi. apply list_lookup_insert_ne. intros ->. apply Hi. left.
    - exists h, ref, (ref :: fl ++ fr). split; [reflexivity |].
      split; [exact Hrep |]. split; [reflexivity |]. split; auto.
    - exists h, ref, (ref :: fl ++ fr). split; [reflexivity |].
      split; [exact Hrep |]. split; [reflexivity |]. split; auto. }
  cbn [removeIdH deref]. rewrite Hroot. cbn [bind orThrow HNode.data HNode.left HNode.right].
  destruct d as [t0|c].
  { cbn [bind snd fst].
    destruct ol, or; cbn [bind snd fst];
      (destruct Hother as (h1 & ref1 & fp1 & Hrun & Hrep1 & Hrest);
       [intros; discriminate |]);
      exists h1, ref1, fp1; (split; [exact Hrun |]);
      (split; [| exact Hrest]); destruct tl, tr; exact Hrep1. }
  destruct tl as [l|], ol as [a|]; try (destruct Hl; fail).
  2:{ cbn [bind snd fst].
      destruct or; cbn [bind snd fst];
      (destruct Hother as (h1 & ref1 & fp1 & Hrun & Hrep1 & Hrest);
       [intros; discriminate |]);
      exists h1, ref1, fp1; (split; [exact Hrun |]);
      (split; [| exact Hrest]); destruct tr; exact Hrep1. }
  destruct tr as [r|], or as [b|]; try (destruct Hr; fail).
  2:{ cbn [bind snd fst].
      (destruct Hother as (h1 & ref1 & fp1 & Hrun & Hrep1 & Hrest);
       [intros; discriminate |]);
      exists h1, ref1, fp1; (split; [exact Hrun |]);
      (split; [| exact Hrest]); exact Hrep1. }
  clear Hother.
  apply NoDup_cons in Hnd as [Hfresh Hnd].
  apply NoDup_app in Hnd as (Hndl & Hdisj & Hndr).
  simpl in Hfuel.
  (* the left child *)
  destruct (removeBelow_Rep id Left fuel0 h ref _ l a fl (IHl l eq_refl)
              ltac:(lia) Hroot eq_refl Hl Hndl
              ltac:(intros Hi; apply Hfresh, elem_of_app; auto))
    as (h1 & a1 & fl1 & Hrun1 & Hroot1 & Hl1 & Hsubl & Hsame1 & Hlen1).
  rewrite Hrun1. cbn [bind withChild HNode.data HNode.left HNode.right] in Hroot1 |- *.
  assert (Hr1 : Rep h1 r b fr).
  { eapply Rep_frame; [| exact Hr]. intros i Hi. apply Hsame1.
    - intros ->. apply Hfresh, elem_of_app. auto.
    - intros Hil. exact (Hdisj i Hil Hi). }
  (* the right child *)
  destruct (removeBelow_Rep id Right fuel0 h1 ref _ r b fr (IHr r eq_refl)
              ltac:(lia) Hroot1 eq_refl Hr1 Hndr
              ltac:(intros Hi; apply Hfresh, elem_of_app; auto))
    as (h2 & b1 & fr1 & Hrun2 & Hroot2 & Hr2 & Hsubr & Hsame2 & Hlen2).
  rewrite Hrun2. cbn [bind withChild HNode.data HNode.left HNode.right] in Hroot2 |- *.
  assert (Hl2 : Rep h2 (if isContainer l then removeId l id else l) a1 fl1).
  { eapply Rep_frame; [| exact Hl1]. intros i Hi. apply Hsame2.
    - intros ->. apply Hfresh, elem_of_app. left.
      exact (elem_of_sublist _ _ _ Hi Hsubl).
    - intros Hir. eapply Hdisj; [| exact Hir].
      exact (elem_of_sublist _ _ _ Hi Hsubl). }
  assert (Hsame : forall i, i ∉ ref :: fl ++ fr -> h2 !! i = h !! i).
  { intros i Hi.
    assert (Hne : i <> ref) by (intros ->; apply Hi; left).
    assert (Hil : i ∉ fl) by (intros Hil; apply Hi; right; apply elem_of_app; auto).
    assert (Hir : i ∉ fr) by (intros Hir; apply Hi; right; apply elem_of_app; auto).
    rewrite Hsame2 by assumption. apply Hsame1; assumption. }
  assert (Hlen : length h2 = length h) by congruence.
  cbn [deref]. rewrite Hroot2. cbn [bind orThrow HNode.left HNode.right].
  destruct (Rep_root _ _ _ _ Hl2) as (ln & restl & Hln & _ & _).
  destruct (Rep_root _ _ _ _ Hr2) as (rn & restr & Hrn & _ & _).
  destruct (Rep_isContainer _ _ _ _ _ Hl2 Hln) as [_ Htl].
  destruct (Rep_isContainer _ _ _ _ _ Hr2 Hrn) as [_ Htr].
  cbn [deref]. rewrite Hln. cbn [bind orThrow]. rewrite Htl.
  cbn [removeId]. cbv zeta.
  destruct (isTileWithId (if isContainer l then removeId l id else l) id).
  { cbn [bind snd fst orThrow]. exists h2, b1, fr1.
    split; [reflexivity |]. split; [exact Hr2 |].
    split; [apply sublist_cons, sublist_inserts_l, Hsubr |]. split; assumption. }
  cbn [deref]. rewrite Hrn. cbn [bind orThrow]. rewrite Htr.
  destruct (isTileWithId (if isContainer r then removeId r id else r) id).
  { cbn [bind snd fst orThrow]. exists h2, a1, fl1.
    split; [reflexivity |]. split; [exact Hl2 |].
    split; [apply sublist_cons, sublist_inserts_r, Hsubl |]. split; assumption. }
  cbn [bind snd fst orThrow]. rewrite Hroot2. cbn [bind orThrow].
  unfold isTileWithIdH. cbn [HNode.data].
  exists h2, ref, (ref :: fl1 ++ fr1).
  split; [reflexivity |]. split.
  { exists (Some a1), (Some b1), fl1, fr1. auto. }
  split; [apply sublist_skip, sublist_app; assumption |]. split; assumption.
Qed.

(** X19: the removal in place does what [removeId] says.  On a tree that
    shares no object it returns a reference to the tree [removeId] gives,
    made of objects of the tree it was given; it makes no object and changes
    none outside the tree.  The depth of the recursion is the height of the
    tree, which is at most the number of objects. *)
Theorem removeIdH_refines (h : Heap) (t : Node) (ref : nat) (fp : list nat)
  (id : Z) (fuel : nat) :
  Owned h t ref fp ->
  (height t <= fuel)%nat ->
  (height t <= length h)%nat /\
  exists h1 ref1 fp1,
    removeIdH fuel h ref id = Ok (h1, ref1) /\
    Owned h1 (removeId t id) ref1 fp1 /\
    snapshot h1 ref1 = Some (removeId t id) /\
    sublist fp1 fp /\
    (forall i, i ∉ fp -> h1 !! i = h !! i) /\
    length h1 = length h.
Proof.
  intros [Hrep Hnd] Hfuel. split.
  { pose proof (Rep_length _ _ _ _ Hrep).
    pose proof (NoDup_bounded_length fp (length h) Hnd (Rep_bound _ _ _ _ Hrep)).
    lia. }
  destruct (removeIdH_all id t fuel h ref fp Hfuel Hrep Hnd)
    as (h1 & ref1 & fp1 & Hrun & Hrep1 & Hsub & Hsame & Hlen).
  assert (Hown : Owned h1 (removeId t id) ref1 fp1).
  { split; [exact Hrep1 | eapply sublist_NoDup; eassumption]. }
  exists h1, ref1, fp1. split; [exact Hrun |]. split; [exact Hown |].
  split; [apply (Owned_snapshot _ _ _ _ Hown) |]. auto.
Qed.

(** ** Insertion in place *)

Lemma setData_at (h : Heap) (ref : nat) (d : Payload) (n : HNode.t) :
  h !! ref = Some n ->
  setData h ref d = <[ref := HNode.mk d (HNode.left n) (HNode.right n)]> h.
Proof. intros H. unfold setData. rewrite H. reflexivity. Qed.

Lemma setChild_at (s : Side) (h : Heap) (ref : nat) (v : option nat) (n : HNode.t) :
  h !! ref = Some n ->
  setChild s h ref v = <[ref := withChild s n v]> h.
Proof. intros H. unfold setChild. rewrite H. reflexivity. Qed.

Lemma splitTile_heap (h : Heap) (ref : nat) (c : Container) (a b : Payload)
  (n : HNode.t) :
  h !! ref = Some n ->
  splitTile h ref c a b !! ref
    = Some (HNode.mk (PContainer c) (Some (length h)) (Some (S (length h)))) /\
  splitTile h ref c a b !! length h = Some (HNode.leafOf a) /\
  splitTile h ref c a b !! S (length h) = Some (HNode.leafOf b) /\
  (forall i, (i < length h)%nat -> i <> ref -> splitTile h ref c a b !! i = h !! i) /\
  length (splitTile h ref c a b) = S (S (length h)).
Proof.
  intros Href. pose proof (lookup_lt_Some _ _ _ Href) as Hlt.
  unfold splitTile, alloc.
  rewrite (setData_at h ref _ n Href).
  set (h1 := <[ref := _]> h).
  assert (Hlen1 : length h1 = length h) by apply length_insert.
  assert (Href1 : h1 !! ref = Some (HNode.mk (PContainer c) (HNode.left n) (HNode.right n)))
    by (apply list_lookup_insert_eq; exact Hlt).
  rewrite (setChild_at Left (h1 ++ _) ref _ _
             ltac:(rewrite lookup_app_l by lia; exact Href1)).
  cbn [withChild HNode.data HNode.left HNode.right].
  set (h3 := <[ref := _]> (h1 ++ _)).
  assert (Hlen3 : length h3 = S (length h)).
  { unfold h3. rewrite length_insert, length_app. simpl. lia. }
  assert (Href3 : h3 !! ref = Some (HNode.mk (PContainer c) (Some (length h1)) (HNode.right n))).
  { apply list_lookup_insert_eq. rewrite length_app. simpl. lia. }
  rewrite (setChild_at Right (h3 ++ _) ref _ _
             ltac:(rewrite lookup_app_l by lia; exact Href3)).
  cbn [withChild HNode.data HNode.left HNode.right].
  rewrite Hlen1, Hlen3.
  split; [apply list_lookup_insert_eq; rewrite length_app; simpl; lia |].
  split.
  { rewrite list_lookup_insert_ne by lia. rewrite lookup_app_l by lia.
    unfold h3. rewrite list_lookup_insert_ne by lia.
    apply list_lookup_middle. exact (eq_sym Hlen1). }
  split.
  { rewrite list_lookup_insert_ne by lia.
    apply list_lookup_middle. exact (eq_sym Hlen3). }
  split.
  { intros i Hi Hne. rewrite list_lookup_insert_ne by congruence.
    rewrite lookup_app_l by lia. unfold h3.
    rewrite list_lookup_insert_ne by congruence.
    rewrite lookup_app_l by lia. unfold h1.
    apply list_lookup_insert_ne. congruence. }
  rewrite length_insert, length_app. simpl. lia.
Qed.

Lemma Rep_same (h : Heap) (t : Node) (ref : nat) (fp : list nat) :
  Rep h t ref fp -> NoDup fp ->
  exists h1 fp1,
    Ok h = Ok h1 :> result Heap /\
    Rep h1 t ref fp1 /\ NoDup fp1 /\
    (forall i, i ∈ fp1 -> i ∈ fp \/ (length h <= i)%nat) /\
    (forall i, (i < length h)%nat -> i ∉ fp -> h1 !! i = h !! i) /\
    (length h <= length h1)%nat.
Proof. intros Hrep Hnd. exists h, fp. repeat split; auto. Qed.

Lemma pushTreeH_all (dm : DesktopManager) (point : Point) (newTile : Tile)
  (t : Node) : pushTreeH_spec dm point newTile t.
Proof.
  induction t as [d tl tr IHl IHr] using Node_induction.
  intros fuel h ref fp workArea0 Hfuel Hrep Hnd.
  destruct fuel as [|fuel0]; [simpl in Hfuel; lia |].
  pose proof Hrep as (ol & or & fl & fr & Hroot & Hfp & Hl & Hr).
  pose proof (lookup_lt_Some _ _ _ Hroot) as Hlt.
  cbn [pushTree pushTreeH]. cbv zeta.
  set (workArea := match workArea0 with Some w => w | None => _ end).
  destruct (pointInRectangle point workArea) eqn:Hin; cbn [negb];
    [| apply Rep_same; assumption].
  cbn [deref]. rewrite Hroot. cbn [bind orThrow HNode.data HNode.left HNode.right].
  destruct d as [temp|c].
  - (* a tile *)
    assert (Hok : forall a b,
      exists h1 fp1,
        Ok (splitTile h ref (SplitResult.container (splitArea workArea None)) a b)
          = Ok h1 :> result Heap /\
        Rep h1 (Node.mk (PContainer (SplitResult.container (splitArea workArea None)))
                  (Some (Node.leaf a)) (Some (Node.leaf b))) ref fp1 /\
        NoDup fp1 /\
        (forall i, i ∈ fp1 -> i ∈ fp \/ (length h <= i)%nat) /\
        (forall i, (i < length h)%nat -> i ∉ fp -> h1 !! i = h !! i) /\
        (length h <= length h1)%nat).
    { intros a b.
      destruct (splitTile_heap h ref (SplitResult.container (splitArea workArea None))
                  a b _ Hroot) as (H0 & H1 & H2 & Hsame & Hlen).
      eexists _, [ref; length h; S (length h)]. split; [reflexivity |].
      split.
      { exists (Some (length h)), (Some (S (length h))), [length h], [S (length h)].
        split; [exact H0 |]. split; [reflexivity |].
        split; exists None, None, [], []; auto. }
      split.
      { apply NoDup_cons. split.
        - intros Hi. apply elem_of_cons in Hi as [-> | Hi]; [lia |].
          apply list_elem_of_singleton in Hi. lia.
        - apply NoDup_cons. split; [| apply NoDup_singleton].
          intros Hi. apply list_elem_of_singleton in Hi. lia. }
      split.
      { intros i Hi. apply elem_of_cons in Hi as [-> | Hi];
          [left; rewrite Hfp; left |].
        right. apply elem_of_cons in Hi as [-> | Hi]; [lia |].
        apply list_elem_of_singleton in Hi. lia. }
      split; [| lia].
      intros i Hi Hni. apply Hsame; [exact Hi |].
      intros ->. apply Hni. rewrite Hfp. left. }
    destruct tl, tr, ol, or; try (destruct Hl; fail); try (destruct Hr; fail);
      destruct (pointInRectangle point (SplitResult.left (splitArea workArea None)));
      apply Hok.
  - (* a container *)
    destruct tl as [l|], ol as [a|]; try (destruct Hl; fail);
      destruct tr as [r|], or as [b|]; try (destruct Hr; fail);
      try reflexivity.
    + (* both children *)
      subst fp.
      apply NoDup_cons in Hnd as [Hfresh Hnd].
      apply NoDup_app in Hnd as (Hndl & Hdisj & Hndr).
      simpl in Hfuel.
      set (s := splitArea workArea (Some c)).
      pose proof (IHl l eq_refl fuel0 h a fl (Some (SplitResult.left s))
                    ltac:(lia) Hl Hndl) as Hleft.
      destruct (pushTree dm l point newTile (Some (SplitResult.left s))) as [l1|e];
        [| rewrite Hleft; reflexivity].
      destruct Hleft as (h1 & fl1 & Hrun1 & Hl1 & Hndl1 & Hfl1 & Hsame1 & Hlen1).
      rewrite Hrun1. cbn [bind].
      assert (Hroot1 : h1 !! ref = Some (HNode.mk (PContainer c) (Some a) (Some b))).
      { rewrite Hsame1; [exact Hroot | exact Hlt |].
        intros Hi. apply Hfresh, elem_of_app. auto. }
      assert (Hr1 : Rep h1 r b fr).
      { eapply Rep_frame; [| exact Hr]. intros i Hi. apply Hsame1.
        - eapply Rep_bound; eassumption.
        - intros Hil. exact (Hdisj i Hil Hi). }
      cbn [deref]. rewrite Hroot1. cbn [bind orThrow HNode.right].
      pose proof (IHr r eq_refl fuel0 h1 b fr (Some (SplitResult.right s))
                    ltac:(lia) Hr1 Hndr) as Hright.
      destruct (pushTree dm r point newTile (Some (SplitResult.right s))) as [r1|e];
        [| rewrite Hright; reflexivity].
      destruct Hright as (h2 & fr1 & Hrun2 & Hr2 & Hndr1 & Hfr1 & Hsame2 & Hlen2).
      cbn [bind].
      exists h2, (ref :: fl1 ++ fr1). split; [exact Hrun2 |].
      assert (Hbl1 := Rep_bound _ _ _ _ Hl1).
      assert (Hbl := Rep_bound _ _ _ _ Hl).
      assert (Hbr := Rep_bound _ _ _ _ Hr).
      assert (Hfl1r : forall i, i ∈ fl1 -> i ∉ fr).
      { intros i Hi Hir. destruct (Hfl1 i Hi) as [Hil | Hge].
        - exact (Hdisj i Hil Hir).
        - specialize (Hbr i Hir). lia. }
      assert (Hl2 : Rep h2 l1 a fl1).
      { eapply Rep_frame; [| exact Hl1]. intros i Hi. apply Hsame2.
        - apply Hbl1, Hi.
        - apply Hfl1r, Hi. }
      split.
      { exists (Some a), (Some b), fl1, fr1.
        split; [| auto].
        rewrite Hsame2; [exact Hroot1 | lia |].
        intros Hi. apply Hfresh, elem_of_app. auto. }
      split.
      { apply NoDup_cons. split.
        - intros Hi. apply elem_of_app in Hi as [Hi | Hi].
          + destruct (Hfl1 _ Hi) as [Hil | Hge]; [| lia].
            apply Hfresh, elem_of_app. auto.
          + destruct (Hfr1 _ Hi) as [Hir | Hge]; [| lia].
            apply Hfresh, elem_of_app. auto.
        - apply NoDup_app. split; [exact Hndl1 |]. split; [| exact Hndr1].
          intros i Hi Hir. destruct (Hfr1 _ Hir) as [Hir0 | Hge].
          + exact (Hfl1r i Hi Hir0).
          + specialize (Hbl1 i Hi). lia. }
      split.
      { intros i Hi. apply elem_of_cons in Hi as [-> | Hi]; [left; left |].
        apply elem_of_app in Hi as [Hi | Hi].
        - destruct (Hfl1 _ Hi) as [Hil | Hge]; [left | right; lia].
          right. apply elem_of_app. auto.
        - destruct (Hfr1 _ Hi) as [Hir | Hge]; [left | right; lia].
          right. apply elem_of_app. auto. }
      split; [| lia].
      intros i Hi Hni.
      assert (Hne : i ∉ fl) by (intros H; apply Hni; right; apply elem_of_app; auto).
      assert (Hne' : i ∉ fr) by (intros H; apply Hni; right; apply elem_of_app; auto).
      rewrite Hsame2 by (assumption || lia). apply Hsame1; assumption.
    + (* the empty root *)
      subst fl fr. rewrite (setData_at h ref _ _ Hroot).
      cbn [HNode.left HNode.right].
      eexists _, fp. split; [reflexivity |]. split.
      { exists None, None, [], []. split; [apply list_lookup_insert_eq, Hlt |].
        auto. }
      split; [exact Hnd |]. split; [auto |]. split; [| rewrite length_insert; lia].
      intros i Hi Hni. apply list_lookup_insert_ne. intros ->. apply Hni.
      rewrite Hfp. left.
Qed.

(** X20: the insertion in place does what [pushTree] says.  On a tree that
    shares no object it leaves at the same root the tree [pushTree] gives,
    again sharing no object, and changes no other object that was there; it
    throws what [pushTree] throws. *)
Theorem pushTreeH_refines (dm : DesktopManager) (h : Heap) (t : Node)
  (ref : nat) (fp : list nat) (point : Point) (newTile : Tile)
  (workArea0 : option Rectangle) (fuel : nat) :
  Owned h t ref fp ->
  (height t <= fuel)%nat ->
  match pushTree dm t point newTile workArea0 with
  | Ok pushed =>
      exists h1 fp1,
        pushTreeH fuel dm h ref point newTile workArea0 = Ok h1 /\
        Owned h1 pushed ref fp1 /\
        snapshot h1 ref = Some pushed /\
        (forall i, (i < length h)%nat -> i ∉ fp -> h1 !! i = h !! i) /\
        (length h <= length h1)%nat
  | Throw e => pushTreeH fuel dm h ref point newTile workArea0 = Throw e
  end.
Proof.
  intros [Hrep Hnd] Hfuel.
  pose proof (pushTreeH_all dm point newTile t fuel h ref fp workArea0
                Hfuel Hrep Hnd) as Hrun.
  destruct (pushTree dm t point newTile workArea0) as [pushed|e]; [| exact Hrun].
  destruct Hrun as (h1 & fp1 & Hrun & Hrep1 & Hnd1 & _ & Hsame & Hlen).
  exists h1, fp1. split; [exact Hrun |].
  split; [split; assumption |].
  split; [apply (Owned_snapshot h1 pushed ref fp1); split; assumption |].
  split; assumption.
Qed.

(** ** The handlers of the window events *)

Lemma Owned_height (h : Heap) (t : Node) (ref : nat) (fp : list nat) :
  Owned h t ref fp -> (height t <= length h)%nat.
Proof.
  intros [Hrep Hnd].
  pose proof (Rep_length _ _ _ _ Hrep).
  pose proof (NoDup_bounded_length fp (length h) Hnd (Rep_bound _ _ _ _ Hrep)).
  lia.
Qed.

Lemma Owned_frame (h h1 : Heap) (t : Node) (ref : nat) (fp : list nat) :
  (forall i, i ∈ fp -> h1 !! i = h !! i) ->
  Owned h t ref fp -> Owned h1 t ref fp.
Proof. intros Hsame [Hrep Hnd]. split; [eapply Rep_frame; eassumption | exact Hnd]. Qed.

Lemma currentSlot_root (dm : DesktopManager) (f : Forest.t) (root : nat) :
  currentRoot dm f root -> App.currentSlot dm f = Ok root.
Proof.
  intros (row & Hrow & Hroot). unfold App.currentSlot.
  rewrite Hrow. cbn [bind orThrow]. rewrite Hroot. reflexivity.
Qed.

Lemma slot_root (dm : DesktopManager) (f : Forest.t) (root : nat) :
  currentRoot dm f root ->
  Forest.slot f (active_workspace (host dm)) (get_current_monitor (host dm))
  = snapshot (Forest.heap f) root.
Proof.
  intros (row & Hrow & Hroot). unfold Forest.slot. rewrite Hrow, Hroot.
  reflexivity.
Qed.

Lemma App_pushTree_run (dm : DesktopManager) (f : Forest.t) (root : nat)
  (t : Node) (fp : list nat) (pointer : Point) (tile : Tile) :
  currentRoot dm f root ->
  Owned (Forest.heap f) t root fp ->
  match pushTree dm t pointer tile None with
  | Ok pushed =>
      match autotile dm pushed (Forest.screen f) with
      | Ok sc1 =>
          exists h1 fp1,
            App.pushTree dm f WindowType.NORMAL pointer tile
              = Ok (Forest.mk (Forest.tree f) h1 sc1) /\
            Owned h1 pushed root fp1 /\
            (forall i, (i < length (Forest.heap f))%nat -> i ∉ fp ->
                       h1 !! i = Forest.heap f !! i)
      | Throw e => App.pushTree dm f WindowType.NORMAL pointer tile = Throw e
      end
  | Throw e => App.pushTree dm f WindowType.NORMAL pointer tile = Throw e
  end.
Proof.
  intros Hslot Hown.
  pose proof (pushTreeH_all dm pointer tile t (length (Forest.heap f))
                (Forest.heap f) root fp None (Owned_height _ _ _ _ Hown)
                (proj1 Hown) (proj2 Hown)) as Hrun.
  unfold App.pushTree. rewrite (currentSlot_root _ _ _ Hslot). cbn [bind].
  destruct (pushTree dm t pointer tile None) as [pushed|e];
    [| rewrite Hrun; reflexivity].
  destruct Hrun as (h1 & fp1 & Hrun & Hrep1 & Hnd1 & _ & Hsame & Hlen).
  rewrite Hrun. cbn [bind].
  rewrite (Owned_snapshot h1 pushed root fp1 (conj Hrep1 Hnd1)).
  cbn [bind orThrow].
  destruct (autotile dm pushed (Forest.screen f)) as [sc1|e]; [| reflexivity].
  cbn [bind]. exists h1, fp1. split; [reflexivity |].
  split; [split; assumption | exact Hsame].
Qed.

Lemma App_popTree_run (dm : DesktopManager) (f : Forest.t) (root : nat)
  (t : Node) (fp : list nat) (id : Z) :
  currentRoot dm f root ->
  Owned (Forest.heap f) t root fp ->
  match autotile dm (removeId t id) (Forest.screen f) with
  | Ok sc1 =>
      exists f1 root1 fp1,
        App.popTree dm f WindowType.NORMAL id = Ok f1 /\
        currentRoot dm f1 root1 /\
        Owned (Forest.heap f1) (removeId t id) root1 fp1 /\
        Forest.screen f1 = sc1 /\
        sublist fp1 fp /\
        (forall i, i ∉ fp -> Forest.heap f1 !! i = Forest.heap f !! i) /\
        length (Forest.heap f1) = length (Forest.heap f) /\
        (forall w m,
           (w, m) <> (active_workspace (host dm), get_current_monitor (host dm)) ->
           (Forest.tree f1 !! w) ≫= (.!! m) = (Forest.tree f !! w) ≫= (.!! m))
  | Throw e => App.popTree dm f WindowType.NORMAL id = Throw e
  end.
Proof.
  intros (row & Hrow & Hroot) Hown.
  destruct (removeIdH_all id t (length (Forest.heap f)) (Forest.heap f) root fp
              (Owned_height _ _ _ _ Hown) (proj1 Hown) (proj2 Hown))
    as (h1 & root1 & fp1 & Hrun & Hrep1 & Hsub & Hsame & Hlen).
  assert (Hown1 : Owned h1 (removeId t id) root1 fp1).
  { split; [exact Hrep1 | eapply sublist_NoDup; [exact (proj2 Hown) | exact Hsub]]. }
  unfold App.popTree. rewrite Hrow. cbn [bind orThrow]. rewrite Hroot.
  cbn [bind orThrow]. rewrite Hrun. cbn [bind fst snd].
  rewrite (Owned_snapshot _ _ _ _ Hown1). cbn [bind orThrow].
  destruct (autotile dm (removeId t id) (Forest.screen f)) as [sc1|e];
    [| reflexivity].
  cbn [bind]. eexists _, root1, fp1. split; [reflexivity |].
  cbn [Forest.tree Forest.heap Forest.screen].
  split.
  { exists (<[get_current_monitor (host dm) := root1]> row). split.
    - apply list_lookup_insert_eq. eapply lookup_lt_Some, Hrow.
    - apply list_lookup_insert_eq. eapply lookup_lt_Some, Hroot. }
  split; [exact Hown1 |]. split; [reflexivity |]. split; [exact Hsub |].
  split; [exact Hsame |]. split; [exact Hlen |].
  intros w m Hne.
  destruct (decide (w = active_workspace (host dm))) as [-> | Hw].
  - rewrite list_lookup_insert_eq by (eapply lookup_lt_Some, Hrow).
    rewrite Hrow. cbn. apply list_lookup_insert_ne. congruence.
  - rewrite list_lookup_insert_ne by congruence. reflexivity.
Qed.

Lemma sideBySide_owned : Owned sideBySideHeap sideBySide 0 [0; 1; 2]%nat.
Proof.
  split.
  - exists (Some 1%nat), (Some 2%nat), [1%nat], [2%nat].
    split; [reflexivity |]. split; [reflexivity |].
    split; exists None, None, [], []; auto.
  - apply (bool_decide_unpack _). vm_compute. exact I.
Defined.

Lemma sideBySide_current : currentRoot threeWindows sideBySideForest 0.
Proof. exists [0%nat]. split; reflexivity. Defined.

Lemma removeIdH_refines_witness :
  (height sideBySide <= length sideBySideHeap)%nat /\
  exists h1 ref1 fp1,
    removeIdH 2 sideBySideHeap 0 1 = Ok (h1, ref1) /\
    Owned h1 (removeId sideBySide 1) ref1 fp1 /\
    snapshot h1 ref1 = Some (removeId sideBySide 1) /\
    sublist fp1 [0; 1; 2]%nat /\
    (forall i, i ∉ [0; 1; 2]%nat -> h1 !! i = sideBySideHeap !! i) /\
    length h1 = length sideBySideHeap.
Proof.
  apply (removeIdH_refines sideBySideHeap sideBySide 0 [0; 1; 2]%nat 1 2).
  - exact sideBySide_owned.
  - simpl. lia.
Defined.

Lemma pushTreeH_refines_witness :
  match pushTree threeWindows sideBySide (Point.mk (ofZ 100) (ofZ 100))
          (Tile.new 3) None with
  | Ok pushed =>
      exists h1 fp1,
        pushTreeH 2 threeWindows sideBySideHeap 0 (Point.mk (ofZ 100) (ofZ 100))
          (Tile.new 3) None = Ok h1 /\
        Owned h1 pushed 0 fp1 /\
        snapshot h1 0 = Some pushed /\
        (forall i, (i < length sideBySideHeap)%nat -> i ∉ [0; 1; 2]%nat ->
                   h1 !! i = sideBySideHeap !! i) /\
        (length sideBySideHeap <= length h1)%nat
  | Throw e =>
      pushTreeH 2 threeWindows sideBySideHeap 0 (Point.mk (ofZ 100) (ofZ 100))
        (Tile.new 3) None = Throw e
  end.
Proof.
  apply (pushTreeH_refines threeWindows sideBySideHeap sideBySide 0
           [0; 1; 2]%nat (Point.mk (ofZ 100) (ofZ 100)) (Tile.new 3) None 2).
  - exact sideBySide_owned.
  - simpl. lia.
Defined.

Lemma pushTree_removeId_slot (dm : DesktopManager) (tree : Node) (point : Point)
  (newTile : Tile) (workArea0 : option Rectangle) :
  populated tree = true \/ tree = emptySlot ->
  Tile.id newTile ∉ tileIds tree ->
  exists pushed,
    pushTree dm tree point newTile workArea0 = Ok pushed /\
    removeId pushed (Tile.id newTile) = tree.
Proof.
  intros [Hpop | ->] Hfresh.
  - apply pushTree_removeId_populated; assumption.
  - destruct (pointInRectangle point (resolved dm workArea0)) eqn:Hin.
    + exists (Node.leaf (PTile newTile)). split.
      * destruct workArea0; unfold resolved in Hin; simpl in *; rewrite Hin;
          reflexivity.
      * unfold Node.leaf, removeId, isTileWithId. simpl.
        rewrite Z.eqb_refl. reflexivity.
    + exists emptySlot. split; [apply pushTree_not_inside, Hin | reflexivity].
Qed.

(** X21: the handler of a window that appears.  On a slot whose tree shares
    no object, [#pushTree] for a window of type NORMAL is the push of the
    tile at the pointer followed by the fit of the pushed tree: it throws
    when one of them throws, and else the slot holds the pushed tree, the
    forest holds the references it held, and a tree apart from the slot's is
    as it was. *)
Theorem App_pushTree_slot (dm : DesktopManager) (f : Forest.t) (root : nat)
  (t : Node) (fp : list nat) (pointer : Point) (tile : Tile) :
  currentRoot dm f root ->
  Owned (Forest.heap f) t root fp ->
  match pushed <- pushTree dm t pointer tile None ;;
        sc1 <- autotile dm pushed (Forest.screen f) ;; Ok (pushed, sc1) with
  | Ok (pushed, sc1) =>
      exists f1,
        App.pushTree dm f WindowType.NORMAL pointer tile = Ok f1 /\
        Forest.tree f1 = Forest.tree f /\
        Forest.slot f1 (active_workspace (host dm)) (get_current_monitor (host dm))
          = Some pushed /\
        Forest.screen f1 = sc1 /\
        (forall t' root' fp',
           Owned (Forest.heap f) t' root' fp' ->
           (forall i, i ∈ fp' -> i ∉ fp) ->
           Owned (Forest.heap f1) t' root' fp')
  | Throw e => App.pushTree dm f WindowType.NORMAL pointer tile = Throw e
  end.
Proof.
  intros Hslot Hown.
  pose proof (App_pushTree_run dm f root t fp pointer tile Hslot Hown) as Hrun.
  destruct (pushTree dm t pointer tile None) as [pushed|e]; [| exact Hrun].
  cbn [bind].
  destruct (autotile dm pushed (Forest.screen f)) as [sc1|e]; [| exact Hrun].
  cbn [bind].
  destruct Hrun as (h1 & fp1 & Hrun & Hown1 & Hsame).
  eexists. split; [exact Hrun |]. split; [reflexivity |].
  split.
  { rewrite (slot_root dm _ root) by exact Hslot.
    apply (Owned_snapshot _ _ _ _ Hown1). }
  split; [reflexivity |].
  intros t' root' fp' Hown' Hdisj. cbn [Forest.heap].
  eapply Owned_frame; [| exact Hown'].
  intros i Hi. apply Hsame; [| apply Hdisj, Hi].
  eapply Rep_bound; [exact (proj1 Hown') | exact Hi].
Qed.

Lemma App_pushTree_slot_witness :
  match pushed <- pushTree threeWindows sideBySide (Point.mk (ofZ 100) (ofZ 100))
                    (Tile.new 3) None ;;
        sc1 <- autotile threeWindows pushed (Forest.screen sideBySideForest) ;;
        Ok (pushed, sc1) with
  | Ok (pushed, sc1) =>
      exists f1,
        App.pushTree threeWindows sideBySideForest WindowType.NORMAL
          (Point.mk (ofZ 100) (ofZ 100)) (Tile.new 3) = Ok f1 /\
        Forest.tree f1 = Forest.tree sideBySideForest /\
        Forest.slot f1 0 0 = Some pushed /\
        Forest.screen f1 = sc1 /\
        (forall t' root' fp',
           Owned (Forest.heap sideBySideForest) t' root' fp' ->
           (forall i, i ∈ fp' -> i ∉ [0; 1; 2]%nat) ->
           Owned (Forest.heap f1) t' root' fp')
  | Throw e =>
      App.pushTree threeWindows sideBySideForest WindowType.NORMAL
        (Point.mk (ofZ 100) (ofZ 100)) (Tile.new 3) = Throw e
  end.
Proof.
  apply (App_pushTree_slot threeWindows sideBySideForest 0 sideBySide
           [0; 1; 2]%nat (Point.mk (ofZ 100) (ofZ 100)) (Tile.new 3)).
  - exact sideBySide_current.
  - exact sideBySide_owned.
Defined.

(** X22: the handler of a window that leaves.  On a slot whose tree shares
    no object, [#popTree] for a window of type NORMAL assigns the slot the
    tree [removeId] gives and fits it: it throws when the fit throws, and
    else the slot holds that tree, no object is made, the other slots hold
    the references they held, and a tree apart from the slot's is as it
    was. *)
Theorem App_popTree_slot (dm : DesktopManager) (f : Forest.t) (root : nat)
  (t : Node) (fp : list nat) (id : Z) :
  currentRoot dm f root ->
  Owned (Forest.heap f) t root fp ->
  match autotile dm (removeId t id) (Forest.screen f) with
  | Ok sc1 =>
      exists f1,
        App.popTree dm f WindowType.NORMAL id = Ok f1 /\
        Forest.slot f1 (active_workspace (host dm)) (get_current_monitor (host dm))
          = Some (removeId t id) /\
        Forest.screen f1 = sc1 /\
        length (Forest.heap f1) = length (Forest.heap f) /\
        (forall w m,
           (w, m) <> (active_workspace (host dm), get_current_monitor (host dm)) ->
           (Forest.tree f1 !! w) ≫= (.!! m) = (Forest.tree f !! w) ≫= (.!! m)) /\
        (forall t' root' fp',
           Owned (Forest.heap f) t' root' fp' ->
           (forall i, i ∈ fp' -> i ∉ fp) ->
           Owned (Forest.heap f1) t' root' fp')
  | Throw e => App.popTree dm f WindowType.NORMAL id = Throw e
  end.
Proof.
  intros Hslot Hown.
  pose proof (App_popTree_run dm f root t fp id Hslot Hown) as Hrun.
  destruct (autotile dm (removeId t id) (Forest.screen f)) as [sc1|e];
    [| exact Hrun].
  destruct Hrun as (f1 & root1 & fp1 & Hrun & Hslot1 & Hown1 & Hsc & _ & Hsame
                    & Hlen & Hrefs).
  exists f1. split; [exact Hrun |]. split.
  { rewrite (slot_root dm _ root1) by exact Hslot1.
    apply (Owned_snapshot _ _ _ _ Hown1). }
  split; [exact Hsc |]. split; [exact Hlen |]. split; [exact Hrefs |].
  intros t' root' fp' Hown' Hdisj.
  eapply Owned_frame; [| exact Hown'].
  intros i Hi. apply Hsame, Hdisj, Hi.
Qed.

Lemma App_popTree_slot_witness :
  match autotile threeWindows (removeId sideBySide 1)
          (Forest.screen sideBySideForest) with
  | Ok sc1 =>
      exists f1,
        App.popTree threeWindows sideBySideForest WindowType.NORMAL 1 = Ok f1 /\
        Forest.slot f1 0 0 = Some (removeId sideBySide 1) /\
        Forest.screen f1 = sc1 /\
        length (Forest.heap f1) = length (Forest.heap sideBySideForest) /\
        (forall w m,
           (w, m) <> (0, 0)%nat ->
           (Forest.tree f1 !! w) ≫= (.!! m)
           = (Forest.tree sideBySideForest !! w) ≫= (.!! m)) /\
        (forall t' root' fp',
           Owned (Forest.heap sideBySideForest) t' root' fp' ->
           (forall i, i ∈ fp' -> i ∉ [0; 1; 2]%nat) ->
           Owned (Forest.heap f1) t' root' fp')
  | Throw e =>
      App.popTree threeWindows sideBySideForest WindowType.NORMAL 1 = Throw e
  end.
Proof.
  apply (App_popTree_slot threeWindows sideBySideForest 0 sideBySide
           [0; 1; 2]%nat 1).
  - exact sideBySide_current.
  - exact sideBySide_owned.
Defined.

(** X23: a window that appears and leaves again.  When the window's
    identifier is not in the slot's tree, [#popTree] after [#pushTree] gives
    the slot the tree it had, wherever the pointer was. *)
Theorem App_push_then_pop (dm : DesktopManager) (f f1 : Forest.t) (root : nat)
  (t : Node) (fp : list nat) (pointer : Point) (tile : Tile) :
  currentRoot dm f root ->
  Owned (Forest.heap f) t root fp ->
  populated t = true \/ t = emptySlot ->
  Tile.id tile ∉ tileIds t ->
  App.pushTree dm f WindowType.NORMAL pointer tile = Ok f1 ->
  match autotile dm t (Forest.screen f1) with
  | Ok sc2 =>
      exists f2,
        App.popTree dm f1 WindowType.NORMAL (Tile.id tile) = Ok f2 /\
        Forest.slot f2 (active_workspace (host dm)) (get_current_monitor (host dm))
          = Some t /\
        Forest.screen f2 = sc2
  | Throw e => App.popTree dm f1 WindowType.NORMAL (Tile.id tile) = Throw e
  end.
Proof.
  intros Hslot Hown Hshape Hfresh Hpush.
  destruct (pushTree_removeId_slot dm t pointer tile None Hshape Hfresh)
    as (pushed & Hpure & Hback).
  pose proof (App_pushTree_run dm f root t fp pointer tile Hslot Hown) as Hrun.
  rewrite Hpure in Hrun.
  destruct (autotile dm pushed (Forest.screen f)) as [sc1|e];
    [| congruence].
  destruct Hrun as (h1 & fp1 & Hrun & Hown1 & _).
  rewrite Hrun in Hpush. injection Hpush as <-.
  assert (Hslot1 : currentRoot dm (Forest.mk (Forest.tree f) h1 sc1) root)
    by exact Hslot.
  pose proof (App_popTree_run dm _ root pushed fp1 (Tile.id tile) Hslot1 Hown1)
    as Hpop.
  rewrite Hback in Hpop. cbn [Forest.screen] in Hpop |- *.
  destruct (autotile dm t sc1) as [sc2|e]; [| exact Hpop].
  destruct Hpop as (f2 & root2 & fp2 & Hpop & Hslot2 & Hown2 & Hsc & _).
  exists f2. split; [exact Hpop |]. split; [| exact Hsc].
  rewrite (slot_root dm _ root2) by exact Hslot2.
  apply (Owned_snapshot _ _ _ _ Hown2).
Qed.

Lemma App_push_then_pop_witness :
  exists f1,
    App.pushTree threeWindows sideBySideForest WindowType.NORMAL
      (Point.mk (ofZ 100) (ofZ 100)) (Tile.new 3) = Ok f1 /\
    match autotile threeWindows sideBySide (Forest.screen f1) with
    | Ok sc2 =>
        exists f2,
          App.popTree threeWindows f1 WindowType.NORMAL 3 = Ok f2 /\
          Forest.slot f2 0 0 = Some sideBySide /\
          Forest.screen f2 = sc2
    | Throw e => App.popTree threeWindows f1 WindowType.NORMAL 3 = Throw e
    end.
Proof.
  destruct (App.pushTree threeWindows sideBySideForest WindowType.NORMAL
              (Point.mk (ofZ 100) (ofZ 100)) (Tile.new 3)) as [f1|e] eqn:Hrun;
    [| vm_compute in Hrun; discriminate Hrun].
  exists f1. split; [reflexivity |].
  apply (App_push_then_pop threeWindows sideBySideForest f1 0 sideBySide
           [0; 1; 2]%nat (Point.mk (ofZ 100) (ofZ 100)) (Tile.new 3)).
  - exact sideBySide_current.
  - exact sideBySide_owned.
  - left. reflexivity.
  - apply not_in_one_two; discriminate.
  - exact Hrun.
Defined.





(** ** The builder leaves a tree that shares no object *)

Lemma insertWindows_chain_owned (workArea : Rectangle) (rest : list Window) :
  forall index (h : Heap) cursor first,
    h !! cursor = Some (HNode.leafOf (PTile (Tile.new first))) ->
    exists h1 cursor1 fp,
      insertWindows workArea index rest (h, cursor) = Ok (h1, cursor1) /\
      Rep h1 (chainTree workArea index first rest) cursor fp /\
      NoDup fp /\
      (forall i, i ∈ fp -> i = cursor \/ (length h <= i)%nat) /\
      (forall i, (i < length h)%nat -> i <> cursor -> h1 !! i = h !! i).
Proof.
  induction rest as [|window rest IH]; intros index h cursor first Hcur.
  - exists h, cursor, [cursor]. split; [reflexivity |]. split.
    { exists None, None, [], []. auto. }
    split; [apply NoDup_singleton |]. split; [| auto].
    intros i Hi. apply list_elem_of_singleton in Hi. auto.
  - pose proof (lookup_lt_Some _ _ _ Hcur) as Hlt.
    set (old := HNode.leafOf (PTile (Tile.new first))) in *.
    set (new := HNode.leafOf (PTile (Tile.new (get_id window)))).
    set (l := length h).
    set (r := length (h ++ [old])).
    set (split := HNode.mk (PContainer (Container.new (initSplit index workArea)))
                    (Some l) (Some r)).
    set (h0 := <[cursor := split]> ((h ++ [old]) ++ [new])).
    assert (Hr : r = S l) by (unfold r, l; rewrite length_app; simpl; lia).
    assert (Hlen0 : length h0 = S (S l)).
    { unfold h0. rewrite length_insert, !length_app. simpl. unfold l. lia. }
    assert (Hrun : insertWindow workArea index window (h, cursor) = Ok (h0, r)).
    { unfold insertWindow, alloc. rewrite Hcur. reflexivity. }
    assert (Hh0 : forall i, i <> cursor ->
                    h0 !! i = ((h ++ [old]) ++ [new]) !! i).
    { intros i Hi. unfold h0. apply list_lookup_insert_ne. congruence. }
    assert (Hh0r : h0 !! r = Some new).
    { rewrite Hh0 by (rewrite Hr; unfold l; lia).
      unfold r. apply list_lookup_middle. reflexivity. }
    assert (Hh0l : h0 !! l = Some old).
    { rewrite Hh0 by (unfold l; lia).
      rewrite lookup_app_l by (rewrite length_app; simpl; unfold l; lia).
      apply list_lookup_middle. reflexivity. }
    assert (Hh0c : h0 !! cursor = Some split).
    { unfold h0. apply list_lookup_insert_eq. rewrite !length_app. simpl. lia. }
    destruct (IH (S index) h0 r (get_id window) Hh0r)
      as (h1 & cursor1 & fpr & Hrest & Hrep & Hnd & Hfp & Hsame).
    exists h1, cursor1, (cursor :: [l] ++ fpr).
    cbn [insertWindows]. rewrite Hrun. cbn [bind].
    split; [exact Hrest |].
    assert (Hfpr : forall i, i ∈ fpr -> (l < i)%nat).
    { intros i Hi. destruct (Hfp i Hi) as [-> | Hge]; lia. }
    split.
    { cbn [chainTree]. exists (Some l), (Some r), [l], fpr.
      split; [rewrite Hsame by (rewrite ?Hlen0, ?Hr; unfold l; lia); exact Hh0c |].
      split; [reflexivity |]. split; [| exact Hrep].
      exists None, None, [], []. split; [| auto].
      rewrite Hsame by (rewrite ?Hlen0, ?Hr; unfold l; lia). exact Hh0l. }
    split.
    { apply NoDup_cons. split.
      - intros [-> | Hi]%elem_of_cons; [unfold l in *; lia |].
        apply Hfpr in Hi. unfold l in *. lia.
      - apply NoDup_cons. split; [| exact Hnd].
        intros Hi. apply Hfpr in Hi. lia. }
    split.
    { intros i [-> | [-> | Hi]%elem_of_cons]%elem_of_cons;
        [left; reflexivity | right; unfold l; lia |].
      right. apply Hfpr in Hi. unfold l in *. lia. }
    intros i Hi Hne. rewrite Hsame by (rewrite ?Hlen0, ?Hr; unfold l; lia).
    rewrite Hh0 by exact Hne.
    rewrite !lookup_app_l by (rewrite ?length_app; simpl; lia). reflexivity.
Qed.

Lemma insertWindows_owned (workArea : Rectangle) (windows : list Window)
  (h : Heap) (root : nat) :
  h !! root = Some emptyRoot ->
  exists h1 cursor fp,
    insertWindows workArea 0 windows (h, root) = Ok (h1, cursor) /\
    Owned h1 (builtTree workArea windows) root fp /\
    (forall i, i ∈ fp -> i = root \/ (length h <= i)%nat) /\
    (forall i, (i < length h)%nat -> i <> root -> h1 !! i = h !! i).
Proof.
  intros Hroot. pose proof (lookup_lt_Some _ _ _ Hroot) as Hlt.
  destruct windows as [|window rest].
  - exists h, root, [root]. split; [reflexivity |]. split.
    { split; [| apply NoDup_singleton]. exists None, None, [], []. auto. }
    split; [| auto].
    intros i Hi. apply list_elem_of_singleton in Hi. auto.
  - set (h0 := <[root := HNode.leafOf (PTile (Tile.new (get_id window)))]> h).
    assert (Hrun : insertWindow workArea 0 window (h, root) = Ok (h0, root)).
    { unfold insertWindow. rewrite Hroot. reflexivity. }
    assert (Hcur : h0 !! root
                   = Some (HNode.leafOf (PTile (Tile.new (get_id window))))).
    { unfold h0. apply list_lookup_insert_eq. exact Hlt. }
    assert (Hlen0 : length h0 = length h) by (unfold h0; apply length_insert).
    destruct (insertWindows_chain_owned workArea rest 1 h0 root (get_id window) Hcur)
      as (h1 & cursor1 & fp & Hrest & Hrep & Hnd & Hfp & Hsame).
    exists h1, cursor1, fp. cbn [insertWindows]. rewrite Hrun. cbn [bind].
    split; [exact Hrest |]. split; [split; assumption |]. split.
    + intros i Hi. rewrite <- Hlen0. apply Hfp, Hi.
    + intros i Hi Hne. rewrite Hsame by (rewrite ?Hlen0; auto).
      unfold h0. apply list_lookup_insert_ne. congruence.
Qed.

(** ** The forest of one monitor *)

Lemma newForest_one (n : nat) :
  forall h,
    newForest n 1 h
    = (h ++ replicate n emptyRoot, map (fun w => [w]) (seq (length h) n)).
Proof.
  induction n as [|n IH]; intros h.
  - simpl. rewrite app_nil_r. reflexivity.
  - cbn [newForest alloc]. fold emptyRoot. rewrite IH.
    rewrite length_app. simpl. rewrite <- app_assoc. simpl.
    replace (length h + 1)%nat with (S (length h)) by lia. reflexivity.
Qed.

Lemma fitSlots_app (dm : DesktopManager) (monitorIdx : nat)
  (a b : list (list Window)) :
  forall sc,
    fitSlots dm monitorIdx (a ++ b) sc
    = (sc1 <- fitSlots dm monitorIdx a sc ;; fitSlots dm monitorIdx b sc1).
Proof.
  induction a as [|ws a IH]; intros sc; [reflexivity |].
  simpl. destruct (autotile dm (slotTree dm monitorIdx ws) sc) as [sc1|e];
    [apply IH | reflexivity].
Qed.

Lemma initSlots_run (dm : DesktopManager) (sc : Screen) (n : nat) :
  n = length (workspaces (host dm)) ->
  let tree := map (fun w => [w]) (seq 0 n) in
  forall k, (k <= n)%nat ->
    match fitSlots dm 0 (take k (workspaces (host dm))) sc with
    | Ok sck =>
        exists hk fps,
          forUpTo k (initSlot dm tree 0 (workArea dm 0)) (replicate n emptyRoot, sc)
          = Ok (hk, sck) /\
          builtUpTo dm k hk fps
    | Throw e =>
        forUpTo k (initSlot dm tree 0 (workArea dm 0)) (replicate n emptyRoot, sc)
        = Throw e
    end.
Proof.
  intros Hn tree. unfold builtUpTo. cbv zeta. rewrite <- Hn.
  induction k as [|k IH]; intros Hk.
  - simpl. exists (replicate n emptyRoot), (fun _ => []).
    split; [reflexivity |]. split; [| split].
    + intros w Hw. apply lookup_replicate. split; [reflexivity | lia].
    + intros w ws Hw. lia.
    + intros w w' Hw. lia.
  - specialize (IH ltac:(lia)).
    destruct (lookup_lt_is_Some_2 (workspaces (host dm)) k ltac:(rewrite <- Hn; lia))
      as [workspace Hws].
    rewrite (take_S_r _ _ _ Hws), fitSlots_app.
    cbn [forUpTo].
    destruct (fitSlots dm 0 (take k (workspaces (host dm))) sc) as [sck|e];
      [| rewrite IH; reflexivity].
    destruct IH as (hk & fps & Hrun & Hempty & Hbuilt & Hdisj).
    rewrite Hrun. cbn [bind fitSlots].
    destruct (insertWindows_owned (workArea dm 0)
                (List.filter (eligible 0) workspace) hk k
                (Hempty k ltac:(lia)))
      as (h1 & cursor & fp & Hins & Hown & Hfp & Hsame).
    assert (Hlenk : (n <= length hk)%nat).
    { pose proof (lookup_lt_Some _ _ _ (Hempty (n - 1)%nat ltac:(lia))). lia. }
    assert (Hstep : initSlot dm tree 0 (workArea dm 0) k (hk, sck)
                    = (sc1 <- autotile dm (slotTree dm 0 workspace) sck ;;
                       Ok (h1, sc1))).
    { unfold initSlot. rewrite Hws. cbn [orThrow bind].
      assert (Hrow : tree !! k = Some [k]).
      { unfold tree. rewrite list_lookup_fmap, lookup_seq_lt by lia. reflexivity. }
      rewrite Hrow. cbn [orThrow bind lookup list_lookup].
      rewrite Hins. cbn [bind fst]. rewrite (Owned_snapshot _ _ _ _ Hown).
      reflexivity. }
    destruct (autotile dm (slotTree dm 0 workspace) sck) as [sc1|e];
      cbn [bind] in Hstep |- *; [| exact Hstep].
    exists h1, (fun w => if Nat.eqb w k then fp else fps w).
    split; [exact Hstep |]. split; [| split].
    + intros w Hw. rewrite Hsame; [apply Hempty; lia | | lia].
      pose proof (lookup_lt_Some _ _ _ (Hempty w ltac:(lia))). lia.
    + intros w ws Hw Hlook. destruct (Nat.eqb_spec w k) as [-> | Hne].
      * rewrite Hws in Hlook. injection Hlook as <-.
        split; [exact Hown |]. intros i Hi.
        destruct (Hfp i Hi) as [-> | Hge]; [left; reflexivity | right; lia].
      * destruct (Hbuilt w ws ltac:(lia) Hlook) as [Hown_w Hfp_w].
        split; [| exact Hfp_w].
        eapply Owned_frame; [| exact Hown_w]. intros i Hi.
        apply Hsame.
        -- eapply Rep_bound; [exact (proj1 Hown_w) | exact Hi].
        -- destruct (Hfp_w i Hi) as [-> | Hge]; lia.
    + intros w w' Hw Hw' Hne i.
      destruct (Nat.eqb_spec w k) as [-> | Hnk];
        destruct (Nat.eqb_spec w' k) as [-> | Hnk']; try congruence.
      * intros Hi Hi'.
        destruct (lookup_lt_is_Some_2 (workspaces (host dm)) w' ltac:(rewrite <- Hn; lia))
          as [ws' Hws'].
        destruct (Hbuilt w' ws' ltac:(lia) Hws') as [Hown' Hfp'].
        pose proof (Rep_bound _ _ _ _ (proj1 Hown') i Hi').
        destruct (Hfp i Hi) as [-> | Hge]; [| lia].
        destruct (Hfp' k Hi') as [-> | Hge]; lia.
      * intros Hi Hi'.
        destruct (lookup_lt_is_Some_2 (workspaces (host dm)) w ltac:(rewrite <- Hn; lia))
          as [ws0 Hws0].
        destruct (Hbuilt w ws0 ltac:(lia) Hws0) as [Hown0 Hfp0].
        pose proof (Rep_bound _ _ _ _ (proj1 Hown0) i Hi).
        destruct (Hfp i Hi') as [-> | Hge]; [| lia].
        destruct (Hfp0 k Hi) as [-> | Hge]; lia.
      * apply Hdisj; lia.
Qed.

Lemma initTree_fitSlots (dm : DesktopManager) (sc : Screen) :
  get_n_monitors (host dm) = 1%nat ->
  match fitSlots dm 0 (workspaces (host dm)) sc with
  | Ok sc1 =>
      exists h fps,
        initTree dm sc
        = Ok (Forest.mk (map (fun w => [w])
                           (seq 0 (length (workspaces (host dm))))) h sc1) /\
        builtUpTo dm (length (workspaces (host dm))) h fps
  | Throw e => initTree dm sc = Throw e
  end.
Proof.
  intros Hmon.
  pose proof (initSlots_run dm sc (length (workspaces (host dm))) eq_refl
                (length (workspaces (host dm))) (le_n _)) as Hrun.
  cbv zeta in Hrun. rewrite firstn_all in Hrun.
  unfold initTree. rewrite Hmon, newForest_one.
  cbn [app length forUpTo bind].
  destruct (fitSlots dm 0 (workspaces (host dm)) sc) as [sc1|e].
  - destruct Hrun as (h & fps & -> & Hbuilt). cbn [bind fst snd].
    exists h, fps. split; [reflexivity | exact Hbuilt].
  - rewrite Hrun. reflexivity.
Qed.

(** X25: with one monitor [#initTree] is the fit of the trees of the
    workspaces, one after the other.  It throws what the first of these
    fits that throws does, and else every slot holds the tree built of the
    eligible windows of its workspace, no two slots share an object, and the
    screen is the one the fits leave. *)
Theorem initTree_one_monitor (dm : DesktopManager) (sc : Screen) :
  get_n_monitors (host dm) = 1%nat ->
  match fitSlots dm 0 (workspaces (host dm)) sc with
  | Ok sc1 =>
      exists forest fps,
        initTree dm sc = Ok forest /\
        Forest.screen forest = sc1 /\
        forall w workspace,
          workspaces (host dm) !! w = Some workspace ->
          Forest.tree forest !! w = Some [w] /\
          Forest.slot forest w 0 = Some (slotTree dm 0 workspace) /\
          Owned (Forest.heap forest) (slotTree dm 0 workspace) w (fps w) /\
          forall w',
            (w' < length (workspaces (host dm)))%nat -> w <> w' ->
            forall i, i ∈ fps w -> i ∉ fps w'
  | Throw e => initTree dm sc = Throw e
  end.
Proof.
  intros Hone. pose proof (initTree_fitSlots dm sc Hone) as Hrun.
  destruct (fitSlots dm 0 (workspaces (host dm)) sc) as [sc1|e]; [| exact Hrun].
  destruct Hrun as (h & fps & Hrun & _ & Hbuilt & Hdisj).
  eexists _, fps. split; [exact Hrun |]. split; [reflexivity |].
  intros w workspace Hws.
  pose proof (lookup_lt_Some _ _ _ Hws) as Hlt.
  destruct (Hbuilt w workspace Hlt Hws) as [Hown _].
  assert (Hrow : map (fun w0 => [w0]) (seq 0 (length (workspaces (host dm)))) !! w
                 = Some [w]).
  { rewrite list_lookup_fmap, lookup_seq_lt by exact Hlt. reflexivity. }
  split; [exact Hrow |]. split.
  { unfold Forest.slot. cbn [Forest.tree Forest.heap]. rewrite Hrow.
    cbn [lookup list_lookup]. apply (Owned_snapshot _ _ _ _ Hown). }
  split; [exact Hown |].
  intros w' Hw' Hne. apply Hdisj; assumption.
Qed.

Lemma initTree_one_monitor_witness :
  exists forest fps,
    initTree twoWorkspaces (screenAt area1000x600) = Ok forest /\
    Forest.slot forest 0 0
    = Some (slotTree twoWorkspaces 0 [plainWindow 1 0; plainWindow 2 0]) /\
    Forest.slot forest 1 0
    = Some (slotTree twoWorkspaces 0
              [plainWindow 1 0; plainWindow 2 0; plainWindow 3 0]) /\
    Owned (Forest.heap forest)
      (slotTree twoWorkspaces 0 [plainWindow 1 0; plainWindow 2 0]) 0 (fps 0%nat) /\
    Owned (Forest.heap forest)
      (slotTree twoWorkspaces 0
         [plainWindow 1 0; plainWindow 2 0; plainWindow 3 0]) 1 (fps 1%nat) /\
    forall i, i ∈ fps 0%nat -> i ∉ fps 1%nat.
Proof.
  pose proof (initTree_one_monitor twoWorkspaces (screenAt area1000x600) eq_refl)
    as Hrun.
  destruct (fitSlots twoWorkspaces 0 (workspaces (host twoWorkspaces))
              (screenAt area1000x600)) as [sc1|e] eqn:Hfit;
    [| vm_compute in Hfit; discriminate Hfit].
  destruct Hrun as (forest & fps & Hrun & _ & Hslots).
  destruct (Hslots 0%nat _ eq_refl) as (_ & Hslot0 & Hown0 & Hapart).
  destruct (Hslots 1%nat _ eq_refl) as (_ & Hslot1 & Hown1 & _).
  exists forest, fps. split; [exact Hrun |]. split; [exact Hslot0 |].
  split; [exact Hslot1 |]. split; [exact Hown0 |]. split; [exact Hown1 |].
  apply (Hapart 1%nat); [simpl; lia | discriminate].
Defined.

(** Every identifier of [ids] is the identifier of a window, or one of them
    is the identifier of none. *)
Lemma live_or_dangling (windows : list Window) (ids : list Z) :
  (forall id, id ∈ ids -> exists w, w ∈ windows /\ get_id w = id) \/
  (exists id, id ∈ ids /\ forall w, w ∈ windows -> get_id w <> id).
Proof.
  induction ids as [|id ids IH].
  - left. intros id []%elem_of_nil.
  - destruct IH as [Hlive | (id' & Hin & Hno)].
    2:{ right. exists id'. split; [right; exact Hin | exact Hno]. }
    destruct (findWindow windows id) as [w|] eqn:Hfind.
    + left. intros id' [-> | Hin]%elem_of_cons; [| apply Hlive, Hin].
      exists w. split; [| eapply findWindow_id, Hfind].
      unfold findWindow in Hfind. apply find_some in Hfind as [Hin _].
      apply list_elem_of_In, Hin.
    + right. exists id. split; [left |].
      intros w Hin Hid. unfold findWindow in Hfind.
      apply list_elem_of_In in Hin.
      pose proof (find_none _ _ Hfind w Hin) as Hfalse. cbv beta in Hfalse.
      apply Z.eqb_neq in Hfalse. contradiction.
Qed.

Lemma autotile_fitTree (dm : DesktopManager) (tree : Node) (sc : Screen) :
  autotile dm tree sc
  = fitTree dm tree (workArea dm (get_current_monitor (host dm)))
      (autotileWindows dm) sc.
Proof. reflexivity. Qed.

Lemma fitSlots_live (dm : DesktopManager) (monitorIdx : nat)
  (workspaces : list (list Window)) :
  (forall workspace window,
     workspace ∈ workspaces ->
     window ∈ List.filter (eligible monitorIdx) workspace ->
     exists w, w ∈ autotileWindows dm /\ get_id w = get_id window) ->
  forall sc, exists sc1, fitSlots dm monitorIdx workspaces sc = Ok sc1.
Proof.
  induction workspaces as [|ws rest IH]; intros Hlive sc; [eexists; reflexivity |].
  cbn [fitSlots]. rewrite autotile_fitTree.
  destruct (builtTree_tiles (workArea dm monitorIdx)
              (List.filter (eligible monitorIdx) ws)) as [Hids Hshape].
  destruct (fitTree_returns dm (autotileWindows dm) (slotTree dm monitorIdx ws)
              (workArea dm (get_current_monitor (host dm))) sc) as [sc1 ->];
    [| exact Hshape |].
  - intros id Hin. unfold slotTree in Hin. rewrite Hids in Hin.
    apply list_elem_of_fmap in Hin as (window & -> & Hin).
    apply (Hlive ws window); [left | exact Hin].
  - cbn [bind]. apply IH. intros workspace window Hws.
    apply Hlive. right. exact Hws.
Qed.

Lemma fitSlots_dangling (dm : DesktopManager) (monitorIdx : nat)
  (workspaces : list (list Window)) :
  (exists workspace window,
     workspace ∈ workspaces /\
     window ∈ List.filter (eligible monitorIdx) workspace /\
     forall w, w ∈ autotileWindows dm -> get_id w <> get_id window) ->
  forall sc, fitSlots dm monitorIdx workspaces sc = Throw TypeError.
Proof.
  induction workspaces as [|ws rest IH];
    intros (workspace & window & Hws & Hwin & Hno) sc.
  - apply elem_of_nil in Hws as [].
  - cbn [fitSlots]. rewrite autotile_fitTree.
    destruct (builtTree_tiles (workArea dm monitorIdx)
                (List.filter (eligible monitorIdx) ws)) as [Hids Hshape].
    destruct (live_or_dangling (autotileWindows dm)
                (tileIds (slotTree dm monitorIdx ws))) as [Hlive | Hdang].
    + destruct (fitTree_returns dm (autotileWindows dm) (slotTree dm monitorIdx ws)
                  (workArea dm (get_current_monitor (host dm))) sc Hlive Hshape)
        as [sc1 ->].
      cbn [bind]. apply IH. exists workspace, window.
      split; [| split; assumption].
      apply elem_of_cons in Hws as [-> | Hws]; [| exact Hws].
      exfalso. destruct (Hlive (get_id window)) as (w & Hw & Hid).
      * unfold slotTree. rewrite Hids. apply list_elem_of_fmap.
        exists window. split; [reflexivity | exact Hwin].
      * exact (Hno w Hw Hid).
    + rewrite (fitTree_dangling dm (autotileWindows dm) _ _ sc Hshape Hdang).
      reflexivity.
Qed.

(** X26: with one monitor [#initTree] returns when every eligible window of
    every workspace is among the windows [autotile] looks up, the eligible
    windows of the active workspace, and raises a [TypeError] when one is
    not. *)
Theorem initTree_returns_iff_live (dm : DesktopManager) (sc : Screen) :
  get_n_monitors (host dm) = 1%nat ->
  ((forall workspace window,
      workspace ∈ workspaces (host dm) ->
      window ∈ List.filter (eligible 0) workspace ->
      exists w, w ∈ autotileWindows dm /\ get_id w = get_id window) ->
   exists forest, initTree dm sc = Ok forest) /\
  ((exists workspace window,
      workspace ∈ workspaces (host dm) /\
      window ∈ List.filter (eligible 0) workspace /\
      forall w, w ∈ autotileWindows dm -> get_id w <> get_id window) ->
   initTree dm sc = Throw TypeError).
Proof.
  intros Hone. pose proof (initTree_fitSlots dm sc Hone) as Hrun. split.
  - intros Hlive.
    destruct (fitSlots_live dm 0 _ Hlive sc) as [sc1 Hfit].
    rewrite Hfit in Hrun. destruct Hrun as (h & fps & Hrun & _). eauto.
  - intros Hdang. rewrite (fitSlots_dangling dm 0 _ Hdang sc) in Hrun.
    exact Hrun.
Qed.

Lemma initTree_returns_iff_live_witness :
  (exists forest, initTree twoWorkspaces (screenAt area1000x600) = Ok forest) /\
  initTree strayWindow (screenAt area1000x600) = Throw TypeError.
Proof.
  split.
  - apply (initTree_returns_iff_live twoWorkspaces (screenAt area1000x600) eq_refl).
    intros workspace window Hws Hwin.
    apply elem_of_cons in Hws as [-> | Hws];
      [| apply list_elem_of_singleton in Hws; subst workspace].
    + apply list_elem_of_In in Hwin. simpl in Hwin.
      destruct Hwin as [<- | [<- | []]].
      * exists (plainWindow 1 0). split; [left | reflexivity].
      * exists (plainWindow 2 0). split; [right; left | reflexivity].
    + exists window. split; [exact Hwin | reflexivity].
  - apply (initTree_returns_iff_live strayWindow (screenAt area1000x600) eq_refl).
    exists [plainWindow 1 0; plainWindow 4 0], (plainWindow 4 0).
    split; [left |]. split; [right; left |].
    intros w Hw. apply list_elem_of_In in Hw. simpl in Hw.
    destruct Hw as [<- | [<- | [<- | []]]]; discriminate.
Defined.
